(** * cc-session: conversation state synchronisation

    A shallow embedding of the core of [src/chat-message.ts] and
    [src/session.ts]: the renderable message model, the tool-result linker,
    the read-coalescer, the history differ, the aggregates tracker and the
    session state machine, followed by the properties established for them.

    Conventions of the embedding.
    - A JavaScript array is a [list]; [messages[index]] is [messages !! index].
    - A [ChatMessage] is an object with identity: [msg_ref] is the identity of
      the object (its allocation number), compared by [===] / [!==] and by
      [Array.prototype.includes].  Every construction path of the source
      ([new ChatMessage]) allocates a fresh object, so the slots of one
      history array hold pairwise distinct objects, and a reference into a
      history array is represented by the position of the slot.
    - A [ChatMessagePart] is owned by exactly one turn; mutating its result
      slot is an update of the owning turn at its position in the array.
    - [Date.now()], [nanoid()] and [Math.random()] read from an explicit
      [World] that is threaded through the functions calling them.
    - A JavaScript [Map] is an insertion-ordered association list ([JSMap]).
    - Notifications handed to [noticeSubscribers] are collected, in emission
      order, in a trace of [BroadcastMessage]s.  Subscriber callbacks are
      observers: notified through [noticeSubscribers] they return normally
      and do not call back into the session.  Only the invocation of a
      callback inside [subscribe], which the source guards with [try], is
      followed when it throws.
    - A call that may throw returns a [Completion]; [Thrown reason] carries
      the text the handlers of the source record of the thrown value
      ([error.message]).  The message of a [TypeError] is the one Node.js
      (V8) gives it.
    - A [string] is the UTF-8 encoding of the JavaScript string.
    - A number is an integer ([Z]), the value of the double when that value
      is integral.  The sum of two doubles with integral values is their
      exact sum when it lies between [-2^53] and [2^53]; the properties
      about sums assume that much.
    - Every fragment handed to the session is a freshly deserialised value:
      two fragments share no object, so an object or an array of one is
      never [===] to one of another. *)

From Stdlib Require Import ZArith QArith.
From stdpp Require Import base list strings pretty.

Open Scope Z_scope.
Open Scope string_scope.
Open Scope list_scope.
Open Scope nat_scope.

(** ** Insertion-ordered maps with string keys (JavaScript [Map]) *)

Module JSMap.
Section ops.
Context {V : Type}.

Definition t : Type := list (string * V).

Definition empty : t := [].

Fixpoint get (m : t) (key : string) : option V :=
  match m with
  | [] => None
  | (k, v) :: m' => if bool_decide (k = key) then Some v else get m' key
  end.

Definition has (m : t) (key : string) : bool :=
  match get m key with Some _ => true | None => false end.

(** [set] on a present key replaces the value and keeps the position of
    the entry; on an absent key it appends the entry. *)
Fixpoint set (m : t) (key : string) (value : V) : t :=
  match m with
  | [] => [(key, value)]
  | (k, v) :: m' =>
      if bool_decide (k = key) then (key, value) :: m'
      else (k, v) :: set m' key value
  end.

Fixpoint delete (m : t) (key : string) : t :=
  match m with
  | [] => []
  | (k, v) :: m' =>
      if bool_decide (k = key) then m' else (k, v) :: delete m' key
  end.

Definition keys (m : t) : list string := m.*1.
Definition values (m : t) : list V := m.*2.
Definition size (m : t) : nat := length m.
End ops.
Arguments t : clear implicits.
End JSMap.

(** ** Data model ([src/types.ts], [src/chat-message.ts]) *)

(** Untyped payloads ([Record<string, unknown>]). *)
#[local] Unset Elimination Schemes.
Inductive JSON : Type :=
  | JNull
  | JBool (b : bool)
  | JNumber (n : Z)
  | JString (s : string)
  | JArray (items : list JSON)
  | JObject (fields : list (string * JSON)).
#[local] Set Elimination Schemes.

(** [content: string | TextContentBlock[]] of a tool result. *)
Inductive ToolResultContent : Type :=
  | ResultString (text : string)
  | ResultTextBlocks (texts : list string).

Record ToolResultContentBlock : Type := mkToolResult {
  tool_use_id : string;
  result_content : ToolResultContent;
  is_error : bool
}.

Inductive MessageContentBlock : Type :=
  | TextBlock (text : string)
  | ImageBlock (media_type data : string)
  | DocumentBlock (source_type media_type data : string) (title : option string)
  | ToolUseBlock (id name : string) (input : JSON)
  | ThinkingBlock (thinking : option string)
  | ToolResultBlock (block : ToolResultContentBlock).

(** The discriminating [type] field of a content block. *)
Definition block_type (block : MessageContentBlock) : string :=
  match block with
  | TextBlock _ => "text"
  | ImageBlock _ _ => "image"
  | DocumentBlock _ _ _ _ => "document"
  | ToolUseBlock _ _ _ => "tool_use"
  | ThinkingBlock _ => "thinking"
  | ToolResultBlock _ => "tool_result"
  end.

(** [class ChatMessagePart]: an immutable content block and the mutable
    result slot [toolResultData], read through the getter [toolResult]. *)
Record ChatMessagePart : Type := mkPart {
  part_content : MessageContentBlock;
  toolResult : option ToolResultContentBlock
}.

(** [new ChatMessagePart(content)]: the slot starts out empty. *)
Definition newChatMessagePart (content : MessageContentBlock) : ChatMessagePart :=
  {| part_content := content; toolResult := None |}.

(** [part.setToolResult(result)]. *)
Definition setToolResult (part : ChatMessagePart) (result : ToolResultContentBlock)
  : ChatMessagePart :=
  {| part_content := part_content part; toolResult := Some result |}.

(** [class ChatMessage]. *)
Record ChatMessage : Type := mkMessage {
  msg_ref : nat;
  msg_type : string;
  msg_content : list ChatMessagePart;
  msg_timestamp : Z;
  msg_id : string
}.

(** [get isEmpty()]. *)
Definition isEmpty (message : ChatMessage) : bool :=
  if bool_decide (msg_type message = "system") then false
  else bool_decide (length (msg_content message) = 0)
       || forallb (fun part => bool_decide (block_type (part_content part) = "tool_result"))
            (msg_content message).

(** Token figures of an assistant usage report. *)
Record TokenUsage : Type := mkTokenUsage {
  input_tokens : Z;
  output_tokens : Z;
  cache_creation_input_tokens : option Z;
  cache_read_input_tokens : option Z
}.

(** [message.message.content] of a user or assistant fragment. *)
Inductive SDKContent : Type :=
  | StringContent (text : string)
  | BlockContent (blocks : list MessageContentBlock).

(** An update fragment ([SDKMessage]).  Only the fields the core reads are
    kept; a field that may be missing is an [option].  [sdk_timestamp] holds
    what [extractMessageTimestamp] / [extractTimestamp] obtain from the raw
    [timestamp] field, and [sdk_modelUsage] maps a model name to the
    [contextWindow] of its entry. *)
Record SDKMessage : Type := mkSDKMessage {
  sdk_type : string;
  sdk_uuid : option string;
  sdk_timestamp : option Z;
  sdk_session_id : string;
  sdk_content : SDKContent;
  sdk_usage : option TokenUsage;
  sdk_subtype : option string;
  sdk_model : option string;
  sdk_tools : option (list string);
  sdk_permissionMode : option string;
  sdk_total_cost_usd : option Q;
  sdk_modelUsage : option (list (string * option Z))
}.

(** ** The ambient world: clock, entropy, object allocation *)

(** [clock] is what [Date.now()] reads, [entropy n] is what the [n]-th call
    of a random generator ([nanoid], [randomUUID], [Math.random]) yields,
    [allocated] counts the [ChatMessage] objects constructed so far, and
    [atob] is the platform's base64 decoder ([None] when it throws). *)
Record World : Type := mkWorld {
  clock : Z;
  entropy : nat -> string;
  drawn : nat;
  allocated : nat;
  atob : string -> option string
}.

Definition set_drawn (value : nat) (w : World) : World :=
  {| clock := clock w; entropy := entropy w; drawn := value;
     allocated := allocated w; atob := atob w |}.

Definition set_allocated (value : nat) (w : World) : World :=
  {| clock := clock w; entropy := entropy w; drawn := drawn w;
     allocated := value; atob := atob w |}.

(** [Date.now()]. *)
Definition Date_now (w : World) : Z := clock w.

Definition draw (w : World) : string * World :=
  (entropy w (drawn w), set_drawn (S (drawn w)) w).

(** [nanoid()]. *)
Definition nanoid (w : World) : string * World := draw w.

(** [Math.random().toString(36).slice(2)]. *)
Definition Math_random_base36 (w : World) : string * World := draw w.

(** [new ChatMessage(type, content, timestamp, id)]: a fresh object. *)
Definition newChatMessage (type : string) (content : list ChatMessagePart)
    (timestamp : Z) (id : string) (w : World) : ChatMessage * World :=
  ({| msg_ref := allocated w; msg_type := type; msg_content := content;
      msg_timestamp := timestamp; msg_id := id |},
   set_allocated (S (allocated w)) w).

(** ** Rendering a fragment ([createChatMessageFromSDKMessage]) *)

Definition createTextMessage (type text id : string) (timestamp : option Z)
    (w : World) : ChatMessage * World :=
  newChatMessage type [newChatMessagePart (TextBlock text)]
    (default (Date_now w) timestamp) id w.

Definition extractMessageUuid (message : SDKMessage) (w : World) : string * World :=
  match sdk_uuid message with
  | Some uuid => (uuid, w)
  | None => nanoid w
  end.

Definition extractMessageTimestamp (message : SDKMessage) : option Z :=
  sdk_timestamp message.

Definition createChatMessageFromSDKMessage (message : SDKMessage) (w : World)
  : option ChatMessage * World :=
  let '(messageId, w) := extractMessageUuid message w in
  let timestamp := extractMessageTimestamp message in
  if bool_decide (sdk_type message = "user")
     || bool_decide (sdk_type message = "assistant") then
    match sdk_content message with
    | StringContent content =>
        let '(created, w) :=
          createTextMessage (sdk_type message) content messageId timestamp w in
        (Some created, w)
    | BlockContent content =>
        let parts := map newChatMessagePart content in
        let '(created, w) :=
          newChatMessage (sdk_type message) parts
            (default (Date_now w) timestamp) messageId w in
        (Some created, w)
    end
  else if bool_decide (sdk_type message = "stream_event") then (None, w)
  else
    let '(created, w) :=
      newChatMessage (sdk_type message) [] (default (Date_now w) timestamp)
        messageId w in
    (Some created, w).

(** ** The tool-result linker ([findMostRecentToolUse]) *)

(** [content.type === 'tool_use' && content.id === toolUseId]. *)
Definition isToolUseWithId (content : MessageContentBlock) (toolUseId : string) : bool :=
  match content with
  | ToolUseBlock id _ _ => bool_decide (id = toolUseId)
  | _ => false
  end.

(** Outcome of the inner [for (const part of message.content)] of the first
    loop: it returns on a matching part with an empty slot, [break]s on a
    matching part that carries a result, or runs off the end. *)
Inductive PendingScan : Type :=
  | PendingFound (part : nat)
  | PendingBreak
  | PendingNone.

Fixpoint scanPending (parts : list ChatMessagePart) (toolUseId : string)
    (position : nat) : PendingScan :=
  match parts with
  | [] => PendingNone
  | part :: rest =>
      if isToolUseWithId (part_content part) toolUseId then
        match toolResult part with
        | None => PendingFound position
        | Some _ => PendingBreak
        end
      else scanPending rest toolUseId (S position)
  end.

(** Inner loop of the fallback: the first matching part, whatever its slot. *)
Fixpoint scanAny (parts : list ChatMessagePart) (toolUseId : string)
    (position : nat) : option nat :=
  match parts with
  | [] => None
  | part :: rest =>
      if isToolUseWithId (part_content part) toolUseId then Some position
      else scanAny rest toolUseId (S position)
  end.

(** A [ToolUseMatch]: the matched turn and part, as positions. *)
Definition ToolUseMatch : Type := nat * nat.

(** First loop, [for (index = messages.length - 1; index >= 0; index -= 1)];
    [remaining] is [index + 1]. *)
Fixpoint findPendingFrom (messages : list ChatMessage) (toolUseId : string)
    (remaining : nat) : option ToolUseMatch :=
  match remaining with
  | 0 => None
  | S index =>
      match messages !! index with
      | None => findPendingFrom messages toolUseId index
      | Some message =>
          if negb (bool_decide (msg_type message = "assistant")) then
            findPendingFrom messages toolUseId index
          else
            match scanPending (msg_content message) toolUseId 0 with
            | PendingFound part => Some (index, part)
            | PendingBreak | PendingNone =>
                findPendingFrom messages toolUseId index
            end
      end
  end.

(** Second (fallback) loop. *)
Fixpoint findAnyFrom (messages : list ChatMessage) (toolUseId : string)
    (remaining : nat) : option ToolUseMatch :=
  match remaining with
  | 0 => None
  | S index =>
      match messages !! index with
      | None => findAnyFrom messages toolUseId index
      | Some message =>
          if negb (bool_decide (msg_type message = "assistant")) then
            findAnyFrom messages toolUseId index
          else
            match scanAny (msg_content message) toolUseId 0 with
            | Some part => Some (index, part)
            | None => findAnyFrom messages toolUseId index
            end
      end
  end.

Definition findMostRecentToolUse (messages : list ChatMessage) (toolUseId : string)
  : option ToolUseMatch :=
  match findPendingFrom messages toolUseId (length messages) with
  | Some found => Some found
  | None => findAnyFrom messages toolUseId (length messages)
  end.

(** ** Appending a fragment to a history ([appendRenderableMessage]) *)

Record ToolResultUpdate : Type := mkToolResultUpdate {
  update_message : ChatMessage;
  update_toolUseId : string;
  update_toolResult : ToolResultContentBlock
}.

Record AppendRenderableMessageResult : Type := mkAppendResult {
  addedMessage : option ChatMessage;
  updatedMessages : list ChatMessage;
  toolResultUpdates : list ToolResultUpdate
}.

(** [match.part.setToolResult(block)] on the history array. *)
Definition setToolResultAt (messages : list ChatMessage) (target : ToolUseMatch)
    (block : ToolResultContentBlock) : list ChatMessage :=
  match messages !! target.1 with
  | None => messages
  | Some message =>
      let content :=
        match msg_content message !! target.2 with
        | None => msg_content message
        | Some part => <[target.2 := setToolResult part block]> (msg_content message)
        end in
      <[target.1 := {| msg_ref := msg_ref message; msg_type := msg_type message;
                       msg_content := content;
                       msg_timestamp := msg_timestamp message;
                       msg_id := msg_id message |}]> messages
  end.

(** State of the loop over the blocks of the incoming fragment.  While the
    loop runs, [updatedMessages] and the [message] field of the entries of
    [toolResultUpdates] are references to turns of the array, held here as
    positions ([link_updated], and the first component of the entries of
    [link_toolResultUpdates]). *)
Record LinkState : Type := mkLinkState {
  link_messages : list ChatMessage;
  link_updated : list nat;
  link_toolResultUpdates : list (nat * string * ToolResultContentBlock)
}.

(** One iteration of [for (const block of incoming.message.content)]. *)
Definition linkBlock (state : LinkState) (block : MessageContentBlock) : LinkState :=
  match block with
  | ToolResultBlock result =>
      match findMostRecentToolUse (link_messages state) (tool_use_id result) with
      | Some target =>
          {| link_messages := setToolResultAt (link_messages state) target result;
             link_updated :=
               if bool_decide (target.1 ∈ link_updated state) then link_updated state
               else link_updated state ++ [target.1];
             link_toolResultUpdates :=
               link_toolResultUpdates state
               ++ [(target.1, tool_use_id result, result)] |}
      | None => state
      end
  | _ => state
  end.

Definition linkToolResults (messages : list ChatMessage) (incoming : SDKMessage)
  : LinkState :=
  let initial :=
    {| link_messages := messages; link_updated := [];
       link_toolResultUpdates := [] |} in
  if bool_decide (sdk_type incoming = "user") then
    match sdk_content incoming with
    | BlockContent blocks => foldl linkBlock initial blocks
    | StringContent _ => initial
    end
  else initial.

(** The references collected by the loop, read through the array as the
    caller sees them when the function returns. *)
Definition resolveUpdated (messages : list ChatMessage) (positions : list nat)
  : list ChatMessage :=
  omap (fun position => messages !! position) positions.

Definition resolveToolResultUpdates (messages : list ChatMessage)
    (links : list (nat * string * ToolResultContentBlock)) : list ToolResultUpdate :=
  omap
    (fun link : nat * string * ToolResultContentBlock =>
       match messages !! link.1.1 with
       | Some message =>
           Some {| update_message := message; update_toolUseId := link.1.2;
                   update_toolResult := link.2 |}
       | None => None
       end)
    links.

(** [appendRenderableMessage(messages, incoming)]: returns the array after
    the call (it is mutated in place by the source) and the result record. *)
Definition appendRenderableMessage (messages : list ChatMessage)
    (incoming : SDKMessage) (w : World)
  : list ChatMessage * AppendRenderableMessageResult * World :=
  let linked := linkToolResults messages incoming in
  let updated := resolveUpdated (link_messages linked) (link_updated linked) in
  let toolUpdates :=
    resolveToolResultUpdates (link_messages linked) (link_toolResultUpdates linked) in
  let '(rendered, w) := createChatMessageFromSDKMessage incoming w in
  match rendered with
  | Some created =>
      (link_messages linked ++ [created],
       {| addedMessage := Some created;
          updatedMessages := updated;
          toolResultUpdates := toolUpdates |},
       w)
  | None =>
      (link_messages linked,
       {| addedMessage := None;
          updatedMessages := updated;
          toolResultUpdates := toolUpdates |},
       w)
  end.

(** ** The read-coalescer ([coalesceReadMessages]) *)

Definition isReadToolUse (message : ChatMessage) : bool :=
  if negb (bool_decide (msg_type message = "assistant")) then false
  else
    existsb
      (fun part =>
         match part_content part with
         | ToolUseBlock _ name _ => bool_decide (name = "Read")
         | _ => false
         end)
      (msg_content message).

Definition hasSuccessfulToolResult (message : ChatMessage) : bool :=
  if negb (bool_decide (msg_type message = "assistant"))
     || bool_decide (length (msg_content message) = 0) then false
  else
    match msg_content message with
    | [] => false
    | firstPart :: _ =>
        match toolResult firstPart with
        | Some result => negb (is_error result)
        | None => false
        end
    end.

(** [message.content.find(part => part.content.type === 'tool_use')] followed
    by [toolUsePart ? toolUsePart.content.input : null]. *)
Fixpoint firstToolUseInput (parts : list ChatMessagePart) : JSON :=
  match parts with
  | [] => JNull
  | part :: rest =>
      match part_content part with
      | ToolUseBlock _ _ input => input
      | _ => firstToolUseInput rest
      end
  end.

Definition createCoalescedReadMessage (messages : list ChatMessage) (w : World)
  : ChatMessage * World :=
  let baseMessage := messages !! 0 in
  let timestamp :=
    match baseMessage with
    | Some base => msg_timestamp base
    | None => Date_now w
    end in
  let '(id, w) :=
    match baseMessage with
    | Some base => (msg_id base, w)
    | None => nanoid w
    end in
  let '(suffix, w) := Math_random_base36 w in
  let toolUseId := "coalesced_" +:+ suffix in
  let toolUse :=
    ToolUseBlock toolUseId "ReadCoalesced"
      (JObject
         [("fileReads",
           JArray (map (fun message => firstToolUseInput (msg_content message))
                     messages))]) in
  let result :=
    {| tool_use_id := toolUseId;
       result_content :=
         ResultString
           ("Successfully read " +:+ pretty (length messages) +:+ " files");
       is_error := false |} in
  let part := setToolResult (newChatMessagePart toolUse) result in
  newChatMessage "assistant" [part] timestamp id w.

(** The inner [while (next < messages.length)]: extends [batch] from
    position [next]; [None] only when the fuel runs out. *)
Fixpoint extendBatch (fuel : nat) (messages batch : list ChatMessage) (next : nat)
  : option (list ChatMessage * nat) :=
  if bool_decide (next < length messages) then
    match fuel with
    | 0 => None
    | S fuel =>
        match messages !! next with
        | None => Some (batch, next)
        | Some nextMessage =>
            if negb (isReadToolUse nextMessage)
               || negb (hasSuccessfulToolResult nextMessage)
            then Some (batch, next)
            else extendBatch fuel messages (batch ++ [nextMessage]) (S next)
        end
    end
  else Some (batch, next).

(** The outer [while (index < messages.length)]. *)
Fixpoint coalesceFrom (fuel : nat) (messages result : list ChatMessage)
    (index : nat) (w : World) : option (list ChatMessage * World) :=
  if bool_decide (index < length messages) then
    match fuel with
    | 0 => None
    | S fuel =>
        match messages !! index with
        | None => coalesceFrom fuel messages result (S index) w
        | Some message =>
            if isReadToolUse message && hasSuccessfulToolResult message then
              match extendBatch (length messages) messages [message] (S index) with
              | None => None
              | Some (batch, next) =>
                  if bool_decide (1 < length batch) then
                    let '(coalesced, w) := createCoalescedReadMessage batch w in
                    coalesceFrom fuel messages (result ++ [coalesced]) next w
                  else coalesceFrom fuel messages (result ++ [message]) (S index) w
              end
            else coalesceFrom fuel messages (result ++ [message]) (S index) w
        end
    end
  else Some (result, w).

Definition coalesceReadMessages (messages : list ChatMessage) (w : World)
  : option (list ChatMessage * World) :=
  coalesceFrom (length messages) messages [] 0 w.

(** *** The coalescer as a single pass over maximal runs

    This is the description of the transform in words, for an arbitrary
    predicate selecting the turns that may be merged: a left-to-right pass
    that keeps the pending run, and on leaving a run replaces it by one
    synthetic turn when it has at least two turns. *)

Definition flushRun (pending : list ChatMessage) (w : World)
  : list ChatMessage * World :=
  match pending with
  | [] => ([], w)
  | [single] => ([single], w)
  | _ :: _ :: _ =>
      let '(coalesced, w) := createCoalescedReadMessage pending w in
      ([coalesced], w)
  end.

Fixpoint coalesceRuns (mergeable : ChatMessage -> bool)
    (pending messages : list ChatMessage) (w : World)
  : list ChatMessage * World :=
  match messages with
  | [] => flushRun pending w
  | message :: rest =>
      if mergeable message then
        coalesceRuns mergeable (pending ++ [message]) rest w
      else
        let '(flushed, w) := flushRun pending w in
        let '(tail, w) := coalesceRuns mergeable [] rest w in
        (flushed ++ message :: tail, w)
  end.

(** The predicate the source applies to a turn. *)
Definition readPredicate (message : ChatMessage) : bool :=
  isReadToolUse message && hasSuccessfulToolResult message.

(** The predicate in the words of the specification: an assistant turn that
    is a single invocation of the read tool carrying a non-error result. *)
Definition singleSuccessfulRead (message : ChatMessage) : bool :=
  bool_decide (msg_type message = "assistant")
  && match msg_content message with
     | [part] =>
         match part_content part, toolResult part with
         | ToolUseBlock _ name _, Some result =>
             bool_decide (name = "Read") && negb (is_error result)
         | _, _ => false
         end
     | _ => false
     end.

(** ** The session ([src/session.ts]) *)

Record UsageSummary : Type := mkUsage {
  totalTokens : Z;
  totalCost : Q;
  contextWindow : Z
}.

(** An entry of [this.todos]: the shallow copy [{ ...todo }] of an element
    of the [todos] array of a TodoWrite input, which is an untyped value.
    The session reads the [content] and the [status] property of a copy and
    nothing else; [None] is [undefined], the property being absent. *)
Record TodoItem : Type := mkTodo {
  todo_content : option JSON;
  todo_status : option JSON
}.

Inductive BroadcastMessage : Type :=
  | session_info (sessionId : option string) (count : nat) (isActive : bool)
  | messages_loaded (sessionId : option string) (history : list ChatMessage)
  | usage_updated (sessionId : option string) (usage : UsageSummary)
  | todos_updated (sessionId : option string) (items : list TodoItem)
  | tools_updated (sessionId : option string) (names : list string)
  | message_added (sessionId : option string) (message : ChatMessage)
  | message_updated (sessionId : option string) (message : ChatMessage)
  | message_removed (sessionId : option string) (messageId : string)
  | tool_result_updated (sessionId : option string) (messageId toolUseId : string)
      (result : ToolResultContentBlock).

(** The [type] field of a notification. *)
Definition broadcast_type (message : BroadcastMessage) : string :=
  match message with
  | session_info _ _ _ => "session_info"
  | messages_loaded _ _ => "messages_loaded"
  | usage_updated _ _ => "usage_updated"
  | todos_updated _ _ => "todos_updated"
  | tools_updated _ _ => "tools_updated"
  | message_added _ _ => "message_added"
  | message_updated _ _ => "message_updated"
  | message_removed _ _ => "message_removed"
  | tool_result_updated _ _ _ _ => "tool_result_updated"
  end.

(** What a call of a subscriber callback does, as far as the session can
    tell: it returns, or it throws a value whose message is given. *)
Inductive CallbackOutcome : Type :=
  | Returns
  | Throws (message : string).

(** A subscriber callback.  Callbacks are observers here: they do not call
    back into the session they are notified by. *)
Definition SessionSubscriberCallback : Type := BroadcastMessage -> CallbackOutcome.

(** The fields of [class Session] (the injected [client] apart).  A promise
    and a cancellation token are objects; the fields holding them hold their
    allocation numbers. *)
Record Session : Type := mkSession {
  _id : string;
  messages : list ChatMessage;
  subscribers : JSMap.t SessionSubscriberCallback;
  queryPromise : option nat;
  loadingPromise : option nat;
  cancellationToken : option nat;
  messageCount : nat;
  claudeSessionId : option string;
  error : option string;
  busy : bool;
  isExplicit : bool;
  lastModifiedTime : Z;
  permissionMode : string;
  summary : option string;
  currentMainLoopModel : option string;
  todos : list TodoItem;
  tools : list string;
  _usageData : UsageSummary;
  isLoading : bool;
  pendingTodosBroadcast : bool;
  pendingToolsBroadcast : bool
}.

(** Field assignments ([this.field = value]); [_id] is read-only. *)
Definition set_messages (value : list ChatMessage) (s : Session) : Session :=
  {| _id := _id s; messages := value; subscribers := subscribers s;
     queryPromise := queryPromise s; loadingPromise := loadingPromise s;
     cancellationToken := cancellationToken s; messageCount := messageCount
     s; claudeSessionId := claudeSessionId s; error := error s; busy := busy
     s; isExplicit := isExplicit s; lastModifiedTime := lastModifiedTime s;
     permissionMode := permissionMode s; summary := summary s;
     currentMainLoopModel := currentMainLoopModel s; todos := todos s; tools
     := tools s; _usageData := _usageData s; isLoading := isLoading s;
     pendingTodosBroadcast := pendingTodosBroadcast s; pendingToolsBroadcast
     := pendingToolsBroadcast s |}.
Definition set_subscribers (value : JSMap.t SessionSubscriberCallback) (s : Session) : Session :=
  {| _id := _id s; messages := messages s; subscribers := value;
     queryPromise := queryPromise s; loadingPromise := loadingPromise s;
     cancellationToken := cancellationToken s; messageCount := messageCount
     s; claudeSessionId := claudeSessionId s; error := error s; busy := busy
     s; isExplicit := isExplicit s; lastModifiedTime := lastModifiedTime s;
     permissionMode := permissionMode s; summary := summary s;
     currentMainLoopModel := currentMainLoopModel s; todos := todos s; tools
     := tools s; _usageData := _usageData s; isLoading := isLoading s;
     pendingTodosBroadcast := pendingTodosBroadcast s; pendingToolsBroadcast
     := pendingToolsBroadcast s |}.
Definition set_queryPromise (value : option nat) (s : Session) : Session :=
  {| _id := _id s; messages := messages s; subscribers := subscribers s;
     queryPromise := value; loadingPromise := loadingPromise s;
     cancellationToken := cancellationToken s; messageCount := messageCount
     s; claudeSessionId := claudeSessionId s; error := error s; busy := busy
     s; isExplicit := isExplicit s; lastModifiedTime := lastModifiedTime s;
     permissionMode := permissionMode s; summary := summary s;
     currentMainLoopModel := currentMainLoopModel s; todos := todos s; tools
     := tools s; _usageData := _usageData s; isLoading := isLoading s;
     pendingTodosBroadcast := pendingTodosBroadcast s; pendingToolsBroadcast
     := pendingToolsBroadcast s |}.
Definition set_loadingPromise (value : option nat) (s : Session) : Session :=
  {| _id := _id s; messages := messages s; subscribers := subscribers s;
     queryPromise := queryPromise s; loadingPromise := value;
     cancellationToken := cancellationToken s; messageCount := messageCount
     s; claudeSessionId := claudeSessionId s; error := error s; busy := busy
     s; isExplicit := isExplicit s; lastModifiedTime := lastModifiedTime s;
     permissionMode := permissionMode s; summary := summary s;
     currentMainLoopModel := currentMainLoopModel s; todos := todos s; tools
     := tools s; _usageData := _usageData s; isLoading := isLoading s;
     pendingTodosBroadcast := pendingTodosBroadcast s; pendingToolsBroadcast
     := pendingToolsBroadcast s |}.
Definition set_cancellationToken (value : option nat) (s : Session) : Session :=
  {| _id := _id s; messages := messages s; subscribers := subscribers s;
     queryPromise := queryPromise s; loadingPromise := loadingPromise s;
     cancellationToken := value; messageCount := messageCount s;
     claudeSessionId := claudeSessionId s; error := error s; busy := busy s;
     isExplicit := isExplicit s; lastModifiedTime := lastModifiedTime s;
     permissionMode := permissionMode s; summary := summary s;
     currentMainLoopModel := currentMainLoopModel s; todos := todos s; tools
     := tools s; _usageData := _usageData s; isLoading := isLoading s;
     pendingTodosBroadcast := pendingTodosBroadcast s; pendingToolsBroadcast
     := pendingToolsBroadcast s |}.
Definition set_messageCount (value : nat) (s : Session) : Session :=
  {| _id := _id s; messages := messages s; subscribers := subscribers s;
     queryPromise := queryPromise s; loadingPromise := loadingPromise s;
     cancellationToken := cancellationToken s; messageCount := value;
     claudeSessionId := claudeSessionId s; error := error s; busy := busy s;
     isExplicit := isExplicit s; lastModifiedTime := lastModifiedTime s;
     permissionMode := permissionMode s; summary := summary s;
     currentMainLoopModel := currentMainLoopModel s; todos := todos s; tools
     := tools s; _usageData := _usageData s; isLoading := isLoading s;
     pendingTodosBroadcast := pendingTodosBroadcast s; pendingToolsBroadcast
     := pendingToolsBroadcast s |}.
Definition set_claudeSessionId (value : option string) (s : Session) : Session :=
  {| _id := _id s; messages := messages s; subscribers := subscribers s;
     queryPromise := queryPromise s; loadingPromise := loadingPromise s;
     cancellationToken := cancellationToken s; messageCount := messageCount
     s; claudeSessionId := value; error := error s; busy := busy s;
     isExplicit := isExplicit s; lastModifiedTime := lastModifiedTime s;
     permissionMode := permissionMode s; summary := summary s;
     currentMainLoopModel := currentMainLoopModel s; todos := todos s; tools
     := tools s; _usageData := _usageData s; isLoading := isLoading s;
     pendingTodosBroadcast := pendingTodosBroadcast s; pendingToolsBroadcast
     := pendingToolsBroadcast s |}.
Definition set_error (value : option string) (s : Session) : Session :=
  {| _id := _id s; messages := messages s; subscribers := subscribers s;
     queryPromise := queryPromise s; loadingPromise := loadingPromise s;
     cancellationToken := cancellationToken s; messageCount := messageCount
     s; claudeSessionId := claudeSessionId s; error := value; busy := busy
     s; isExplicit := isExplicit s; lastModifiedTime := lastModifiedTime s;
     permissionMode := permissionMode s; summary := summary s;
     currentMainLoopModel := currentMainLoopModel s; todos := todos s; tools
     := tools s; _usageData := _usageData s; isLoading := isLoading s;
     pendingTodosBroadcast := pendingTodosBroadcast s; pendingToolsBroadcast
     := pendingToolsBroadcast s |}.
Definition set_busy (value : bool) (s : Session) : Session :=
  {| _id := _id s; messages := messages s; subscribers := subscribers s;
     queryPromise := queryPromise s; loadingPromise := loadingPromise s;
     cancellationToken := cancellationToken s; messageCount := messageCount
     s; claudeSessionId := claudeSessionId s; error := error s; busy :=
     value; isExplicit := isExplicit s; lastModifiedTime := lastModifiedTime
     s; permissionMode := permissionMode s; summary := summary s;
     currentMainLoopModel := currentMainLoopModel s; todos := todos s; tools
     := tools s; _usageData := _usageData s; isLoading := isLoading s;
     pendingTodosBroadcast := pendingTodosBroadcast s; pendingToolsBroadcast
     := pendingToolsBroadcast s |}.
Definition set_isExplicit (value : bool) (s : Session) : Session :=
  {| _id := _id s; messages := messages s; subscribers := subscribers s;
     queryPromise := queryPromise s; loadingPromise := loadingPromise s;
     cancellationToken := cancellationToken s; messageCount := messageCount
     s; claudeSessionId := claudeSessionId s; error := error s; busy := busy
     s; isExplicit := value; lastModifiedTime := lastModifiedTime s;
     permissionMode := permissionMode s; summary := summary s;
     currentMainLoopModel := currentMainLoopModel s; todos := todos s; tools
     := tools s; _usageData := _usageData s; isLoading := isLoading s;
     pendingTodosBroadcast := pendingTodosBroadcast s; pendingToolsBroadcast
     := pendingToolsBroadcast s |}.
Definition set_lastModifiedTime (value : Z) (s : Session) : Session :=
  {| _id := _id s; messages := messages s; subscribers := subscribers s;
     queryPromise := queryPromise s; loadingPromise := loadingPromise s;
     cancellationToken := cancellationToken s; messageCount := messageCount
     s; claudeSessionId := claudeSessionId s; error := error s; busy := busy
     s; isExplicit := isExplicit s; lastModifiedTime := value;
     permissionMode := permissionMode s; summary := summary s;
     currentMainLoopModel := currentMainLoopModel s; todos := todos s; tools
     := tools s; _usageData := _usageData s; isLoading := isLoading s;
     pendingTodosBroadcast := pendingTodosBroadcast s; pendingToolsBroadcast
     := pendingToolsBroadcast s |}.
Definition set_permissionMode (value : string) (s : Session) : Session :=
  {| _id := _id s; messages := messages s; subscribers := subscribers s;
     queryPromise := queryPromise s; loadingPromise := loadingPromise s;
     cancellationToken := cancellationToken s; messageCount := messageCount
     s; claudeSessionId := claudeSessionId s; error := error s; busy := busy
     s; isExplicit := isExplicit s; lastModifiedTime := lastModifiedTime s;
     permissionMode := value; summary := summary s; currentMainLoopModel :=
     currentMainLoopModel s; todos := todos s; tools := tools s; _usageData
     := _usageData s; isLoading := isLoading s; pendingTodosBroadcast :=
     pendingTodosBroadcast s; pendingToolsBroadcast := pendingToolsBroadcast
     s |}.
Definition set_summary (value : option string) (s : Session) : Session :=
  {| _id := _id s; messages := messages s; subscribers := subscribers s;
     queryPromise := queryPromise s; loadingPromise := loadingPromise s;
     cancellationToken := cancellationToken s; messageCount := messageCount
     s; claudeSessionId := claudeSessionId s; error := error s; busy := busy
     s; isExplicit := isExplicit s; lastModifiedTime := lastModifiedTime s;
     permissionMode := permissionMode s; summary := value;
     currentMainLoopModel := currentMainLoopModel s; todos := todos s; tools
     := tools s; _usageData := _usageData s; isLoading := isLoading s;
     pendingTodosBroadcast := pendingTodosBroadcast s; pendingToolsBroadcast
     := pendingToolsBroadcast s |}.
Definition set_currentMainLoopModel (value : option string) (s : Session) : Session :=
  {| _id := _id s; messages := messages s; subscribers := subscribers s;
     queryPromise := queryPromise s; loadingPromise := loadingPromise s;
     cancellationToken := cancellationToken s; messageCount := messageCount
     s; claudeSessionId := claudeSessionId s; error := error s; busy := busy
     s; isExplicit := isExplicit s; lastModifiedTime := lastModifiedTime s;
     permissionMode := permissionMode s; summary := summary s;
     currentMainLoopModel := value; todos := todos s; tools := tools s;
     _usageData := _usageData s; isLoading := isLoading s;
     pendingTodosBroadcast := pendingTodosBroadcast s; pendingToolsBroadcast
     := pendingToolsBroadcast s |}.
Definition set_todos (value : list TodoItem) (s : Session) : Session :=
  {| _id := _id s; messages := messages s; subscribers := subscribers s;
     queryPromise := queryPromise s; loadingPromise := loadingPromise s;
     cancellationToken := cancellationToken s; messageCount := messageCount
     s; claudeSessionId := claudeSessionId s; error := error s; busy := busy
     s; isExplicit := isExplicit s; lastModifiedTime := lastModifiedTime s;
     permissionMode := permissionMode s; summary := summary s;
     currentMainLoopModel := currentMainLoopModel s; todos := value; tools
     := tools s; _usageData := _usageData s; isLoading := isLoading s;
     pendingTodosBroadcast := pendingTodosBroadcast s; pendingToolsBroadcast
     := pendingToolsBroadcast s |}.
Definition set_tools (value : list string) (s : Session) : Session :=
  {| _id := _id s; messages := messages s; subscribers := subscribers s;
     queryPromise := queryPromise s; loadingPromise := loadingPromise s;
     cancellationToken := cancellationToken s; messageCount := messageCount
     s; claudeSessionId := claudeSessionId s; error := error s; busy := busy
     s; isExplicit := isExplicit s; lastModifiedTime := lastModifiedTime s;
     permissionMode := permissionMode s; summary := summary s;
     currentMainLoopModel := currentMainLoopModel s; todos := todos s; tools
     := value; _usageData := _usageData s; isLoading := isLoading s;
     pendingTodosBroadcast := pendingTodosBroadcast s; pendingToolsBroadcast
     := pendingToolsBroadcast s |}.
Definition set_usageData (value : UsageSummary) (s : Session) : Session :=
  {| _id := _id s; messages := messages s; subscribers := subscribers s;
     queryPromise := queryPromise s; loadingPromise := loadingPromise s;
     cancellationToken := cancellationToken s; messageCount := messageCount
     s; claudeSessionId := claudeSessionId s; error := error s; busy := busy
     s; isExplicit := isExplicit s; lastModifiedTime := lastModifiedTime s;
     permissionMode := permissionMode s; summary := summary s;
     currentMainLoopModel := currentMainLoopModel s; todos := todos s; tools
     := tools s; _usageData := value; isLoading := isLoading s;
     pendingTodosBroadcast := pendingTodosBroadcast s; pendingToolsBroadcast
     := pendingToolsBroadcast s |}.
Definition set_isLoading (value : bool) (s : Session) : Session :=
  {| _id := _id s; messages := messages s; subscribers := subscribers s;
     queryPromise := queryPromise s; loadingPromise := loadingPromise s;
     cancellationToken := cancellationToken s; messageCount := messageCount
     s; claudeSessionId := claudeSessionId s; error := error s; busy := busy
     s; isExplicit := isExplicit s; lastModifiedTime := lastModifiedTime s;
     permissionMode := permissionMode s; summary := summary s;
     currentMainLoopModel := currentMainLoopModel s; todos := todos s; tools
     := tools s; _usageData := _usageData s; isLoading := value;
     pendingTodosBroadcast := pendingTodosBroadcast s; pendingToolsBroadcast
     := pendingToolsBroadcast s |}.
Definition set_pendingTodosBroadcast (value : bool) (s : Session) : Session :=
  {| _id := _id s; messages := messages s; subscribers := subscribers s;
     queryPromise := queryPromise s; loadingPromise := loadingPromise s;
     cancellationToken := cancellationToken s; messageCount := messageCount
     s; claudeSessionId := claudeSessionId s; error := error s; busy := busy
     s; isExplicit := isExplicit s; lastModifiedTime := lastModifiedTime s;
     permissionMode := permissionMode s; summary := summary s;
     currentMainLoopModel := currentMainLoopModel s; todos := todos s; tools
     := tools s; _usageData := _usageData s; isLoading := isLoading s;
     pendingTodosBroadcast := value; pendingToolsBroadcast :=
     pendingToolsBroadcast s |}.
Definition set_pendingToolsBroadcast (value : bool) (s : Session) : Session :=
  {| _id := _id s; messages := messages s; subscribers := subscribers s;
     queryPromise := queryPromise s; loadingPromise := loadingPromise s;
     cancellationToken := cancellationToken s; messageCount := messageCount
     s; claudeSessionId := claudeSessionId s; error := error s; busy := busy
     s; isExplicit := isExplicit s; lastModifiedTime := lastModifiedTime s;
     permissionMode := permissionMode s; summary := summary s;
     currentMainLoopModel := currentMainLoopModel s; todos := todos s; tools
     := tools s; _usageData := _usageData s; isLoading := isLoading s;
     pendingTodosBroadcast := pendingTodosBroadcast s; pendingToolsBroadcast
     := value |}.

(** [get usageData()]. *)
Definition usageData (s : Session) : UsageSummary := _usageData s.

(** *** The history differ ([buildMessageMap], [diffMessages]) *)

Record MessageDiff : Type := mkDiff {
  added : list ChatMessage;
  updated : list ChatMessage;
  removed : list string
}.

Definition buildMessageMap (history : list ChatMessage) : JSMap.t ChatMessage :=
  foldl
    (fun map message =>
       if negb (JSMap.has map (msg_id message))
       then JSMap.set map (msg_id message) message
       else map)
    JSMap.empty history.

(** [previousMessage !== message]: the two are different objects. *)
Definition differentObject (a b : ChatMessage) : bool :=
  negb (msg_ref a =? msg_ref b).

Definition diffMessages (previous next explicitlyUpdated : list ChatMessage)
  : MessageDiff :=
  let previousMap := buildMessageMap previous in
  let nextMap := buildMessageMap next in
  let explicitIds := map msg_id explicitlyUpdated in
  let added :=
    foldl
      (fun (added : list ChatMessage) (entry : string * ChatMessage) =>
         if negb (JSMap.has previousMap entry.1) then added ++ [entry.2] else added)
      [] nextMap in
  let removed :=
    foldl
      (fun (removed : list string) (entry : string * ChatMessage) =>
         if negb (JSMap.has nextMap entry.1) then removed ++ [entry.1] else removed)
      [] previousMap in
  let updatedMap :=
    foldl
      (fun (updatedMap : JSMap.t ChatMessage) (entry : string * ChatMessage) =>
         if bool_decide (entry.1 ∈ explicitIds) then
           JSMap.set updatedMap entry.1 entry.2
         else
           match JSMap.get previousMap entry.1 with
           | Some previousMessage =>
               if differentObject previousMessage entry.2
               then JSMap.set updatedMap entry.1 entry.2
               else updatedMap
           | None => updatedMap
           end)
      JSMap.empty nextMap in
  {| added := added; updated := JSMap.values updatedMap; removed := removed |}.

(** *** Equality of aggregates *)

(** [a === b] for a property of an entry of the stored list and the same
    property of an entry of a list copied from an incoming fragment:
    primitives are compared by value; an object or an array of the stored
    list is not the object or array of another fragment. *)
Definition strictEquals (a b : option JSON) : bool :=
  match a, b with
  | None, None => true
  | Some JNull, Some JNull => true
  | Some (JBool x), Some (JBool y) => bool_decide (x = y)
  | Some (JNumber x), Some (JNumber y) => bool_decide (x = y)
  | Some (JString x), Some (JString y) => bool_decide (x = y)
  | _, _ => false
  end.

Definition areTodosEqual (left right : list TodoItem) : bool :=
  if negb (bool_decide (length left = length right)) then false
  else
    forallb
      (fun index =>
         match left !! index, right !! index with
         | Some a, Some b =>
             strictEquals (todo_content a) (todo_content b)
             && strictEquals (todo_status a) (todo_status b)
         | _, _ => false
         end)
      (seq 0 (length left)).

Definition areStringArraysEqual (left right : list string) : bool :=
  if negb (bool_decide (length left = length right)) then false
  else
    forallb
      (fun index => bool_decide (left !! index = right !! index))
      (seq 0 (length left)).

(** *** The machine a session runs on *)

Inductive PromiseState : Type :=
  | Pending
  | Fulfilled
  | Rejected (reason : string).

(** The session together with the part of the heap it refers to: the
    [cancelled] flag of every token object and the state of every promise,
    both indexed by allocation number. *)
Record Machine : Type := mkMachine {
  session : Session;
  world : World;
  tokens : list bool;
  promises : list PromiseState
}.

(** Session operations: they update the machine and emit notifications. *)
Definition Op (A : Type) : Type := Machine -> A * Machine * list BroadcastMessage.

#[global] Instance Op_ret : MRet Op := fun A x m => (x, m, []).

#[global] Instance Op_bind : MBind Op :=
  fun A B f c m =>
    let '(x, m1, t1) := c m in
    let '(y, m2, t2) := f x m1 in
    (y, m2, t1 ++ t2).

(** [this]. *)
Definition this : Op Session := fun m => (session m, m, []).

Definition assign (f : Session -> Session) : Op unit :=
  fun m =>
    (tt,
     {| session := f (session m); world := world m; tokens := tokens m;
        promises := promises m |},
     []).

Definition withWorld {A : Type} (f : World -> A * World) : Op A :=
  fun m =>
    let '(x, w) := f (world m) in
    (x,
     {| session := session m; world := w; tokens := tokens m;
        promises := promises m |},
     []).

(** [this.noticeSubscribers(message)]. *)
Definition noticeSubscribers (message : BroadcastMessage) : Op unit :=
  fun m => (tt, m, [message]).

(** [for (const x of xs) body(x)]. *)
Fixpoint forEach {A : Type} (xs : list A) (body : A -> Op unit) : Op unit :=
  match xs with
  | [] => mret tt
  | x :: rest => body x;; forEach rest body
  end.

Definition isSome {A : Type} (o : option A) : bool :=
  match o with Some _ => true | None => false end.

(** *** Calls that may throw *)

(** How a call completes: normally, with a result, or by throwing. *)
Inductive Completion (A : Type) : Type :=
  | Normal (result : A)
  | Thrown (reason : string).
Arguments Normal {A} result.
Arguments Thrown {A} reason.

(** [c; k] where [c] may throw: [k] runs when [c] completes normally. *)
Definition andThen {A B : Type} (c : Op (Completion A)) (k : A -> Op (Completion B))
  : Op (Completion B) :=
  r ← c;
  match r with
  | Normal x => k x
  | Thrown reason => mret (Thrown reason)
  end.

(** Statements that do not throw, among calls that may. *)
Definition returns {A : Type} (c : Op A) : Op (Completion A) :=
  x ← c; mret (Normal x).

(** [for (const x of xs) body(x)] with a body that may throw: the loop is
    left at the first iteration that throws. *)
Fixpoint forEachTry {A : Type} (xs : list A) (body : A -> Op (Completion unit))
  : Op (Completion unit) :=
  match xs with
  | [] => mret (Normal tt)
  | x :: rest => andThen (body x) (fun _ => forEachTry rest body)
  end.

(** *** Notifications *)

Definition emitSessionInfo : Op unit :=
  s ← this;
  noticeSubscribers
    (session_info (claudeSessionId s) (messageCount s) (isSome (queryPromise s))).

Definition emitMessagesLoaded : Op unit :=
  s ← this;
  noticeSubscribers (messages_loaded (claudeSessionId s) (messages s)).

Definition emitTodosUpdate : Op unit :=
  s ← this;
  noticeSubscribers (todos_updated (claudeSessionId s) (todos s)).

Definition emitToolsUpdate : Op unit :=
  s ← this;
  noticeSubscribers (tools_updated (claudeSessionId s) (tools s)).

(** [set usageData(value)]. *)
Definition usageData_set (value : UsageSummary) : Op unit :=
  assign (set_usageData value);;
  s ← this;
  noticeSubscribers (usage_updated (claudeSessionId s) (usageData s)).

(** *** The aggregates tracker *)

(** [{ ...todo }]: the copy of an element of the array.  The copy of an
    object has the properties of the object; the copy of a string or of an
    array has its indices for properties, the copy of a number, of a boolean
    or of [null] has none, so that [content] and [status] are absent. *)
Definition copyTodo (todo : JSON) : TodoItem :=
  match todo with
  | JObject fields =>
      {| todo_content := JSMap.get fields "content";
         todo_status := JSMap.get fields "status" |}
  | _ => {| todo_content := None; todo_status := None |}
  end.

(** [updateTodosState] from its second statement on, [normalized] being
    the array [todos.map((todo) => ({ ...todo }))] of the first. *)
Definition updateTodosState_normalized (normalized : list TodoItem) : Op unit :=
  s ← this;
  let changed := negb (areTodosEqual (todos s) normalized) in
  assign (set_todos normalized);;
  if negb changed then mret tt
  else if isLoading s then assign (set_pendingTodosBroadcast true)
  else emitTodosUpdate.

(** [updateTodosState(todos)] for the value it is called with, which
    [handleAssistantMessage] takes from an untyped input: [todos.map] is a
    function for an array only, and the call throws a [TypeError] for any
    other value. *)
Definition updateTodosState (todos : JSON) : Op (Completion unit) :=
  match todos with
  | JArray items => returns (updateTodosState_normalized (map copyTodo items))
  | JNull => mret (Thrown "Cannot read properties of null (reading 'map')")
  | _ => mret (Thrown "todos.map is not a function")
  end.

Definition updateToolsState (names : list string) : Op unit :=
  s ← this;
  let normalized := names in
  let changed := negb (areStringArraysEqual (tools s) normalized) in
  assign (set_tools normalized);;
  if negb changed then mret tt
  else if isLoading s then assign (set_pendingToolsBroadcast true)
  else emitToolsUpdate.

Definition flushPendingStateUpdates : Op unit :=
  s ← this;
  (if pendingTodosBroadcast s then
     assign (set_pendingTodosBroadcast false);; emitTodosUpdate
   else mret tt);;
  s ← this;
  (if pendingToolsBroadcast s then
     assign (set_pendingToolsBroadcast false);; emitToolsUpdate
   else mret tt).

(** [updateUsage(usage)].  The sum is the sum of the source, computed left
    to right, as long as every partial sum lies between [-2^53] and
    [2^53] ([exactTotal] below); beyond that the source rounds. *)
Definition updateUsage (usage : TokenUsage) : Op unit :=
  let totalTokens :=
    (input_tokens usage
     + default 0 (cache_creation_input_tokens usage)
     + default 0 (cache_read_input_tokens usage)
     + output_tokens usage)%Z in
  s ← this;
  let previous := usageData s in
  usageData_set
    {| totalTokens := totalTokens;
       totalCost := totalCost previous;
       contextWindow := contextWindow previous |}.

(** [handleResultMessage(message)]; [total_cost_usd] is the field of the
    message, which the caller has checked to be defined. *)
Definition handleResultMessage (message : SDKMessage) (total_cost_usd : Q)
  : Op unit :=
  s ← this;
  let usage := usageData s in
  let modelName := currentMainLoopModel s in
  let contextWindow :=
    match sdk_modelUsage message with
    | Some modelUsage =>
        match JSMap.get modelUsage (default "" modelName) with
        | Some (Some window) => window
        | _ => contextWindow usage
        end
    | None => contextWindow usage
    end in
  usageData_set
    {| totalTokens := totalTokens usage;
       totalCost := total_cost_usd;
       contextWindow := contextWindow |}.

(** Truthiness of an untyped value. *)
Definition truthyJSON (value : JSON) : bool :=
  match value with
  | JNull => false
  | JBool b => b
  | JNumber n => negb (n =? 0)%Z
  | JString text => negb (bool_decide (text = ""))
  | JArray _ | JObject _ => true
  end.

(** The value [input.todos] when it passes the guards
    [block.input && typeof block.input === "object" && "todos" in block.input]
    and [if (input.todos)].  An array is an object without a property
    [todos]; the value may be of any type. *)
Definition todosOfInput (input : JSON) : option JSON :=
  match input with
  | JObject fields =>
      match JSMap.get fields "todos" with
      | Some todos => if truthyJSON todos then Some todos else None
      | None => None
      end
  | _ => None
  end.

(** The value a content block hands to [updateTodosState], if any. *)
Definition todoWriteArgument (block : MessageContentBlock) : option JSON :=
  match block with
  | ToolUseBlock _ name input =>
      if bool_decide (name = "TodoWrite") then todosOfInput input else None
  | _ => None
  end.

(** The body of the loop of [handleAssistantMessage]. *)
Definition todoBlockOp (block : MessageContentBlock) : Op (Completion unit) :=
  match todoWriteArgument block with
  | Some todos => updateTodosState todos
  | None => mret (Normal tt)
  end.

(** [handleAssistantMessage(message)]: an iteration of the loop that throws
    ends the call, before the usage report is looked at. *)
Definition handleAssistantMessage (message : SDKMessage) : Op (Completion unit) :=
  andThen
    (match sdk_content message with
     | BlockContent blocks => forEachTry blocks todoBlockOp
     | StringContent _ => mret (Normal tt)
     end)
    (fun _ =>
       returns
         match sdk_usage message with
         | Some usage => updateUsage usage
         | None => mret tt
         end).

(** A non-empty string is truthy. *)
Definition truthy (value : option string) : bool :=
  match value with
  | Some text => negb (bool_decide (text = ""))
  | None => false
  end.

Definition processMessage (message : SDKMessage) : Op (Completion unit) :=
  if bool_decide (sdk_type message = "assistant") then
    handleAssistantMessage message
  else
    returns
      (if bool_decide (sdk_type message = "system")
          && bool_decide (sdk_subtype message = Some "init") then
         (if truthy (sdk_model message)
          then assign (set_currentMainLoopModel (sdk_model message))
          else mret tt);;
         (match sdk_tools message with
          | Some names => updateToolsState names
          | None => mret tt
          end);;
         (if truthy (sdk_permissionMode message)
          then assign (set_permissionMode (default "" (sdk_permissionMode message)))
          else mret tt)
       else if bool_decide (sdk_type message = "result") then
         match sdk_total_cost_usd message with
         | Some cost => handleResultMessage message cost
         | None => mret tt
         end
       else mret tt).

(** *** Applying a fragment to the history *)

(** [coalesceReadMessages] as the session calls it.  The loops of
    [coalesceFrom] always return ([coalesceReadMessages_returns] below), so
    the second branch is never taken. *)
Definition coalesced (history : list ChatMessage) (w : World)
  : list ChatMessage * World :=
  match coalesceReadMessages history w with
  | Some output => output
  | None => (history, w)
  end.

Definition applyMessageUpdates (previousMessages nextMessages : list ChatMessage)
    (appendResult : AppendRenderableMessageResult) : Op unit :=
  assign (set_messages nextMessages);;
  assign (set_messageCount (length nextMessages));;
  let diff := diffMessages previousMessages nextMessages (updatedMessages appendResult) in
  let nextMap := buildMessageMap nextMessages in
  forEach (removed diff)
    (fun messageId =>
       s ← this; noticeSubscribers (message_removed (claudeSessionId s) messageId));;
  forEach (added diff)
    (fun message =>
       s ← this; noticeSubscribers (message_added (claudeSessionId s) message));;
  forEach (updated diff)
    (fun message =>
       s ← this; noticeSubscribers (message_updated (claudeSessionId s) message));;
  forEach (toolResultUpdates appendResult)
    (fun toolUpdate =>
       match JSMap.get nextMap (msg_id (update_message toolUpdate)) with
       | None => mret tt
       | Some message =>
           s ← this;
           noticeSubscribers
             (tool_result_updated (claudeSessionId s) (msg_id message)
                (update_toolUseId toolUpdate) (update_toolResult toolUpdate))
       end);;
  emitSessionInfo.

(** [extractTimestamp(rawTimestamp)] on the raw [timestamp] of a fragment. *)
Definition extractTimestamp (message : SDKMessage) : option Z :=
  sdk_timestamp message.

(** [processIncomingMessage(message)].  [previousMessages] and
    [workingMessages] share their turn objects; the differ reads only the
    identity and the id of the turns of [previousMessages], which the linker
    does not change.  When [processMessage] throws, nothing after it runs. *)
Definition processIncomingMessage (message : SDKMessage) : Op (Completion unit) :=
  andThen (processMessage message)
    (fun _ =>
       returns
         (s ← this;
          let previousMessages := messages s in
          appended ← withWorld (appendRenderableMessage previousMessages message);
          let workingMessages := appended.1 in
          let appendResult := appended.2 in
          coalescedMessages ← withWorld (coalesced workingMessages);
          applyMessageUpdates previousMessages coalescedMessages appendResult;;
          now ← withWorld (fun w => (Date_now w, w));
          assign (set_lastModifiedTime (default now (extractTimestamp message)));;
          s ← this;
          assign
            (set_claudeSessionId
               (if bool_decide (sdk_session_id message = "") then claudeSessionId s
                else Some (sdk_session_id message)));;
          if bool_decide (sdk_type message = "system") then
            if bool_decide (sdk_subtype message = Some "init")
            then assign (set_busy true)
            else mret tt
          else if bool_decide (sdk_type message = "result")
          then assign (set_busy false)
          else mret tt)).

(** *** Bulk load ([setMessages], [loadFromServer]) *)

(** [String.prototype.trim] removes white space and line terminators from
    both ends: U+0009 to U+000D, U+0020, U+00A0, U+1680, U+2000 to U+200A,
    U+2028, U+2029, U+202F, U+205F, U+3000 and U+FEFF, here by their bytes. *)
Definition whiteSpace : list (list nat) :=
  [ [9]; [10]; [11]; [12]; [13]; [32]; [194; 160]; [225; 154; 128];
    [226; 128; 128]; [226; 128; 129]; [226; 128; 130]; [226; 128; 131];
    [226; 128; 132]; [226; 128; 133]; [226; 128; 134]; [226; 128; 135];
    [226; 128; 136]; [226; 128; 137]; [226; 128; 138]; [226; 128; 168];
    [226; 128; 169]; [226; 128; 175]; [226; 129; 159]; [227; 128; 128];
    [239; 187; 191] ].

(** What is left of [bytes] after the prefix [prefix], if it starts with it. *)
Fixpoint stripPrefix (prefix bytes : list nat) : option (list nat) :=
  match prefix, bytes with
  | [], _ => Some bytes
  | _ :: _, [] => None
  | p :: prefix, b :: bytes => if p =? b then stripPrefix prefix bytes else None
  end.

(** What is left of [bytes] after one of [characters] at its start. *)
Fixpoint stripOneOf (characters : list (list nat)) (bytes : list nat)
  : option (list nat) :=
  match characters with
  | [] => None
  | character :: others =>
      match stripPrefix character bytes with
      | Some rest => Some rest
      | None => stripOneOf others bytes
      end
  end.

Fixpoint stripAll (fuel : nat) (characters : list (list nat)) (bytes : list nat)
  : list nat :=
  match fuel with
  | 0 => bytes
  | S fuel =>
      match stripOneOf characters bytes with
      | Some rest => stripAll fuel characters rest
      | None => bytes
      end
  end.

Definition bytesOf (text : string) : list nat :=
  map Ascii.nat_of_ascii (String.list_ascii_of_string text).

Definition stringOf (bytes : list nat) : string :=
  String.string_of_list_ascii (map Ascii.ascii_of_nat bytes).

Definition trimStart (bytes : list nat) : list nat :=
  stripAll (length bytes) whiteSpace bytes.

(** The end of a string is trimmed on the reversed bytes; a character of
    [whiteSpace] at the end of a well-formed string is that character. *)
Definition trimEnd (bytes : list nat) : list nat :=
  reverse (stripAll (length bytes) (map reverse whiteSpace) (reverse bytes)).

Definition trim (text : string) : string :=
  stringOf (trimEnd (trimStart (bytesOf text))).

Fixpoint firstNonBlankText (parts : list ChatMessagePart) : option string :=
  match parts with
  | [] => None
  | part :: rest =>
      match part_content part with
      | TextBlock text =>
          if 0 <? String.length (trim text) then Some (trim text)
          else firstNonBlankText rest
      | _ => firstNonBlankText rest
      end
  end.

Fixpoint extractSummaryFromMessages (history : list ChatMessage) : option string :=
  match history with
  | [] => None
  | message :: rest =>
      if negb (bool_decide (msg_type message = "user")) then
        extractSummaryFromMessages rest
      else
        match firstNonBlankText (msg_content message) with
        | Some text => Some text
        | None => extractSummaryFromMessages rest
        end
  end.

(** [extractLastMessageTimestamp(messages)]; [remaining] is [index + 1]. *)
Fixpoint extractLastTimestampFrom (fragments : list SDKMessage) (remaining : nat)
  : option Z :=
  match remaining with
  | 0 => None
  | S index =>
      match fragments !! index with
      | None => extractLastTimestampFrom fragments index
      | Some candidate =>
          match extractTimestamp candidate with
          | Some extracted => Some extracted
          | None => extractLastTimestampFrom fragments index
          end
      end
  end.

Definition extractLastMessageTimestamp (fragments : list SDKMessage) : option Z :=
  extractLastTimestampFrom fragments (length fragments).

(** The loop of [setMessages]: every historical fragment updates the
    aggregates and is appended to [rendered]; the loop is left when
    [processMessage] throws. *)
Fixpoint replayFragments (fragments : list SDKMessage) (rendered : list ChatMessage)
  : Op (Completion (list ChatMessage)) :=
  match fragments with
  | [] => mret (Normal rendered)
  | message :: rest =>
      andThen (processMessage message)
        (fun _ =>
           appended ← withWorld (appendRenderableMessage rendered message);
           replayFragments rest appended.1)
  end.

Definition setMessages (fragments : list SDKMessage) : Op (Completion unit) :=
  andThen (replayFragments fragments [])
    (fun rendered =>
       returns
         (history ← withWorld (coalesced rendered);
          assign (set_messages history);;
          assign (set_messageCount (length history));;
          emitMessagesLoaded;;
          emitSessionInfo;;
          s ← this;
          (if negb (truthy (summary s)) then
             match extractSummaryFromMessages rendered with
             | Some summaryText =>
                 if truthy (Some summaryText)
                 then assign (set_summary (Some summaryText))
                 else mret tt
             | None => mret tt
             end
           else mret tt);;
          match extractLastMessageTimestamp fragments with
          | Some lastTimestamp => assign (set_lastModifiedTime lastTimestamp)
          | None =>
              now ← withWorld (fun w => (Date_now w, w));
              assign (set_lastModifiedTime now)
          end)).

(** Allocation of a promise, pending. *)
Definition newPromise : Op nat :=
  fun m =>
    (length (promises m),
     {| session := session m; world := world m; tokens := tokens m;
        promises := promises m ++ [Pending] |},
     []).

Definition settle (promise : nat) (state : PromiseState) : Op unit :=
  fun m =>
    (tt,
     {| session := session m; world := world m; tokens := tokens m;
        promises := <[promise := state]> (promises m) |},
     []).

Definition emptyUsage : UsageSummary :=
  {| totalTokens := 0; totalCost := 0; contextWindow := 0 |}.

(** [loadFromServer(sessionId)] up to the suspension at
    [await this.client.getSession(targetSessionId)]: the value returned is
    the promise handed to the caller, if any. *)
Definition loadFromServer (sessionId : option string) : Op (option nat) :=
  s ← this;
  let targetSessionId :=
    match sessionId with
    | Some given => Some given
    | None => claudeSessionId s
    end in
  if negb (truthy targetSessionId) then mret None
  else
    match loadingPromise s with
    | Some running => mret (Some running)
    | None =>
        assign (set_claudeSessionId targetSessionId);;
        assign (set_isLoading true);;
        assign (set_error None);;
        promise ← newPromise;
        assign (set_loadingPromise (Some promise));;
        mret (Some promise)
    end.

(** What [this.client.getSession] settles with. *)
Inductive SessionResponse : Type :=
  | SessionMessages (fragments : list SDKMessage)
  | SessionFailure (reason : string).

(** The [try] block of the load after the suspension: [await] throws when
    [getSession] fails, and the replay of the history may throw. *)
Definition loadTry (response : SessionResponse) : Op (Completion unit) :=
  match response with
  | SessionMessages fragments =>
      if bool_decide (length fragments = 0) then
        andThen
          (returns
             (assign (set_messages []);;
              assign (set_messageCount 0);;
              assign (set_summary None);;
              now ← withWorld (fun w => (Date_now w, w));
              assign (set_lastModifiedTime now)))
          (fun _ =>
             andThen (updateTodosState (JArray []))
               (fun _ =>
                  returns
                    (updateToolsState [];;
                     usageData_set emptyUsage;;
                     assign (set_busy false);;
                     assign (set_isExplicit false);;
                     emitMessagesLoaded;;
                     emitSessionInfo)))
      else
        andThen (returns (assign (set_summary None)))
          (fun _ =>
             andThen (updateTodosState (JArray []))
               (fun _ =>
                  andThen
                    (returns (updateToolsState [];; usageData_set emptyUsage))
                    (fun _ =>
                       andThen (setMessages fragments)
                         (fun _ =>
                            returns
                              (assign (set_busy false);;
                               assign (set_isExplicit false))))))
  | SessionFailure reason => mret (Thrown reason)
  end.

(** The [try] block followed, when it throws, by the [catch] block. *)
Definition loadResponse (response : SessionResponse) : Op unit :=
  attempt ← loadTry response;
  match attempt with
  | Normal _ => mret tt
  | Thrown reason => assign (set_error (Some reason))
  end.

(** The [finally] block of the load. *)
Definition loadFinally (promise : nat) : Op unit :=
  assign (set_isLoading false);;
  flushPendingStateUpdates;;
  assign (set_loadingPromise None);;
  settle promise Fulfilled.

(** The continuation of the load once [getSession] has settled. *)
Definition loadFromServer_resume (promise : nat) (response : SessionResponse)
  : Op unit :=
  loadResponse response;;
  loadFinally promise.

Definition resumeFrom (sessionId : string) : Op (option nat) :=
  if bool_decide (sessionId = "") then mret None
  else loadFromServer (Some sessionId).

(** *** Cancellation and subscription *)

(** [token.cancelled = true]. *)
Definition cancelToken (token : nat) : Op unit :=
  fun m =>
    (tt,
     {| session := session m; world := world m;
        tokens := <[token := true]> (tokens m); promises := promises m |},
     []).

Definition cancel : Op unit :=
  s ← this;
  (match cancellationToken s with
   | Some token =>
       cancelToken token;;
       assign (set_cancellationToken None)
   | None => mret tt
   end);;
  assign (set_busy false);;
  assign (set_queryPromise None);;
  assign (set_error (Some "Operation cancelled by user"));;
  emitSessionInfo.

(** The argument of [subscribe]: any value, a function or not. *)
Inductive SubscriberArgument : Type :=
  | NotAFunction
  | Function (callback : SessionSubscriberCallback).

(** How [subscribe] completes: it throws an [Error] with the given message,
    or it returns the closure [() => this.subscribers.delete(id)], given by
    the [id] it has captured. *)
Inductive SubscribeCompletion : Type :=
  | SubscribeThrows (message : string)
  | Unsubscribe (id : string).

(** The completion of a call of [subscribe] and the notifications it has
    passed to the callback, one entry per invocation. *)
Record SubscribeOutcome : Type := mkSubscribeOutcome {
  completion : SubscribeCompletion;
  invocations : list BroadcastMessage
}.

Definition subscribe (argument : SubscriberArgument) : Op SubscribeOutcome :=
  match argument with
  | NotAFunction =>
      mret {| completion := SubscribeThrows "Subscription callback must be a function";
              invocations := [] |}
  | Function callback =>
      id ← withWorld nanoid;
      s ← this;
      assign (set_subscribers (JSMap.set (subscribers s) id callback));;
      s ← this;
      let info :=
        session_info (claudeSessionId s) (messageCount s) (isSome (queryPromise s)) in
      match callback info with
      | Returns => mret {| completion := Unsubscribe id; invocations := [info] |}
      | Throws reason =>
          s ← this;
          assign (set_subscribers (JSMap.delete (subscribers s) id));;
          mret {| completion :=
                    SubscribeThrows ("Subscription callback failed: " +:+ reason);
                  invocations := [info] |}
      end
  end.

(** Calling the closure returned by [subscribe]. *)
Definition callUnsubscribe (id : string) : Op unit :=
  s ← this;
  assign (set_subscribers (JSMap.delete (subscribers s) id)).

Definition hasSubscribers (s : Session) : bool :=
  0 <? JSMap.size (subscribers s).

(** ** Sending ([buildUserMessageContent], [Session.send]) *)

Record AttachmentPayload : Type := mkAttachment {
  attachment_id : option string;
  attachment_name : string;
  mediaType : string;
  attachment_data : string
}.

Definition INLINE_IMAGE_MIME_TYPES : list string :=
  ["image/jpeg"; "image/png"; "image/gif"; "image/webp"].

(** The body of the loop over the attachments: the blocks it pushes. *)
Definition attachmentBlocks (w : World) (attachment : AttachmentPayload)
  : list MessageContentBlock :=
  let base64Data := attachment_data attachment in
  if bool_decide (mediaType attachment ∈ INLINE_IMAGE_MIME_TYPES) then
    [ImageBlock (mediaType attachment) base64Data]
  else if bool_decide (mediaType attachment = "text/plain") then
    match atob w base64Data with
    | Some decoded =>
        [DocumentBlock "text" "text/plain" decoded (Some (attachment_name attachment))]
    | None => []
    end
  else if bool_decide (mediaType attachment = "application/pdf") then
    [DocumentBlock "base64" "application/pdf" base64Data
       (Some (attachment_name attachment))]
  else [].

Definition buildUserMessageContent (w : World) (prompt : string)
    (attachments : option (list AttachmentPayload)) : list MessageContentBlock :=
  flat_map (attachmentBlocks w) (default [] attachments) ++ [TextBlock prompt].

(** What the promise returned by [send] is fulfilled with. *)
Record SendResult : Type := mkSendResult {
  success : bool;
  result_error : option string;
  result_messageCount : option nat;
  lastAssistantMessage : option ChatMessage;
  result_usage : UsageSummary
}.

(** Where a call of [send] stands.  [AwaitingPrevious p]: suspended at the
    initial [await this.queryPromise], the promise read there being [p].
    [Streaming own]: its query closure, whose promise is [own], is inside
    [for await], and the body of [send] is suspended at the second
    [await this.queryPromise].  [Returned]: the promise of the call is
    fulfilled.  [Abandoned]: the promise of the call is rejected. *)
Inductive SendPhase : Type :=
  | AwaitingPrevious (previous : nat)
  | Streaming (own : nat)
  | Returned (result : SendResult)
  | Abandoned (reason : string).

Record SendCall : Type := mkSendCall {
  send_prompt : string;
  send_attachments : option (list AttachmentPayload);
  phase : SendPhase
}.

(** [send] from after the initial [await] to the suspension of the query
    closure at its first [await] inside [for await]; returns the promise of
    the closure, which is by then stored in [this.queryPromise]. *)
Definition sendStart (prompt : string) (attachments : option (list AttachmentPayload))
  : Op nat :=
  uuid ← withWorld draw;
  content ← withWorld (fun w => (buildUserMessageContent w prompt attachments, w));
  let userMessage :=
    {| sdk_type := "user"; sdk_uuid := Some uuid; sdk_timestamp := None;
       sdk_session_id := ""; sdk_content := BlockContent content;
       sdk_usage := None; sdk_subtype := None; sdk_model := None;
       sdk_tools := None; sdk_permissionMode := None;
       sdk_total_cost_usd := None; sdk_modelUsage := None |} in
  s ← this;
  let previousMessages := messages s in
  appended ← withWorld (appendRenderableMessage previousMessages userMessage);
  let workingMessages := appended.1 in
  let appendResult := appended.2 in
  coalescedMessages ← withWorld (coalesced workingMessages);
  applyMessageUpdates previousMessages coalescedMessages appendResult;;
  s ← this;
  (if negb (truthy (summary s)) then assign (set_summary (Some prompt))
   else mret tt);;
  assign (set_isExplicit false);;
  now ← withWorld (fun w => (Date_now w, w));
  assign (set_lastModifiedTime now);;
  assign (set_busy true);;
  assign (set_error None);;
  token ← (fun m =>
             (length (tokens m),
              {| session := session m; world := world m;
                 tokens := tokens m ++ [false]; promises := promises m |},
              []));
  assign (set_cancellationToken (Some token));;
  own ← newPromise;
  assign (set_queryPromise (Some own));;
  mret own.

(** [this.cancellationToken?.cancelled]. *)
Definition cancellationRequested (m : Machine) : bool :=
  match cancellationToken (session m) with
  | Some token => default false (tokens m !! token)
  | None => false
  end.

(** The last assistant turn of the history, if any. *)
Definition lastAssistant (history : list ChatMessage) : option ChatMessage :=
  last (filter (fun message => msg_type message = "assistant") history).

(** The [finally] block of the query closure. *)
Definition queryFinally : Op unit :=
  assign (set_queryPromise None);;
  assign (set_cancellationToken None);;
  assign (set_busy false);;
  emitSessionInfo.

(** The query closure leaves [for await] normally (the stream is exhausted,
    or the loop [break]s), then the body of [send] resumes. *)
Definition queryCompletes (own : nat) : Op SendResult :=
  s ← this;
  let queryResult := (lastAssistant (messages s), usageData s) in
  queryFinally;;
  settle own Fulfilled;;
  now ← withWorld (fun w => (Date_now w, w));
  assign (set_lastModifiedTime now);;
  s ← this;
  mret {| success := true; result_error := None;
          result_messageCount := Some (messageCount s);
          lastAssistantMessage := queryResult.1;
          result_usage := queryResult.2 |}.

(** The stream throws: [catch], [finally], then the [catch] of [send]. *)
Definition queryFails (own : nat) (reason : string) : Op SendResult :=
  assign (set_error (Some reason));;
  queryFinally;;
  settle own (Rejected reason);;
  s ← this;
  mret {| success := false; result_error := error s;
          result_messageCount := None;
          lastAssistantMessage := lastAssistant (messages s);
          result_usage := usageData s |}.

(** The state of the event loop: the machine and every call of [send] made
    so far, in call order. *)
Record EventLoop : Type := mkEventLoop {
  machine : Machine;
  calls : list SendCall
}.

(** What can happen next: a caller invokes [send] or [cancel], or the
    stream opened by a call of [send] yields a fragment, ends, or throws.
    A fragment whose processing throws leaves [for await] by that
    exception, as if the stream had thrown it. *)
Inductive Event : Type :=
  | CallSend (prompt : string) (attachments : option (list AttachmentPayload))
  | CallCancel
  | StreamYields (call : nat) (message : SDKMessage)
  | StreamEnds (call : nat)
  | StreamThrows (call : nat) (reason : string).

Definition set_phase (value : SendPhase) (call : SendCall) : SendCall :=
  {| send_prompt := send_prompt call; send_attachments := send_attachments call;
     phase := value |}.

(** The reactions registered on [settled] by the initial [await] of waiting
    calls run in registration order, each to its next suspension.  A call
    awaiting a fulfilled promise goes on with [sendStart]; for a call
    awaiting a rejected promise the [await] throws, outside any [try]. *)
Fixpoint resumeWaiters (settled : nat) (outcome : PromiseState)
    (waiting : list SendCall) : Op (list SendCall) :=
  match waiting with
  | [] => mret []
  | call :: rest =>
      resumed ←
        match phase call with
        | AwaitingPrevious previous =>
            if bool_decide (previous = settled) then
              match outcome with
              | Rejected reason => mret (set_phase (Abandoned reason) call)
              | _ =>
                  own ← sendStart (send_prompt call) (send_attachments call);
                  mret (set_phase (Streaming own) call)
              end
            else mret call
        | _ => mret call
        end;
      others ← resumeWaiters settled outcome rest;
      mret (resumed :: others)
  end.

(** The query closure of call [index] finishes: its promise settles, the
    body of its [send] resumes first, then the waiting calls. *)
Definition finishCall (index own : nat) (failure : option string)
    (all : list SendCall) : Op (list SendCall) :=
  result ←
    match failure with
    | None => queryCompletes own
    | Some reason => queryFails own reason
    end;
  let outcome :=
    match failure with
    | None => Fulfilled
    | Some reason => Rejected reason
    end in
  resumeWaiters own outcome (alter (set_phase (Returned result)) index all).

Definition react (event : Event) (all : list SendCall) : Op (list SendCall) :=
  match event with
  | CallSend prompt attachments =>
      s ← this;
      match queryPromise s with
      | Some previous =>
          mret (all ++ [{| send_prompt := prompt; send_attachments := attachments;
                           phase := AwaitingPrevious previous |}])
      | None =>
          own ← sendStart prompt attachments;
          mret (all ++ [{| send_prompt := prompt; send_attachments := attachments;
                           phase := Streaming own |}])
      end
  | CallCancel => cancel;; mret all
  | StreamYields index message =>
      match phase <$> all !! index with
      | Some (Streaming own) =>
          fun m =>
            if cancellationRequested m then finishCall index own None all m
            else
              (processed ← processIncomingMessage message;
               match processed with
               | Normal _ => mret all
               | Thrown reason => finishCall index own (Some reason) all
               end) m
      | _ => mret all
      end
  | StreamEnds index =>
      match phase <$> all !! index with
      | Some (Streaming own) => finishCall index own None all
      | _ => mret all
      end
  | StreamThrows index reason =>
      match phase <$> all !! index with
      | Some (Streaming own) => finishCall index own (Some reason) all
      | _ => mret all
      end
  end.

Definition step (state : EventLoop) (event : Event)
  : EventLoop * list BroadcastMessage :=
  let '(all, m, emitted) := react event (calls state) (machine state) in
  ({| machine := m; calls := all |}, emitted).

Definition run (state : EventLoop) (events : list Event) : EventLoop :=
  foldl (fun current event => (step current event).1) state events.

(** The calls whose streaming read loop is active. *)
Definition isStreaming (call : SendCall) : bool :=
  match phase call with
  | Streaming _ => true
  | _ => false
  end.

Definition streamingCalls (state : EventLoop) : list nat :=
  filter (fun index => default false (isStreaming <$> calls state !! index))
    (seq 0 (length (calls state))).

(** ** A fresh session

    [new Session(client)] for a valid client: the field initialisers and the
    constructor body. *)
Definition newSession (w : World) : Session * World :=
  let now := Date_now w in
  let '(id, w) := nanoid w in
  ({| _id := id; messages := []; subscribers := JSMap.empty;
      queryPromise := None; loadingPromise := None; cancellationToken := None;
      messageCount := 0; claudeSessionId := None; error := None;
      busy := false; isExplicit := false; lastModifiedTime := now;
      permissionMode := "default"; summary := None;
      currentMainLoopModel := None; todos := []; tools := [];
      _usageData := emptyUsage; isLoading := false;
      pendingTodosBroadcast := false; pendingToolsBroadcast := false |},
   w).

Definition newMachine (w : World) : Machine :=
  let '(s, w) := newSession w in
  {| session := s; world := w; tokens := []; promises := [] |}.

Definition newEventLoop (w : World) : EventLoop :=
  {| machine := newMachine w; calls := [] |}.

(** * Vocabulary of the properties *)

(** ** Operations observed *)

(** The value, the final machine and the notifications of an operation. *)
Definition value {A : Type} (op : Op A) (m : Machine) : A := (op m).1.1.
Definition after {A : Type} (op : Op A) (m : Machine) : Machine := (op m).1.2.
Definition emitted {A : Type} (op : Op A) (m : Machine) : list BroadcastMessage :=
  (op m).2.

(** An operation leaves an observation of the machine alone. *)
Definition preserves {X A : Type} (observe : Machine -> X) (op : Op A) : Prop :=
  forall m, observe (after op m) = observe m.

Definition historyOf (m : Machine) : list ChatMessage := messages (session m).
Definition usageOf (m : Machine) : UsageSummary := usageData (session m).
Definition cost (m : Machine) : Q := totalCost (usageOf m).
Definition window (m : Machine) : Z := contextWindow (usageOf m).
Definition tokenCount (m : Machine) : Z := totalTokens (usageOf m).

(** ** Runs of a list *)

Section runs.
Context {A : Type} (P : A -> bool).

Fixpoint takeWhile (l : list A) : list A :=
  match l with
  | [] => []
  | x :: rest => if P x then x :: takeWhile rest else []
  end.

Fixpoint dropWhile (l : list A) : list A :=
  match l with
  | [] => []
  | x :: rest => if P x then dropWhile rest else l
  end.
End runs.

(** ** The target of a tool result, in the words of the specification

    Scan the turns newest to oldest and, in an assistant turn, the parts in
    order: the target is the first invocation part with the id whose slot is
    empty; when there is none, it is the first invocation part with the id
    in the newest turn that has one. *)

Fixpoint scanEmpty (parts : list ChatMessagePart) (toolUseId : string)
    (position : nat) : option nat :=
  match parts with
  | [] => None
  | part :: rest =>
      if isToolUseWithId (part_content part) toolUseId
         && negb (isSome (toolResult part))
      then Some position
      else scanEmpty rest toolUseId (S position)
  end.

Fixpoint findEmptyFrom (history : list ChatMessage) (toolUseId : string)
    (remaining : nat) : option ToolUseMatch :=
  match remaining with
  | 0 => None
  | S index =>
      match history !! index with
      | None => findEmptyFrom history toolUseId index
      | Some message =>
          if negb (bool_decide (msg_type message = "assistant")) then
            findEmptyFrom history toolUseId index
          else
            match scanEmpty (msg_content message) toolUseId 0 with
            | Some part => Some (index, part)
            | None => findEmptyFrom history toolUseId index
            end
      end
  end.

Definition linkTarget (history : list ChatMessage) (toolUseId : string)
  : option ToolUseMatch :=
  match findEmptyFrom history toolUseId (length history) with
  | Some found => Some found
  | None => findAnyFrom history toolUseId (length history)
  end.

(** The number of invocation parts of a turn that carry a given id. *)
Definition invocationsOf (toolUseId : string) (message : ChatMessage) : nat :=
  length (filter (fun part => isToolUseWithId (part_content part) toolUseId = true)
            (msg_content message)).

(** Whether some assistant turn of a history holds an invocation part with
    the given id. *)
Definition hasInvocation (history : list ChatMessage) (toolUseId : string) : bool :=
  existsb
    (fun message =>
       bool_decide (msg_type message = "assistant")
       && existsb (fun part => isToolUseWithId (part_content part) toolUseId)
            (msg_content message))
    history.

(** Every tool-result block of a fragment answers an id that no assistant
    turn of the history invokes. *)
Definition unmatchedResults (history : list ChatMessage)
    (blocks : list MessageContentBlock) : bool :=
  forallb
    (fun block =>
       match block with
       | ToolResultBlock result => negb (hasInvocation history (tool_use_id result))
       | _ => true
       end)
    blocks.

(** The turn a user fragment with block content is rendered to. *)
Definition renderedUserTurn (incoming : SDKMessage) (blocks : list MessageContentBlock)
    (w : World) : ChatMessage :=
  let identified := extractMessageUuid incoming w in
  {| msg_ref := allocated identified.2; msg_type := "user";
     msg_content := map newChatMessagePart blocks;
     msg_timestamp := default (Date_now identified.2) (sdk_timestamp incoming);
     msg_id := identified.1 |}.

(** A history the coalescer leaves as it is.  The histories a session
    stores are of this kind: each is an output of the coalescer. *)
Definition coalescedHistory (history : list ChatMessage) : Prop :=
  forall w, coalesceReadMessages history w = Some (history, w).

(** ** Snapshots by turn id *)

(** The first turn carrying each id, in order of appearance. *)
Fixpoint firstPerId (seen : list string) (history : list ChatMessage)
  : list ChatMessage :=
  match history with
  | [] => []
  | message :: rest =>
      if bool_decide (msg_id message ∈ seen) then firstPerId seen rest
      else message :: firstPerId (seen ++ [msg_id message]) rest
  end.

Definition distinctTurns (history : list ChatMessage) : list ChatMessage :=
  firstPerId [] history.

(** The first turn of a history carrying a given id. *)
Fixpoint firstWithId (history : list ChatMessage) (id : string) : option ChatMessage :=
  match history with
  | [] => None
  | message :: rest =>
      if bool_decide (msg_id message = id) then Some message
      else firstWithId rest id
  end.

Definition entryOf (message : ChatMessage) : string * ChatMessage :=
  (msg_id message, message).

(** A turn of the next snapshot counts as updated when its id is in the
    explicit-update set, or when the previous snapshot holds a turn with the
    same id that is a different object. *)
Definition isUpdated (previous explicitlyUpdated : list ChatMessage)
    (message : ChatMessage) : bool :=
  bool_decide (msg_id message ∈ map msg_id explicitlyUpdated)
  || match firstWithId previous (msg_id message) with
     | Some previousMessage => differentObject previousMessage message
     | None => false
     end.

(** ** Deferred aggregate notifications *)

(** The notifications of the two aggregates deferred during a bulk load. *)
Definition aggregateUpdate (message : BroadcastMessage) : bool :=
  match message with
  | todos_updated _ _ | tools_updated _ _ => true
  | _ => false
  end.

Definition countType (type : string) (events : list BroadcastMessage) : nat :=
  length (filter (fun event => broadcast_type event = type) events).

(** An operation defers: run while the loading flag is set, it keeps the
    flag set, emits no aggregate notification and keeps latched flags. *)
Definition defers {A : Type} (op : Op A) : Prop :=
  forall m,
    isLoading (session m) = true ->
    isLoading (session (after op m)) = true
    /\ Forall (fun event => aggregateUpdate event = false) (emitted op m)
    /\ (pendingTodosBroadcast (session m) = true ->
        pendingTodosBroadcast (session (after op m)) = true)
    /\ (pendingToolsBroadcast (session m) = true ->
        pendingToolsBroadcast (session (after op m)) = true).

(** What [flushPendingStateUpdates] broadcasts for a session. *)
Definition flushedUpdates (s : Session) : list BroadcastMessage :=
  (if pendingTodosBroadcast s then [todos_updated (claudeSessionId s) (todos s)]
   else [])
  ++ (if pendingToolsBroadcast s then [tools_updated (claudeSessionId s) (tools s)]
      else []).

(** The values the blocks of a fragment hand to [updateTodosState], in
    order; the loop of [handleAssistantMessage] gets as far as the first of
    them that is not an array. *)
Definition todoArguments (message : SDKMessage) : list JSON :=
  if bool_decide (sdk_type message = "assistant") then
    match sdk_content message with
    | BlockContent blocks => omap todoWriteArgument blocks
    | StringContent _ => []
    end
  else [].

Definition isArray (value : JSON) : bool :=
  match value with
  | JArray _ => true
  | _ => false
  end.

Definition isNonEmptyArray (value : JSON) : bool :=
  match value with
  | JArray (_ :: _) => true
  | _ => false
  end.

(** The todo-writing invocations of a fragment are well formed: each value
    handed to [updateTodosState] is an array. *)
Definition todoWritesAreArrays (message : SDKMessage) : bool :=
  forallb isArray (todoArguments message).

(** The todo arrays a replay of [fragments] stores: those handed to
    [updateTodosState] before the first value that is not an array. *)
Definition replayedTodoWrites (fragments : list SDKMessage) : list JSON :=
  takeWhile isArray (flat_map todoArguments fragments).

(** Every partial sum of the token total is a sum doubles compute exactly. *)
Definition exactTotal (usage : TokenUsage) : Prop :=
  let safe (n : Z) := (- 2 ^ 53 <= n <= 2 ^ 53)%Z in
  let first := (input_tokens usage + default 0 (cache_creation_input_tokens usage))%Z in
  let second := (first + default 0 (cache_read_input_tokens usage))%Z in
  safe first /\ safe second /\ safe (second + output_tokens usage)%Z.

(** The todo list is empty unless its flag is latched. *)
Definition latchedOrEmpty (m : Machine) : Prop :=
  pendingTodosBroadcast (session m) = true \/ todos (session m) = [].

Definition todoFlags (m : Machine) : list TodoItem * bool * bool :=
  (todos (session m), pendingTodosBroadcast (session m), isLoading (session m)).

(** ** Inputs of the examples *)

Definition exampleWorld : World :=
  {| clock := 1700000000000%Z;
     entropy := fun n => String (Ascii.ascii_of_nat (97 + n)) "";
     drawn := 0; allocated := 100; atob := fun data => Some data |}.

Definition okResult (toolUseId : string) : ToolResultContentBlock :=
  {| tool_use_id := toolUseId; result_content := ResultString "ok";
     is_error := false |}.

Definition errorResult (toolUseId : string) : ToolResultContentBlock :=
  {| tool_use_id := toolUseId; result_content := ResultString "failed";
     is_error := true |}.

Definition userFragment (uuid : string) (blocks : list MessageContentBlock)
  : SDKMessage :=
  {| sdk_type := "user"; sdk_uuid := Some uuid; sdk_timestamp := None;
     sdk_session_id := ""; sdk_content := BlockContent blocks; sdk_usage := None;
     sdk_subtype := None; sdk_model := None; sdk_tools := None;
     sdk_permissionMode := None; sdk_total_cost_usd := None;
     sdk_modelUsage := None |}.

Definition assistantFragment (uuid : string) (blocks : list MessageContentBlock)
    (usage : option TokenUsage) : SDKMessage :=
  {| sdk_type := "assistant"; sdk_uuid := Some uuid; sdk_timestamp := None;
     sdk_session_id := ""; sdk_content := BlockContent blocks; sdk_usage := usage;
     sdk_subtype := None; sdk_model := None; sdk_tools := None;
     sdk_permissionMode := None; sdk_total_cost_usd := None;
     sdk_modelUsage := None |}.

(** A bare turn, for snapshots. *)
Definition turn (ref : nat) (id : string) : ChatMessage :=
  {| msg_ref := ref; msg_type := "user"; msg_content := [];
     msg_timestamp := 0; msg_id := id |}.

(** An assistant turn holding two invocation parts with the same id, the
    first answered, the second not. *)
Definition twiceInvokedTurn : ChatMessage :=
  {| msg_ref := 0; msg_type := "assistant";
     msg_content :=
       [ {| part_content := ToolUseBlock "X" "Bash" (JString "ls");
            toolResult := Some (okResult "X") |};
         {| part_content := ToolUseBlock "X" "Bash" (JString "pwd");
            toolResult := None |} ];
     msg_timestamp := 1; msg_id := "turn-0" |}.

(** An assistant turn holding a successful read and a second, pending
    invocation, and an assistant turn that is a single successful read. *)
Definition readAndBashTurn : ChatMessage :=
  {| msg_ref := 0; msg_type := "assistant";
     msg_content :=
       [ {| part_content := ToolUseBlock "t1" "Read" (JString "a.txt");
            toolResult := Some (okResult "t1") |};
         {| part_content := ToolUseBlock "t2" "Bash" (JString "make");
            toolResult := None |} ];
     msg_timestamp := 1; msg_id := "turn-0" |}.

Definition readTurn : ChatMessage :=
  {| msg_ref := 1; msg_type := "assistant";
     msg_content :=
       [ {| part_content := ToolUseBlock "t3" "Read" (JString "b.txt");
            toolResult := Some (okResult "t3") |} ];
     msg_timestamp := 2; msg_id := "turn-1" |}.

(** An assistant turn whose first part is a successful invocation of
    another tool and whose second part is a read still waiting for its
    result. *)
Definition bashAndPendingReadTurn : ChatMessage :=
  {| msg_ref := 0; msg_type := "assistant";
     msg_content :=
       [ {| part_content := ToolUseBlock "t4" "Bash" (JString "make");
            toolResult := Some (okResult "t4") |};
         {| part_content := ToolUseBlock "t5" "Read" (JString "c.txt");
            toolResult := None |} ];
     msg_timestamp := 1; msg_id := "turn-0" |}.

(** An assistant fragment whose only block is a todo-writing invocation. *)
Definition todoWriteFragment (uuid : string) (items : list JSON) : SDKMessage :=
  assistantFragment uuid
    [ToolUseBlock ("todo-" +:+ uuid) "TodoWrite" (JObject [("todos", JArray items)])]
    None.

Definition todoJSON (content status : string) : JSON :=
  JObject [("content", JString content); ("status", JString status)].

(** A fresh session on which a load of ["session-1"] has been started. *)
Definition loadingMachine : Machine :=
  after (loadFromServer (Some "session-1")) (newMachine exampleWorld).

(** * Further vocabulary *)

(** The first part of an assistant turn that is an invocation with the given
    id, with its position. *)
Definition firstInvocation (message : ChatMessage) (toolUseId : string)
  : option (nat * ChatMessagePart) :=
  if bool_decide (msg_type message = "assistant") then
    list_find (fun part => isToolUseWithId (part_content part) toolUseId = true)
      (msg_content message)
  else None.

(** The content blocks of a fragment that the linker goes through. *)
Definition linkedBlocks (incoming : SDKMessage) : list MessageContentBlock :=
  if bool_decide (sdk_type incoming = "user") then
    match sdk_content incoming with
    | BlockContent blocks => blocks
    | StringContent _ => []
    end
  else [].

(** A part before and after linking: the content block is the same, and
    the result slot is the same or holds a result block of the fragment that
    answers the id of the part. *)
Definition linkedPart (blocks : list MessageContentBlock)
    (old new : ChatMessagePart) : Prop :=
  part_content new = part_content old
  /\ (toolResult new = toolResult old
      \/ exists result,
           toolResult new = Some result
           /\ ToolResultBlock result ∈ blocks
           /\ isToolUseWithId (part_content old) (tool_use_id result) = true).

(** A turn before and after linking: the same object, type, id and
    timestamp, the parts related one by one; a turn that is not an assistant
    turn is untouched. *)
Definition linkedTurn (blocks : list MessageContentBlock)
    (old new : ChatMessage) : Prop :=
  msg_ref new = msg_ref old
  /\ msg_type new = msg_type old
  /\ msg_id new = msg_id old
  /\ msg_timestamp new = msg_timestamp old
  /\ Forall2 (linkedPart blocks) (msg_content old) (msg_content new)
  /\ (msg_type old <> "assistant" -> new = old).

(** ** Tool status ([getToolUseStatus]) *)

(** [type ToolUseStatus = 'success' | 'failure' | 'progress']. *)
Inductive ToolUseStatus : Type :=
  | StatusSuccess
  | StatusFailure
  | StatusProgress.

Definition isToolUsePart (part : ChatMessagePart) : bool :=
  bool_decide (block_type (part_content part) = "tool_use").

(** The loop of [getToolUseStatus] over the parts of the turn. *)
Fixpoint firstToolUseStatus (parts : list ChatMessagePart) : option ToolUseStatus :=
  match parts with
  | [] => None
  | part :: rest =>
      if isToolUsePart part then
        match toolResult part with
        | None => Some StatusProgress
        | Some result =>
            Some (if is_error result then StatusFailure else StatusSuccess)
        end
      else firstToolUseStatus rest
  end.

Definition getToolUseStatus (message : ChatMessage) : option ToolUseStatus :=
  if negb (bool_decide (msg_type message = "assistant")) then None
  else firstToolUseStatus (msg_content message).

(** Whether a block is a result block answering the given id. *)
Definition answers (toolUseId : string) (block : MessageContentBlock) : bool :=
  match block with
  | ToolResultBlock result => bool_decide (tool_use_id result = toolUseId)
  | _ => false
  end.

(** What orders and identifies a turn for a client: its id and timestamp. *)
Definition turnKey (message : ChatMessage) : string * Z :=
  (msg_id message, msg_timestamp message).

(** A synthetic turn of the coalescer: an assistant turn whose only part is
    an answered [ReadCoalesced] invocation. *)
Definition isCoalescedTurn (message : ChatMessage) : Prop :=
  msg_type message = "assistant"
  /\ exists id input result,
       msg_content message
       = [{| part_content := ToolUseBlock id "ReadCoalesced" input;
             toolResult := Some result |}]
       /\ is_error result = false.

(** ** Notifications of one update of the history *)

(** The notifications of the loop over [appendResult.toolResultUpdates]. *)
Definition toolUpdateNotices (sessionId : option string)
    (nextMap : JSMap.t ChatMessage) (updates : list ToolResultUpdate)
  : list BroadcastMessage :=
  flat_map
    (fun toolUpdate =>
       match JSMap.get nextMap (msg_id (update_message toolUpdate)) with
       | None => []
       | Some message =>
           [tool_result_updated sessionId (msg_id message)
              (update_toolUseId toolUpdate) (update_toolResult toolUpdate)]
       end)
    updates.

(** The notifications of a change of the history from [previous] to [next]:
    removals, additions, updates, tool results, then the session info. *)
Definition messageNotices (sessionId : option string) (active : bool)
    (previous next : list ChatMessage) (result : AppendRenderableMessageResult)
  : list BroadcastMessage :=
  let diff := diffMessages previous next (updatedMessages result) in
  map (message_removed sessionId) (removed diff)
  ++ map (message_added sessionId) (added diff)
  ++ map (message_updated sessionId) (updated diff)
  ++ toolUpdateNotices sessionId (buildMessageMap next) (toolResultUpdates result)
  ++ [session_info sessionId (length next) active].

(** The session after the assignments that close [processIncomingMessage]:
    the busy flag follows the lifecycle fragments. *)
Definition lifecycleBusy (incoming : SDKMessage) (s : Session) : Session :=
  if bool_decide (sdk_type incoming = "system") then
    if bool_decide (sdk_subtype incoming = Some "init") then set_busy true s else s
  else if bool_decide (sdk_type incoming = "result") then set_busy false s
  else s.

(** The synthetic user fragment [send] builds from a prompt. *)
Definition promptFragment (uuid : string) (content : list MessageContentBlock)
  : SDKMessage :=
  {| sdk_type := "user"; sdk_uuid := Some uuid; sdk_timestamp := None;
     sdk_session_id := ""; sdk_content := BlockContent content;
     sdk_usage := None; sdk_subtype := None; sdk_model := None;
     sdk_tools := None; sdk_permissionMode := None;
     sdk_total_cost_usd := None; sdk_modelUsage := None |}.

(** [if (!this.summary) this.summary = prompt]. *)
Definition seedSummary (prompt : string) (s : Session) : Session :=
  if negb (truthy (summary s)) then set_summary (Some prompt) s else s.

(** ** Invariants of a session *)

(** [messageCount] is the length of the stored history. *)
Definition countsMessages (m : Machine) : Prop :=
  messageCount (session m) = length (messages (session m)).

(** The token the session refers to, if any, has not been cancelled. *)
Definition tokenNotCancelled (m : Machine) : Prop :=
  match cancellationToken (session m) with
  | Some token => tokens m !! token = Some false
  | None => True
  end.

(** What the aggregates tracker ([processMessage]) never touches. *)
Definition conversation (m : Machine)
  : list ChatMessage * nat * option nat * option nat * list bool
    * list PromiseState * World :=
  (messages (session m), messageCount (session m), cancellationToken (session m),
   queryPromise (session m), tokens m, promises m, world m).

(** The three together. *)
Definition wellFormed (m : Machine) : Prop :=
  countsMessages m
  /\ coalescedHistory (messages (session m))
  /\ tokenNotCancelled m.


(** The todo list [updateTodosState] stores for a value that is an array. *)
Definition storedTodos (todos : JSON) : option (list TodoItem) :=
  match todos with
  | JArray items => Some (map copyTodo items)
  | _ => None
  end.



(** The fragments a replay processes to the end: those before the first
    fragment whose processing throws. *)
Definition replayedFragments (fragments : list SDKMessage) : list SDKMessage :=
  takeWhile todoWritesAreArrays fragments.

(** ** The session manager ([class SessionManager]) *)

(** The list of known sessions, and the part of the heap the sessions refer
    to.  A session object is referred to by its position in the list.  The
    client factory is taken to yield a valid client, so that the
    constructor of [Session] does not throw. *)
Record SessionManager : Type := mkSessionManager {
  sessionsList : list Session;
  managerWorld : World;
  managerTokens : list bool;
  managerPromises : list PromiseState
}.

(** [get sessions()]. *)
Definition sessions (manager : SessionManager) : list Session :=
  sessionsList manager.

(** [Array.prototype.sort] with the comparator
    [(left, right) => right.lastModifiedTime - left.lastModifiedTime]: the
    sort is stable, and the comparator orders the finite numbers the field
    holds, so the result is the stable arrangement by decreasing time. *)
Fixpoint insertByLastModified (s : Session) (sorted : list Session) : list Session :=
  match sorted with
  | [] => [s]
  | other :: rest =>
      if (lastModifiedTime other <=? lastModifiedTime s)%Z then s :: other :: rest
      else other :: insertByLastModified s rest
  end.

(** [get sessionsByLastModified()] sorts a copy of the list. *)
Definition sessionsByLastModified (manager : SessionManager) : list Session :=
  foldr insertByLastModified [] (sessionsList manager).

(** [getSession(sessionId, shouldLoadMessages)]. *)
Definition getSession (sessionId : string) (shouldLoadMessages : bool)
    (manager : SessionManager) : option nat * SessionManager :=
  match list_find (fun s => claudeSessionId s = Some sessionId)
          (sessionsList manager) with
  | Some (index, existing) =>
      if shouldLoadMessages then
        let started :=
          after (loadFromServer None)
            {| session := existing; world := managerWorld manager;
               tokens := managerTokens manager;
               promises := managerPromises manager |} in
        (Some index,
         {| sessionsList := <[index := session started]> (sessionsList manager);
            managerWorld := world started; managerTokens := tokens started;
            managerPromises := promises started |})
      else (Some index, manager)
  | None => (None, manager)
  end.

(** [createSession(options)]; the argument is [options.isExplicit]. *)
Definition createSession (isExplicitOption : option bool) (manager : SessionManager)
  : nat * SessionManager :=
  let '(created, w) := newSession (managerWorld manager) in
  let created :=
    set_isExplicit (negb (bool_decide (isExplicitOption = Some false))) created in
  (0,
   {| sessionsList := created :: sessionsList manager; managerWorld := w;
      managerTokens := managerTokens manager;
      managerPromises := managerPromises manager |}).

(** [getOrCreateSession(sessionId, options)]. *)
Definition getOrCreateSession (sessionId : option string)
    (isExplicitOption : option bool) (manager : SessionManager)
  : nat * SessionManager :=
  let '(found, manager) :=
    if truthy sessionId then getSession (default "" sessionId) false manager
    else (None, manager) in
  match found with
  | Some index => (index, manager)
  | None => createSession isExplicitOption manager
  end.

(** [hasPersistentState(session)]. *)
Definition hasPersistentState (s : Session) : bool :=
  truthy (claudeSessionId s) || (0 <? length (messages s)).

(** A list of sessions in which no session is followed by a more recently
    modified one. *)
Fixpoint byDecreasingTime (l : list Session) : Prop :=
  match l with
  | [] => True
  | s :: rest =>
      Forall (fun later => (lastModifiedTime later <= lastModifiedTime s)%Z) rest
      /\ byDecreasingTime rest
  end.

(** The fields of the session that are set by [processIncomingMessage]
    itself and by nothing it calls. *)
Definition lifecycle (m : Machine) : option string * bool * option nat :=
  (claudeSessionId (session m), busy (session m), queryPromise (session m)).

(** The tool inventory a fragment announces: that of a [system]/[init]
    fragment carrying one. *)
Definition fragmentTools (message : SDKMessage) : option (list string) :=
  if bool_decide (sdk_type message = "system")
     && bool_decide (sdk_subtype message = Some "init")
  then sdk_tools message
  else None.

(** The two aggregates of a session. *)
Definition aggregates (m : Machine) : list TodoItem * list string :=
  (todos (session m), tools (session m)).

(** ** Session files ([src/cas-client.ts])

    Strings are sequences of bytes here; the functions below test and
    replace ASCII characters only, which a UTF-8 encoding keeps apart from
    the bytes of every other character. *)

(** The character class [[:\\/]]: colon, backslash, slash. *)
Definition isProjectSeparator (c : Ascii.ascii) : bool :=
  let code := Ascii.nat_of_ascii c in
  (code =? 58) || (code =? 92) || (code =? 47).

Definition dash : Ascii.ascii := Ascii.ascii_of_nat 45.

(** [text.replace(/[:\\/]+/g, "-")]: every maximal run of separators is
    replaced by one dash; [inRun] tells that the character before was a
    separator. *)
Fixpoint replaceSeparatorRuns (inRun : bool) (text : string) : string :=
  match text with
  | EmptyString => EmptyString
  | String c rest =>
      if isProjectSeparator c then
        if inRun then replaceSeparatorRuns true rest
        else String dash (replaceSeparatorRuns true rest)
      else String c (replaceSeparatorRuns false rest)
  end.

(** [text.replace(/\//g, "-")]. *)
Fixpoint replaceSlashes (text : string) : string :=
  match text with
  | EmptyString => EmptyString
  | String c rest =>
      String (if Ascii.nat_of_ascii c =? 47 then dash else c) (replaceSlashes rest)
  end.

(** [text.startsWith("-")]. *)
Definition startsWithDash (text : string) : bool :=
  match text with
  | String c _ => Ascii.nat_of_ascii c =? 45
  | EmptyString => false
  end.

Definition sanitizeProjectId (cwd : string) : string :=
  let replaced := replaceSlashes (replaceSeparatorRuns false cwd) in
  if startsWithDash replaced then replaced else String dash replaced.

(** [String.prototype.toLowerCase], on the ASCII letters: the test below
    compares the end of the string with ASCII characters, which are the
    lower-case form of no other character than their upper-case letter. *)
Definition toLowerCaseChar (c : Ascii.ascii) : Ascii.ascii :=
  let code := Ascii.nat_of_ascii c in
  if (65 <=? code) && (code <=? 90) then Ascii.ascii_of_nat (code + 32) else c.

Fixpoint toLowerCase (text : string) : string :=
  match text with
  | EmptyString => EmptyString
  | String c rest => String (toLowerCaseChar c) (toLowerCase rest)
  end.

(** [text.endsWith(suffix)]. *)
Definition endsWith (suffix text : string) : bool :=
  (String.length suffix <=? String.length text)
  && bool_decide
       (String.substring (String.length text - String.length suffix) (String.length suffix)
          text = suffix).

Definition SESSION_FILE_EXTENSION : string := ".jsonl".

(** [normalizeSessionId(value)]; [value.slice(0, -n)] keeps all but the
    last [n] characters. *)
Definition normalizeSessionId (value : string) : string :=
  if endsWith SESSION_FILE_EXTENSION (toLowerCase value) then
    String.substring 0 (String.length value - String.length SESSION_FILE_EXTENSION) value
  else value.

(** Whether a call of [send] is suspended on the promise [settled]. *)
Definition awaits (settled : nat) (call : SendCall) : bool :=
  match phase call with
  | AwaitingPrevious previous => bool_decide (previous = settled)
  | _ => false
  end.

(** ** Example values of the later properties *)

(** An assistant turn whose only part is an invocation still waiting for
    its result. *)
Definition pendingBashTurn : ChatMessage :=
  {| msg_ref := 0; msg_type := "assistant";
     msg_content :=
       [ {| part_content := ToolUseBlock "t1" "Bash" (JString "make");
            toolResult := None |} ];
     msg_timestamp := 1; msg_id := "turn-0" |}.

(** A streaming fragment of the SDK. *)
Definition streamEventFragment (uuid : string) : SDKMessage :=
  {| sdk_type := "stream_event"; sdk_uuid := Some uuid; sdk_timestamp := None;
     sdk_session_id := ""; sdk_content := BlockContent []; sdk_usage := None;
     sdk_subtype := None; sdk_model := None; sdk_tools := None;
     sdk_permissionMode := None; sdk_total_cost_usd := None;
     sdk_modelUsage := None |}.

(** * Properties *)

Set Warnings "-clear-no-such-hyp".

(** ** Lists and maps *)

Lemma filter_none {A : Type} (P : A -> Prop) `{forall x, Decision (P x)} (l : list A) :
  (forall x, x ∈ l -> ~ P x) -> filter P l = [].
Proof.
  induction l as [|x l IH]; intros Hnone; [done|].
  rewrite filter_cons_False by (apply Hnone; left).
  apply IH. intros y Hy. apply Hnone. by right.
Qed.

Lemma filter_all {A : Type} (P : A -> Prop) `{forall x, Decision (P x)} (l : list A) :
  (forall x, x ∈ l -> P x) -> filter P l = l.
Proof.
  induction l as [|x l IH]; intros Hall; [done|].
  rewrite filter_cons_True by (apply Hall; left).
  f_equal. apply IH. intros y Hy. apply Hall. by right.
Qed.

Lemma NoDup_map_filter {A B : Type} (f : A -> B) (P : A -> Prop)
    `{forall x, Decision (P x)} (l : list A) :
  NoDup (map f l) -> NoDup (map f (filter P l)).
Proof.
  induction l as [|x l IH]; [done|]. cbn [map]. intros [Hx Hl]%NoDup_cons.
  rewrite filter_cons. destruct (decide (P x)); [|by apply IH].
  cbn [map]. apply NoDup_cons. split; [|by apply IH].
  intros Hin. apply Hx. apply list_elem_of_fmap in Hin as (y & -> & Hy).
  apply list_elem_of_filter in Hy as [_ Hy]. apply list_elem_of_fmap. eauto.
Qed.

Lemma existsb_insert {A : Type} (f : A -> bool) (l : list A) (i : nat) (x y : A) :
  l !! i = Some x -> f y = f x -> existsb f (<[i := y]> l) = existsb f l.
Proof.
  revert i. induction l as [|z l IH]; intros [|i] Hx Hf; try done.
  - injection Hx as ->. cbn [insert list_insert existsb]. by rewrite Hf.
  - cbn [insert list_insert existsb]. f_equal. by apply IH.
Qed.

Lemma foldl_collect {A B : Type} (keep : A -> bool) (f : A -> B) (l : list A)
    (acc : list B) :
  foldl (fun acc x => if keep x then acc ++ [f x] else acc) acc l
  = acc ++ map f (filter (fun x => keep x = true) l).
Proof.
  revert acc. induction l as [|x l IH]; intros acc; simpl.
  - by rewrite app_nil_r.
  - rewrite IH. destruct (keep x) eqn:Hx.
    + rewrite filter_cons_True by done. simpl. by rewrite <- app_assoc.
    + rewrite filter_cons_False by (rewrite Hx; done). done.
Qed.

Section run_facts.
Context {A : Type} (P : A -> bool).

Lemma takeWhile_dropWhile (l : list A) : takeWhile P l ++ dropWhile P l = l.
Proof.
  induction l as [|x l IH]; simpl; [done|]. destruct (P x); simpl; congruence.
Qed.

Lemma drop_length_takeWhile (l : list A) :
  drop (length (takeWhile P l)) l = dropWhile P l.
Proof. induction l as [|x l IH]; simpl; [done|]. destruct (P x); simpl; done. Qed.
End run_facts.

Module JSMapFacts.
Section facts.
Context {V : Type}.
Implicit Types (m : JSMap.t V) (k : string) (v : V).

Lemma has_keys m k : JSMap.has m k = bool_decide (k ∈ JSMap.keys m).
Proof.
  unfold JSMap.has, JSMap.keys. induction m as [|[k' v'] m IH].
  - symmetry. apply bool_decide_eq_false_2, not_elem_of_nil.
  - cbn [JSMap.get fmap list_fmap fst]. destruct (decide (k' = k)) as [->|Hk].
    + rewrite (bool_decide_eq_true_2 (k = k)); [|done].
      symmetry. apply bool_decide_eq_true_2. by left.
    + rewrite (bool_decide_eq_false_2 (k' = k)); [|done].
      rewrite IH. apply bool_decide_ext. rewrite elem_of_cons. naive_solver.
Qed.

Lemma set_fresh m k v : JSMap.has m k = false -> JSMap.set m k v = m ++ [(k, v)].
Proof.
  unfold JSMap.has. induction m as [|[k' v'] m IH]; simpl; [done|].
  case_bool_decide; [done|]. intros Hk. by rewrite IH.
Qed.

Lemma get_app m1 m2 k :
  JSMap.get (m1 ++ m2) k =
    match JSMap.get m1 k with Some v => Some v | None => JSMap.get m2 k end.
Proof. induction m1 as [|[k' v'] m1 IH]; simpl; [done|]. by case_bool_decide. Qed.

Lemma delete_set_fresh m k v :
  JSMap.has m k = false -> JSMap.delete (JSMap.set m k v) k = m.
Proof.
  unfold JSMap.has. induction m as [|[k' v'] m IH]; simpl.
  - by rewrite bool_decide_eq_true_2.
  - case_bool_decide as Hk; [done|]. intros Hfresh. simpl.
    rewrite bool_decide_eq_false_2 by done. by rewrite IH.
Qed.

Lemma get_delete_ne m k k' :
  k <> k' -> JSMap.get (JSMap.delete m k) k' = JSMap.get m k'.
Proof.
  intros Hne. induction m as [|[k0 v0] m IH]; [done|].
  cbn [JSMap.delete JSMap.get].
  destruct (decide (k0 = k)) as [->|Hk].
  - rewrite (bool_decide_eq_true_2 (k = k)) by done.
    by rewrite (bool_decide_eq_false_2 (k = k')).
  - rewrite (bool_decide_eq_false_2 (k0 = k)) by done.
    cbn [JSMap.get]. by rewrite IH.
Qed.

Lemma get_None_keys m k : JSMap.get m k = None <-> k ∉ JSMap.keys m.
Proof.
  pose proof (has_keys m k) as Hhas. unfold JSMap.has in Hhas.
  destruct (JSMap.get m k).
  - symmetry in Hhas. apply bool_decide_eq_true_1 in Hhas. naive_solver.
  - symmetry in Hhas. apply bool_decide_eq_false_1 in Hhas. naive_solver.
Qed.

Lemma get_delete_eq m k :
  NoDup (JSMap.keys m) -> JSMap.get (JSMap.delete m k) k = None.
Proof.
  induction m as [|[k0 v0] m IH]; intros Hnd; [done|].
  unfold JSMap.keys in Hnd. cbn [fmap list_fmap fst] in Hnd.
  apply NoDup_cons in Hnd as [Hk0 Hnd].
  cbn [JSMap.delete].
  destruct (decide (k0 = k)) as [->|Hk].
  - rewrite (bool_decide_eq_true_2 (k = k)) by done. by apply get_None_keys.
  - rewrite (bool_decide_eq_false_2 (k0 = k)) by done.
    cbn [JSMap.get]. rewrite (bool_decide_eq_false_2 (k0 = k)) by done.
    by apply IH.
Qed.

(** In a map with distinct keys, [delete] removes every entry of the key
    and keeps the others in their order. *)
Lemma delete_filter m k :
  NoDup (JSMap.keys m) ->
  JSMap.delete m k = filter (fun entry => entry.1 <> k) (m : list (string * V)).
Proof.
  induction m as [|[k0 v0] m IH]; intros Hnd; [done|].
  unfold JSMap.keys in Hnd. cbn [fmap list_fmap fst] in Hnd.
  apply NoDup_cons in Hnd as [Hk0 Hnd].
  cbn [JSMap.delete]. destruct (decide (k0 = k)) as [->|Hk].
  - rewrite (bool_decide_eq_true_2 (k = k)) by done.
    rewrite filter_cons_False by (cbn; auto).
    symmetry. apply filter_all.
    intros [k1 v1] Hin Heq. cbn in Heq. subst k1.
    apply Hk0. apply list_elem_of_fmap. by exists (k, v1).
  - rewrite (bool_decide_eq_false_2 (k0 = k)) by done.
    rewrite filter_cons_True by done. by rewrite IH.
Qed.

Lemma keys_set m k v :
  JSMap.keys (JSMap.set m k v)
  = if JSMap.has m k then JSMap.keys m else JSMap.keys m ++ [k].
Proof.
  unfold JSMap.has, JSMap.keys. induction m as [|[k0 v0] m IH]; [done|].
  cbn [JSMap.set JSMap.get]. case_bool_decide as Hk; [by subst|].
  cbn [fmap list_fmap fst]. rewrite IH. by destruct (JSMap.get m k).
Qed.

Lemma NoDup_keys_set m k v :
  NoDup (JSMap.keys m) -> NoDup (JSMap.keys (JSMap.set m k v)).
Proof.
  intros Hnd. rewrite keys_set. destruct (JSMap.has m k) eqn:Hhas; [done|].
  rewrite has_keys in Hhas. apply bool_decide_eq_false_1 in Hhas.
  apply NoDup_app. split; [done|]. split; [|apply NoDup_singleton].
  intros key Hkey Hk. apply list_elem_of_singleton in Hk. by subst.
Qed.

Lemma NoDup_keys_delete m k :
  NoDup (JSMap.keys m) -> NoDup (JSMap.keys (JSMap.delete m k)).
Proof.
  intros Hnd. rewrite delete_filter by done. unfold JSMap.keys, JSMap.t in *.
  revert Hnd. induction m as [|[k0 v0] m IH]; [done|].
  cbn [fmap list_fmap fst]. intros [Hk0 Hnd]%NoDup_cons.
  destruct (decide (k0 = k)) as [->|Hk].
  - rewrite filter_cons_False by (cbn; auto). by apply IH.
  - rewrite filter_cons_True by done. cbn [fmap list_fmap fst].
    apply NoDup_cons. split; [|by apply IH].
    intros Hin. apply Hk0. apply list_elem_of_fmap in Hin as (entry & -> & Hentry).
    apply list_elem_of_filter in Hentry as [_ Hentry].
    apply list_elem_of_fmap. by exists entry.
Qed.
End facts.
End JSMapFacts.

(** ** Running operations *)

Section op_laws.
Context {A B : Type}.
Implicit Types (c : Op A) (f : A -> Op B) (m : Machine).

Lemma value_bind c f m : value (c ≫= f) m = value (f (value c m)) (after c m).
Proof.
  unfold value, after, mbind, Op_bind.
  destruct (c m) as [[x m1] t1]. cbn. by destruct (f x m1) as [[y m2] t2].
Qed.

Lemma after_bind c f m : after (c ≫= f) m = after (f (value c m)) (after c m).
Proof.
  unfold value, after, mbind, Op_bind.
  destruct (c m) as [[x m1] t1]. cbn. by destruct (f x m1) as [[y m2] t2].
Qed.

Lemma emitted_bind c f m :
  emitted (c ≫= f) m = emitted c m ++ emitted (f (value c m)) (after c m).
Proof.
  unfold value, after, emitted, mbind, Op_bind.
  destruct (c m) as [[x m1] t1]. cbn. by destruct (f x m1) as [[y m2] t2].
Qed.
End op_laws.

Lemma after_ret {A : Type} (x : A) m : after (mret x) m = m.
Proof. done. Qed.

Lemma emitted_ret {A : Type} (x : A) m : emitted (mret x) m = [].
Proof. done. Qed.

(** Calls that may throw. *)
Section try_laws.
Context {A B : Type}.
Implicit Types (c : Op (Completion A)) (k : A -> Op (Completion B)) (m : Machine).

Lemma andThen_run c k m :
  andThen c k m
  = match value c m with
    | Normal x =>
        (value (k x) (after c m), after (k x) (after c m),
         emitted c m ++ emitted (k x) (after c m))
    | Thrown reason => (Thrown reason, after c m, emitted c m)
    end.
Proof.
  unfold andThen, value, after, emitted, mbind, Op_bind.
  destruct (c m) as [[[x|reason] m1] t1]; cbn.
  - by destruct (k x m1) as [[y m2] t2].
  - by rewrite app_nil_r.
Qed.

Lemma value_andThen c k m :
  value (andThen c k) m
  = match value c m with
    | Normal x => value (k x) (after c m)
    | Thrown reason => Thrown reason
    end.
Proof. unfold value at 1. rewrite andThen_run. by destruct (value c m). Qed.

Lemma after_andThen c k m :
  after (andThen c k) m
  = match value c m with
    | Normal x => after (k x) (after c m)
    | Thrown _ => after c m
    end.
Proof. unfold after at 1. rewrite andThen_run. by destruct (value c m). Qed.

Lemma emitted_andThen c k m :
  emitted (andThen c k) m
  = emitted c m
    ++ match value c m with
       | Normal x => emitted (k x) (after c m)
       | Thrown _ => []
       end.
Proof.
  unfold emitted at 1. rewrite andThen_run.
  destruct (value c m); [done|]. by rewrite app_nil_r.
Qed.
End try_laws.

Lemma returns_run {A : Type} (c : Op A) m :
  returns c m = (Normal (value c m), after c m, emitted c m).
Proof.
  unfold returns, value, after, emitted, mbind, Op_bind.
  destruct (c m) as [[x m1] t1]. cbn. by rewrite app_nil_r.
Qed.

Lemma value_returns {A : Type} (c : Op A) m : value (returns c) m = Normal (value c m).
Proof. unfold value at 1. by rewrite returns_run. Qed.

Lemma after_returns {A : Type} (c : Op A) m : after (returns c) m = after c m.
Proof. unfold after at 1. by rewrite returns_run. Qed.

Lemma emitted_returns {A : Type} (c : Op A) m : emitted (returns c) m = emitted c m.
Proof. unfold emitted at 1. by rewrite returns_run. Qed.

Lemma withWorld_run {A : Type} (f : World -> A * World) m :
  withWorld f m
  = ((f (world m)).1,
     {| session := session m; world := (f (world m)).2; tokens := tokens m;
        promises := promises m |}, []).
Proof. unfold withWorld. by destruct (f (world m)). Qed.

Lemma forEach_notifier {A : Type} (xs : list A) (body : A -> Op unit)
    (notification : Session -> A -> BroadcastMessage) :
  (forall x m, body x m = (tt, m, [notification (session m) x])) ->
  forall m, forEach xs body m = (tt, m, map (notification (session m)) xs).
Proof.
  intros Hbody m. induction xs as [|x xs IH]; [done|]. cbn [forEach map].
  unfold mbind, Op_bind. by rewrite Hbody, IH.
Qed.

(** Evaluation of an operation built from the primitives. *)
Ltac run_op :=
  unfold value, after, emitted, mbind, Op_bind, mret, Op_ret, this, assign,
    noticeSubscribers;
  cbn.

(** Case analysis on a machine down to the fields of its session. *)
Ltac destruct_machine m :=
  destruct m as
    [[?id ?history ?subs ?query ?loading ?token ?count ?sid ?err ?isBusy
      ?explicit ?modified ?mode ?summ ?model ?items ?names ?usage ?isLoad
      ?latchTodos ?latchTools] ?w ?flags ?settled].

(** ** Frame conditions *)

Create HintDb frame discriminated.

Lemma preserves_ret {X A : Type} (observe : Machine -> X) (x : A) :
  preserves observe (mret x).
Proof. by intros m. Qed.

Lemma preserves_bind {X A B : Type} (observe : Machine -> X) (c : Op A)
    (f : A -> Op B) :
  preserves observe c -> (forall x, preserves observe (f x)) ->
  preserves observe (c ≫= f).
Proof. intros Hc Hf m. rewrite after_bind, Hf, Hc. done. Qed.

Lemma preserves_this {X : Type} (observe : Machine -> X) : preserves observe this.
Proof. by intros m. Qed.

Lemma preserves_notice {X : Type} (observe : Machine -> X) message :
  preserves observe (noticeSubscribers message).
Proof. by intros m. Qed.

Lemma preserves_forEach {X A : Type} (observe : Machine -> X) (xs : list A) body :
  (forall x, preserves observe (body x)) -> preserves observe (forEach xs body).
Proof.
  intros Hbody. induction xs as [|x xs IH]; cbn [forEach].
  - apply preserves_ret.
  - apply preserves_bind; [apply Hbody|]. intros _. apply IH.
Qed.

Lemma preserves_if {X A : Type} (observe : Machine -> X) (b : bool) (c1 c2 : Op A) :
  preserves observe c1 -> preserves observe c2 ->
  preserves observe (if b then c1 else c2).
Proof. by destruct b. Qed.

Lemma preserves_andThen {X A B : Type} (observe : Machine -> X)
    (c : Op (Completion A)) (k : A -> Op (Completion B)) :
  preserves observe c -> (forall x, preserves observe (k x)) ->
  preserves observe (andThen c k).
Proof.
  intros Hc Hk m. rewrite after_andThen.
  destruct (value c m); [by rewrite Hk, Hc|apply Hc].
Qed.

Lemma preserves_returns {X A : Type} (observe : Machine -> X) (c : Op A) :
  preserves observe c -> preserves observe (returns c).
Proof. intros Hc m. rewrite after_returns. apply Hc. Qed.

Lemma preserves_forEachTry {X A : Type} (observe : Machine -> X) (xs : list A) body :
  (forall x, preserves observe (body x)) -> preserves observe (forEachTry xs body).
Proof.
  intros Hbody. induction xs as [|x xs IH]; cbn [forEachTry].
  - apply preserves_ret.
  - apply preserves_andThen; [apply Hbody|]. intros _. apply IH.
Qed.

#[global] Hint Resolve preserves_ret preserves_this preserves_notice : frame.
#[global] Hint Extern 2 (preserves _ (andThen _ _)) =>
  apply preserves_andThen; [|intros ?] : frame.
#[global] Hint Extern 2 (preserves _ (returns _)) =>
  apply preserves_returns : frame.
#[global] Hint Extern 2 (preserves _ (forEachTry _ _)) =>
  apply preserves_forEachTry; intros ? : frame.
#[global] Hint Extern 2 (preserves _ (_ ≫= _)) =>
  apply preserves_bind; [|intros ?] : frame.
#[global] Hint Extern 2 (preserves _ (forEach _ _)) =>
  apply preserves_forEach; intros ? : frame.
#[global] Hint Extern 2 (preserves _ (if _ then _ else _)) =>
  apply preserves_if : frame.
#[global] Hint Extern 3 (preserves _ (match ?x with _ => _ end)) =>
  destruct x : frame.
#[global] Hint Extern 1 (preserves _ (assign _)) =>
  (intros ?; reflexivity) : frame.
#[global] Hint Extern 1 (preserves _ (withWorld _)) =>
  (let m := fresh "m" in
   intros m; unfold after, withWorld;
   match goal with |- context [?f (world m)] => destruct (f (world m)) end;
   reflexivity) : frame.

Lemma preserves_usage_updateTodosState_normalized items :
  preserves usageOf (updateTodosState_normalized items).
Proof. unfold updateTodosState_normalized, emitTodosUpdate. auto 10 with frame. Qed.

Lemma preserves_usage_updateTodosState todos :
  preserves usageOf (updateTodosState todos).
Proof.
  unfold updateTodosState.
  destruct todos; auto using preserves_usage_updateTodosState_normalized with frame.
Qed.

Lemma preserves_usage_updateToolsState names :
  preserves usageOf (updateToolsState names).
Proof. unfold updateToolsState, emitToolsUpdate. auto 10 with frame. Qed.

Lemma preserves_usage_applyMessageUpdates previous next result :
  preserves usageOf (applyMessageUpdates previous next result).
Proof. unfold applyMessageUpdates, emitSessionInfo. auto 20 with frame. Qed.

#[global] Hint Resolve preserves_usage_updateTodosState
  preserves_usage_updateToolsState preserves_usage_applyMessageUpdates : frame.

(** ** The read-coalescer *)

Lemma readPredicate_break message :
  negb (isReadToolUse message) || negb (hasSuccessfulToolResult message)
  = negb (readPredicate message).
Proof.
  unfold readPredicate.
  by destruct (isReadToolUse message), (hasSuccessfulToolResult message).
Qed.

(** The inner loop collects the longest run of mergeable turns that starts
    at [next], whenever the fuel covers the rest of the array. *)
Lemma extendBatch_spec fuel history batch next :
  length history - next <= fuel ->
  extendBatch fuel history batch next =
    Some (batch ++ takeWhile readPredicate (drop next history),
          next + length (takeWhile readPredicate (drop next history))).
Proof.
  revert batch next. induction fuel as [|fuel IH]; intros batch next Hfuel.
  - simpl. rewrite bool_decide_eq_false_2 by lia.
    rewrite drop_ge by lia. simpl. by rewrite app_nil_r, Nat.add_0_r.
  - simpl. case_bool_decide as Hlt.
    + destruct (lookup_lt_is_Some_2 history next Hlt) as [m Hm].
      rewrite Hm. rewrite (drop_S _ _ _ Hm). simpl.
      rewrite readPredicate_break.
      destruct (readPredicate m); simpl.
      * rewrite IH by lia. f_equal. f_equal.
        -- by rewrite <- app_assoc.
        -- lia.
      * by rewrite app_nil_r, Nat.add_0_r.
    + rewrite drop_ge by lia. simpl. by rewrite app_nil_r, Nat.add_0_r.
Qed.

Lemma coalesceRuns_span P pending l w :
  coalesceRuns P pending l w =
    let '(flushed, w1) := flushRun (pending ++ takeWhile P l) w in
    let '(tail, w2) := coalesceRuns P [] (dropWhile P l) w1 in
    (flushed ++ tail, w2).
Proof.
  revert pending w. induction l as [|m l IH]; intros pending w; simpl.
  - rewrite app_nil_r. destruct (flushRun pending w) as [fl w1]. by rewrite app_nil_r.
  - destruct (P m) eqn:HP.
    + rewrite IH. by rewrite <- app_assoc.
    + rewrite app_nil_r. destruct (flushRun pending w) as [fl w1].
      simpl. rewrite HP. simpl.
      by destruct (coalesceRuns P [] l w1) as [tl w2].
Qed.

Lemma coalesceFrom_spec fuel history result index w :
  length history - index <= fuel ->
  coalesceFrom fuel history result index w =
    Some (let '(out, w') := coalesceRuns readPredicate [] (drop index history) w in
          (result ++ out, w')).
Proof.
  revert result index w. induction fuel as [|fuel IH]; intros result index w Hfuel.
  - simpl. rewrite bool_decide_eq_false_2 by lia.
    rewrite drop_ge by lia. simpl. by rewrite app_nil_r.
  - simpl. case_bool_decide as Hlt.
    2:{ rewrite drop_ge by lia. simpl. by rewrite app_nil_r. }
    destruct (lookup_lt_is_Some_2 history index Hlt) as [m Hm].
    rewrite Hm, (drop_S _ _ _ Hm). simpl.
    fold (readPredicate m). destruct (readPredicate m) eqn:HP.
    + rewrite extendBatch_spec by lia.
      rewrite coalesceRuns_span.
      set (rest := drop (S index) history).
      destruct (takeWhile readPredicate rest) as [|m2 run] eqn:Hrun.
      * simpl. rewrite IH by lia. fold rest.
        assert (dropWhile readPredicate rest = rest) as ->.
        { rewrite <- (takeWhile_dropWhile readPredicate rest) at 2. by rewrite Hrun. }
        destruct (coalesceRuns readPredicate [] rest w) as [tl w2].
        by rewrite <- app_assoc.
      * rewrite bool_decide_eq_true_2 by (simpl; lia).
        cbn [app flushRun].
        destruct (createCoalescedReadMessage (m :: m2 :: run) w) as [c w1].
        rewrite IH by (simpl; lia).
        replace (drop (S index + length (m2 :: run)) history)
          with (dropWhile readPredicate rest).
        2:{ rewrite <- drop_length_takeWhile, Hrun. unfold rest.
            rewrite drop_drop. f_equal; lia. }
        destruct (coalesceRuns readPredicate [] (dropWhile readPredicate rest) w1)
          as [tl w2].
        by rewrite <- app_assoc.
    + rewrite IH by lia.
      destruct (coalesceRuns readPredicate [] (drop (S index) history) w) as [tl w2].
      by rewrite <- app_assoc.
Qed.

(** The loops always return, and what they return is the single pass over
    maximal runs. *)
Lemma coalesceReadMessages_returns history w :
  coalesceReadMessages history w = Some (coalesceRuns readPredicate [] history w).
Proof.
  unfold coalesceReadMessages. rewrite coalesceFrom_spec by lia.
  rewrite drop_0. by destruct (coalesceRuns readPredicate [] history w).
Qed.

(** A turn that is not mergeable ends the run before it and passes through. *)
Lemma coalesceRuns_split P pending before m rest w :
  P m = false ->
  coalesceRuns P pending (before ++ m :: rest) w =
    let '(head, w1) := coalesceRuns P pending before w in
    let '(tail, w2) := coalesceRuns P [] rest w1 in
    (head ++ m :: tail, w2).
Proof.
  intros Hm. revert pending w.
  induction before as [|x before IH]; intros pending w; simpl.
  - rewrite Hm. by destruct (flushRun pending w).
  - destruct (P x); [apply IH|].
    destruct (flushRun pending w) as [fl w1].
    rewrite IH.
    destruct (coalesceRuns P [] before w1) as [hd w2].
    destruct (coalesceRuns P [] rest w2) as [tl w3].
    by rewrite <- app_assoc.
Qed.

Lemma coalesceRuns_all P pending run w :
  forallb P run = true ->
  coalesceRuns P pending run w = flushRun (pending ++ run) w.
Proof.
  revert pending. induction run as [|x run IH]; intros pending Hall; simpl.
  - by rewrite app_nil_r.
  - simpl in Hall. apply andb_true_iff in Hall as [-> Hall].
    rewrite IH by done. by rewrite <- app_assoc.
Qed.

(** A maximal run, one that no mergeable turn precedes or follows, is
    flushed on its own: it is kept when it has one turn and replaced by one
    synthetic turn when it has more. *)
Lemma coalesceRuns_maximal_run P before run rest w :
  forallb P run = true ->
  match last before with Some m => P m = false | None => True end ->
  match head rest with Some m => P m = false | None => True end ->
  coalesceRuns P [] (before ++ run ++ rest) w =
    let '(head, w1) := coalesceRuns P [] before w in
    let '(merged, w2) := flushRun run w1 in
    let '(tail, w3) := coalesceRuns P [] rest w2 in
    (head ++ merged ++ tail, w3).
Proof.
  intros Hrun Hbefore Hrest.
  assert (forall w0,
            coalesceRuns P [] (run ++ rest) w0 =
              let '(merged, w2) := flushRun run w0 in
              let '(tail, w3) := coalesceRuns P [] rest w2 in
              (merged ++ tail, w3)) as Hmiddle.
  { intros w0. destruct rest as [|m rest].
    - rewrite app_nil_r, coalesceRuns_all by done. cbn [app coalesceRuns flushRun].
      destruct (flushRun run w0). by rewrite app_nil_r.
    - cbn [head] in Hrest. rewrite coalesceRuns_split by done.
      rewrite coalesceRuns_all by done. cbn [app coalesceRuns].
      rewrite Hrest. destruct (flushRun run w0) as [merged w2]. cbn [flushRun].
      by destruct (coalesceRuns P [] rest w2). }
  destruct before as [|b before _] using rev_ind.
  - cbn [app coalesceRuns flushRun]. rewrite Hmiddle.
    destruct (flushRun run w) as [merged w2].
    by destruct (coalesceRuns P [] rest w2).
  - rewrite last_snoc in Hbefore. rewrite <- app_assoc. cbn [app].
    rewrite !coalesceRuns_split by done. cbn [coalesceRuns flushRun].
    destruct (coalesceRuns P [] before w) as [hd w1]. rewrite Hmiddle.
    destruct (flushRun run w1) as [merged w2].
    destruct (coalesceRuns P [] rest w2) as [tl w3].
    rewrite <- !app_assoc. done.
Qed.

Lemma createCoalescedReadMessage_not_read batch w :
  readPredicate (createCoalescedReadMessage batch w).1 = false.
Proof.
  unfold readPredicate, createCoalescedReadMessage.
  destruct (batch !! 0); reflexivity.
Qed.

Section fixpoint.
Context (P : ChatMessage -> bool).
Hypothesis synthetic_not_mergeable :
  forall batch w, P (createCoalescedReadMessage batch w).1 = false.

Lemma coalesceRuns_flushed pending w w' :
  forallb P pending = true ->
  coalesceRuns P [] (flushRun pending w).1 w' = ((flushRun pending w).1, w').
Proof.
  intros Hall. destruct pending as [|x [|y pending]].
  - done.
  - simpl in *. apply andb_true_iff in Hall as [-> _]. done.
  - pose proof (synthetic_not_mergeable (x :: y :: pending) w) as Hs.
    cbn [flushRun].
    destruct (createCoalescedReadMessage (x :: y :: pending) w) as [c w1].
    cbn -[createCoalescedReadMessage] in *. by rewrite Hs.
Qed.

Lemma coalesceRuns_fixpoint pending l w w' :
  forallb P pending = true ->
  coalesceRuns P [] (coalesceRuns P pending l w).1 w'
  = ((coalesceRuns P pending l w).1, w').
Proof.
  revert pending w w'. induction l as [|m l IH]; intros pending w w' Hall; simpl.
  - by apply coalesceRuns_flushed.
  - destruct (P m) eqn:Hm.
    + apply IH. rewrite forallb_app. simpl. by rewrite Hall, Hm.
    + pose proof (coalesceRuns_flushed pending w w' Hall) as Hfl.
      destruct (flushRun pending w) as [fl w1]. simpl in Hfl.
      pose proof (IH [] w1 w' eq_refl) as Htl.
      destruct (coalesceRuns P [] l w1) as [tl w2]. simpl in *.
      rewrite coalesceRuns_split by done.
      by rewrite Hfl, Htl.
Qed.
End fixpoint.

Lemma coalesceReadMessages_fixpoint history w w' :
  coalesceReadMessages (coalesceRuns readPredicate [] history w).1 w'
  = Some ((coalesceRuns readPredicate [] history w).1, w').
Proof.
  rewrite coalesceReadMessages_returns. f_equal.
  apply coalesceRuns_fixpoint; [apply createCoalescedReadMessage_not_read|done].
Qed.

Lemma coalescedHistory_coalesced history w : coalescedHistory (coalesced history w).1.
Proof.
  intros w'. unfold coalesced. rewrite (coalesceReadMessages_returns history w).
  apply coalesceReadMessages_fixpoint.
Qed.

Lemma coalescedHistory_nil : coalescedHistory [].
Proof. by intros w. Qed.

Lemma readPredicate_user message :
  msg_type message = "user" -> readPredicate message = false.
Proof. intros Htype. unfold readPredicate, isReadToolUse. by rewrite Htype. Qed.

Lemma coalesced_snoc history message w :
  coalescedHistory history ->
  readPredicate message = false ->
  coalesced (history ++ [message]) w = (history ++ [message], w).
Proof.
  intros Hstable Hmessage. unfold coalesced.
  rewrite coalesceReadMessages_returns, coalesceRuns_split by done.
  specialize (Hstable w). rewrite coalesceReadMessages_returns in Hstable.
  injection Hstable as ->. reflexivity.
Qed.

(** What the source computes.  [coalesceReadMessages] always returns, and
    its result is that of a single left-to-right pass ([coalesceRuns]) in
    which every maximal run of consecutive turns satisfying the predicate of
    the source is kept when it has one turn and replaced by exactly one
    synthetic turn when it has two or more, every other turn passing through
    unchanged and in order.  The synthetic turn is an assistant turn with
    the id and the timestamp of the first turn of the run; its single part
    is an invocation named ReadCoalesced whose input holds, for each turn of
    the run in order, the input of the first invocation part of that turn,
    and whose result slot carries a non-error result stating the number of
    turns merged.  The predicate of the source holds of an assistant turn
    that has some invocation part named Read and whose first part carries a
    non-error result. *)
Lemma coalesceReadMessages_merges_runs (history : list ChatMessage) (w : World) :
  coalesceReadMessages history w = Some (coalesceRuns readPredicate [] history w)
  /\ (forall first rest w0,
        createCoalescedReadMessage (first :: rest) w0
        = ({| msg_ref := allocated w0; msg_type := "assistant";
              msg_content :=
                [ {| part_content :=
                       ToolUseBlock ("coalesced_" +:+ entropy w0 (drawn w0))
                         "ReadCoalesced"
                         (JObject
                            [("fileReads",
                              JArray
                                (map (fun message =>
                                        firstToolUseInput (msg_content message))
                                   (first :: rest)))]);
                     toolResult :=
                       Some {| tool_use_id := "coalesced_" +:+ entropy w0 (drawn w0);
                               result_content :=
                                 ResultString
                                   ("Successfully read "
                                    +:+ pretty (length (first :: rest)) +:+ " files");
                               is_error := false |} |} ];
              msg_timestamp := msg_timestamp first; msg_id := msg_id first |},
           set_allocated (S (allocated w0)) (set_drawn (S (drawn w0)) w0)))
  /\ (forall message,
        readPredicate message
        = bool_decide (msg_type message = "assistant")
          && existsb
               (fun part =>
                  match part_content part with
                  | ToolUseBlock _ name _ => bool_decide (name = "Read")
                  | _ => false
                  end)
               (msg_content message)
          && match msg_content message with
             | firstPart :: _ =>
                 match toolResult firstPart with
                 | Some result => negb (is_error result)
                 | None => false
                 end
             | [] => false
             end).
Proof.
  split; [apply coalesceReadMessages_returns|]. split; [done|].
  intros message. unfold readPredicate, isReadToolUse, hasSuccessfulToolResult.
  destruct (bool_decide (msg_type message = "assistant")); [|done].
  cbn [negb andb orb]. destruct (msg_content message); [|done].
  cbn. done.
Qed.

(** The pass depends on the predicate through the turns of the history
    only. *)
Lemma coalesceRuns_ext (P Q : ChatMessage -> bool) pending history w :
  Forall (fun message => P message = Q message) history ->
  coalesceRuns P pending history w = coalesceRuns Q pending history w.
Proof.
  intros Hsame. revert pending w.
  induction Hsame as [|message rest Hmessage _ IH]; intros pending w; [done|].
  cbn [coalesceRuns]. rewrite Hmessage, IH.
  destruct (Q message); [done|]. destruct (flushRun pending w). by rewrite IH.
Qed.

(** On a turn with at most one part the predicate of the source is the
    predicate of the specification. *)
Lemma readPredicate_single message :
  length (msg_content message) <= 1 ->
  readPredicate message = singleSuccessfulRead message.
Proof.
  unfold readPredicate, isReadToolUse, hasSuccessfulToolResult, singleSuccessfulRead.
  destruct (bool_decide (msg_type message = "assistant")); [|done].
  destruct (msg_content message) as [|part [|second rest]]; cbn; [done| |lia].
  intros _. destruct (part_content part); cbn; try done.
  rewrite orb_false_r.
  destruct (toolResult part); [done|]. by rewrite andb_false_r.
Qed.

(** C3 (the source departs from it).  On a history whose turns hold at most
    one part each, and more generally whenever the predicate of the source
    agrees on the turns of the history with the predicate of the claim (an
    assistant turn that is a single invocation of Read carrying a non-error
    result), [coalesceReadMessages] is the pass the claim describes.  On
    turns with several parts the two differ, and the source merges turns
    that are not single reads.  A turn made of a successful read followed by
    a pending Bash invocation is merged with the read turn next to it, so
    that the Bash invocation is in no turn of the output.  A turn made of a
    successful Bash invocation followed by a pending read is merged as well:
    the synthetic turn reports two files read and lists the input of the
    Bash invocation as a file read, while the read of that turn has no
    result.  The pass of the claim leaves both histories as they are. *)
Theorem coalescer_merges_turns_that_are_not_single_reads :
  (forall history w,
     Forall (fun message => readPredicate message = singleSuccessfulRead message)
       history ->
     coalesceReadMessages history w
     = Some (coalesceRuns singleSuccessfulRead [] history w))
  /\ (forall history w,
        Forall (fun message => length (msg_content message) <= 1) history ->
        coalesceReadMessages history w
        = Some (coalesceRuns singleSuccessfulRead [] history w))
  /\ (let history := [readAndBashTurn; readTurn] in
      let merged :=
        {| msg_ref := 100; msg_type := "assistant";
           msg_content :=
             [ {| part_content :=
                    ToolUseBlock "coalesced_a" "ReadCoalesced"
                      (JObject
                         [("fileReads", JArray [JString "a.txt"; JString "b.txt"])]);
                  toolResult :=
                    Some {| tool_use_id := "coalesced_a";
                            result_content :=
                              ResultString "Successfully read 2 files";
                            is_error := false |} |} ];
           msg_timestamp := 1; msg_id := "turn-0" |} in
      singleSuccessfulRead readAndBashTurn = false
      /\ (coalesceRuns singleSuccessfulRead [] history exampleWorld).1 = history
      /\ (fst <$> coalesceReadMessages history exampleWorld) = Some [merged]
      /\ hasInvocation history "t2" = true
      /\ hasInvocation [merged] "t2" = false)
  /\ (let history := [bashAndPendingReadTurn; readTurn] in
      let merged :=
        {| msg_ref := 100; msg_type := "assistant";
           msg_content :=
             [ {| part_content :=
                    ToolUseBlock "coalesced_a" "ReadCoalesced"
                      (JObject
                         [("fileReads", JArray [JString "make"; JString "b.txt"])]);
                  toolResult :=
                    Some {| tool_use_id := "coalesced_a";
                            result_content :=
                              ResultString "Successfully read 2 files";
                            is_error := false |} |} ];
           msg_timestamp := 1; msg_id := "turn-0" |} in
      singleSuccessfulRead bashAndPendingReadTurn = false
      /\ (coalesceRuns singleSuccessfulRead [] history exampleWorld).1 = history
      /\ (fst <$> coalesceReadMessages history exampleWorld) = Some [merged]
      /\ hasInvocation history "t5" = true
      /\ hasInvocation [merged] "t5" = false).
Proof.
  assert (forall history w,
            Forall (fun message => readPredicate message = singleSuccessfulRead message)
              history ->
            coalesceReadMessages history w
            = Some (coalesceRuns singleSuccessfulRead [] history w)) as Hagree.
  { intros history w Hsame. rewrite coalesceReadMessages_returns.
    by rewrite (coalesceRuns_ext readPredicate singleSuccessfulRead). }
  split; [exact Hagree|]. split.
  - intros history w Hsingle. apply Hagree.
    eapply Forall_impl; [exact Hsingle|]. intros message. apply readPredicate_single.
  - cbv zeta. split; repeat apply conj; reflexivity.
Qed.

(** C4.  Coalescing is idempotent: the coalescer returns on every history,
    and applied to its own output, in any world, it returns that output
    again and leaves the world as it found it. *)
Theorem coalesceReadMessages_idempotent (history : list ChatMessage) (w w' : World) :
  exists output w1,
    coalesceReadMessages history w = Some (output, w1)
    /\ coalesceReadMessages output w' = Some (output, w').
Proof.
  exists (coalesceRuns readPredicate [] history w).1,
         (coalesceRuns readPredicate [] history w).2.
  split.
  - rewrite coalesceReadMessages_returns. by destruct (coalesceRuns _ _ _ _).
  - apply coalesceReadMessages_fixpoint.
Qed.

(** ** The tool-result linker *)

Lemma scanPending_once parts toolUseId position :
  length (filter (fun part => isToolUseWithId (part_content part) toolUseId = true)
            parts) <= 1 ->
  match scanPending parts toolUseId position with
  | PendingFound part => scanEmpty parts toolUseId position = Some part
  | _ => scanEmpty parts toolUseId position = None
  end.
Proof.
  revert position.
  induction parts as [|part parts IH]; intros position Hone;
    cbn [scanPending scanEmpty].
  - done.
  - rewrite filter_cons in Hone.
    destruct (isToolUseWithId (part_content part) toolUseId) eqn:Hid; cbn [andb].
    + rewrite decide_True in Hone by done. cbn [length] in Hone.
      destruct (toolResult part); cbn [isSome negb]; [|done].
      assert (filter (fun part0 => isToolUseWithId (part_content part0) toolUseId = true)
                parts = []) as Hnil.
      { apply length_zero_iff_nil. lia. }
      clear -Hnil. generalize (S position) as start.
      induction parts as [|q parts IH]; intros start; cbn [scanEmpty]; [done|].
      rewrite filter_cons in Hnil.
      destruct (isToolUseWithId (part_content q) toolUseId) eqn:Hq.
      * rewrite decide_True in Hnil by done. done.
      * rewrite decide_False in Hnil by (rewrite ?Hq; done). cbn [andb]. by apply IH.
    + rewrite decide_False in Hone by (rewrite ?Hid; done). by apply IH.
Qed.

Lemma findPendingFrom_once history toolUseId remaining :
  Forall (fun message => invocationsOf toolUseId message <= 1) history ->
  findPendingFrom history toolUseId remaining = findEmptyFrom history toolUseId remaining.
Proof.
  intros Hall. induction remaining as [|index IH]; simpl; [done|].
  destruct (history !! index) as [message|] eqn:Hm; [|done].
  destruct (negb _); [done|].
  pose proof (proj1 (Forall_lookup _ _) Hall _ _ Hm) as Hone.
  pose proof (scanPending_once (msg_content message) toolUseId 0 Hone) as Hscan.
  destruct (scanPending _ _ _); rewrite Hscan; done.
Qed.

(** On a history in which no turn holds two invocation parts with the id,
    the source finds the target the specification describes. *)
Lemma findMostRecentToolUse_linkTarget history toolUseId :
  Forall (fun message => invocationsOf toolUseId message <= 1) history ->
  findMostRecentToolUse history toolUseId = linkTarget history toolUseId.
Proof.
  intros Hall. unfold findMostRecentToolUse, linkTarget.
  by rewrite findPendingFrom_once.
Qed.

(** Attaching a result replaces the slot of the matched part and nothing
    else. *)
Lemma setToolResultAt_target history index position message part block :
  history !! index = Some message ->
  msg_content message !! position = Some part ->
  setToolResultAt history (index, position) block
  = <[index :=
        {| msg_ref := msg_ref message; msg_type := msg_type message;
           msg_content := <[position := setToolResult part block]> (msg_content message);
           msg_timestamp := msg_timestamp message; msg_id := msg_id message |}]>
      history.
Proof. intros Hm Hp. unfold setToolResultAt. cbn [fst snd]. by rewrite Hm, Hp. Qed.

Lemma scanAny_None parts toolUseId position :
  existsb (fun part => isToolUseWithId (part_content part) toolUseId) parts = false ->
  scanAny parts toolUseId position = None
  /\ scanPending parts toolUseId position = PendingNone.
Proof.
  revert position. induction parts as [|part rest IH]; intros position Hnone; [done|].
  cbn [existsb] in Hnone. apply orb_false_iff in Hnone as [Hpart Hrest].
  cbn [scanAny scanPending]. rewrite Hpart. by apply IH.
Qed.

Lemma find_unmatched history toolUseId remaining :
  hasInvocation history toolUseId = false ->
  findAnyFrom history toolUseId remaining = None
  /\ findPendingFrom history toolUseId remaining = None.
Proof.
  intros Hnone. induction remaining as [|index [IH1 IH2]]; [done|].
  cbn [findAnyFrom findPendingFrom].
  destruct (history !! index) as [message|] eqn:Hm; [|done].
  destruct (decide (msg_type message = "assistant")) as [Ha|Ha].
  - rewrite (bool_decide_eq_true_2 _ Ha). cbn [negb].
    assert (existsb (fun part => isToolUseWithId (part_content part) toolUseId)
              (msg_content message) = false) as Hparts.
    { unfold hasInvocation in Hnone.
      destruct (existsb _ (msg_content message)) eqn:Hex; [|done].
      assert (existsb
        (fun message => bool_decide (msg_type message = "assistant")
           && existsb (fun part => isToolUseWithId (part_content part) toolUseId)
                (msg_content message)) history = true) as Htrue; [|congruence].
      apply existsb_exists. exists message. split.
      - apply list_elem_of_In. by eapply list_elem_of_lookup_2.
      - by rewrite (bool_decide_eq_true_2 _ Ha), Hex. }
    destruct (scanAny_None _ _ 0 Hparts) as [-> ->]. done.
  - rewrite (bool_decide_eq_false_2 _ Ha). done.
Qed.

Lemma findMostRecentToolUse_unmatched history toolUseId :
  hasInvocation history toolUseId = false ->
  findMostRecentToolUse history toolUseId = None.
Proof.
  intros Hnone. unfold findMostRecentToolUse.
  by destruct (find_unmatched history toolUseId (length history) Hnone) as [-> ->].
Qed.

Lemma hasInvocation_setToolResultAt history target block toolUseId :
  hasInvocation (setToolResultAt history target block) toolUseId
  = hasInvocation history toolUseId.
Proof.
  unfold setToolResultAt, hasInvocation.
  destruct (history !! target.1) as [message|] eqn:Hm; [|done].
  eapply existsb_insert; [done|]. cbn [msg_type msg_content].
  f_equal. destruct (msg_content message !! target.2) as [part|] eqn:Hp; [|done].
  eapply existsb_insert; done.
Qed.

Lemma hasInvocation_linkBlock state block toolUseId :
  hasInvocation (link_messages (linkBlock state block)) toolUseId
  = hasInvocation (link_messages state) toolUseId.
Proof.
  unfold linkBlock. destruct block; try done.
  destruct (findMostRecentToolUse _ _); [|done].
  cbn [link_messages]. apply hasInvocation_setToolResultAt.
Qed.

Lemma hasInvocation_foldl blocks state toolUseId :
  hasInvocation (link_messages (foldl linkBlock state blocks)) toolUseId
  = hasInvocation (link_messages state) toolUseId.
Proof.
  revert state. induction blocks as [|block rest IH]; intros state; [done|].
  cbn [foldl]. by rewrite IH, hasInvocation_linkBlock.
Qed.

Lemma linkBlock_unmatched state result :
  hasInvocation (link_messages state) (tool_use_id result) = false ->
  linkBlock state (ToolResultBlock result) = state.
Proof.
  intros Hnone. unfold linkBlock.
  by rewrite findMostRecentToolUse_unmatched.
Qed.

(** A result block that answers no invocation of the history leaves the
    loop over the blocks as if it were not in the fragment. *)
Lemma foldl_linkBlock_skips state before result rest :
  hasInvocation (link_messages state) (tool_use_id result) = false ->
  foldl linkBlock state (before ++ ToolResultBlock result :: rest)
  = foldl linkBlock state (before ++ rest).
Proof.
  intros Hnone. rewrite !foldl_app. cbn [foldl].
  rewrite linkBlock_unmatched; [done|]. by rewrite hasInvocation_foldl.
Qed.

Lemma foldl_linkBlock_unmatched state blocks :
  unmatchedResults (link_messages state) blocks = true ->
  foldl linkBlock state blocks = state.
Proof.
  induction blocks as [|block rest IH]; [done|].
  cbn [unmatchedResults forallb foldl]. intros [Hblock Hrest]%andb_true_iff.
  assert (linkBlock state block = state) as ->; [|by apply IH].
  destruct block; try done. apply linkBlock_unmatched.
  by apply negb_true_iff.
Qed.

Lemma createChatMessage_user incoming blocks w :
  sdk_type incoming = "user" ->
  sdk_content incoming = BlockContent blocks ->
  createChatMessageFromSDKMessage incoming w
  = (Some (renderedUserTurn incoming blocks w),
     set_allocated (S (allocated (extractMessageUuid incoming w).2))
       (extractMessageUuid incoming w).2).
Proof.
  intros Htype Hcontent. unfold createChatMessageFromSDKMessage, renderedUserTurn.
  destruct (extractMessageUuid incoming w) as [id w1].
  rewrite Htype, Hcontent. reflexivity.
Qed.

Lemma appendRenderableMessage_unmatched history incoming blocks w :
  sdk_type incoming = "user" ->
  sdk_content incoming = BlockContent blocks ->
  unmatchedResults history blocks = true ->
  appendRenderableMessage history incoming w
  = (history ++ [renderedUserTurn incoming blocks w],
     {| addedMessage := Some (renderedUserTurn incoming blocks w);
        updatedMessages := []; toolResultUpdates := [] |},
     set_allocated (S (allocated (extractMessageUuid incoming w).2))
       (extractMessageUuid incoming w).2).
Proof.
  intros Htype Hcontent Hunmatched. unfold appendRenderableMessage, linkToolResults.
  rewrite (bool_decide_eq_true_2 _ Htype), Hcontent.
  rewrite foldl_linkBlock_unmatched by done.
  rewrite (createChatMessage_user incoming blocks w Htype Hcontent). reflexivity.
Qed.

(** C1 (the source departs from it).  On a history whose only turn is an
    assistant turn with two invocation parts of id X, the first answered and
    the second with an empty slot, the specification's target for a result
    answering X is the second part; [findMostRecentToolUse] returns the first
    part, and [appendRenderableMessage] overwrites the result of the first
    part and leaves the slot of the second part empty. *)
Theorem result_overwrites_answered_part_beside_pending_one :
  let history := [twiceInvokedTurn] in
  let incoming := userFragment "u1" [ToolResultBlock (errorResult "X")] in
  let linked := (appendRenderableMessage history incoming exampleWorld).1.1 in
  (toolResult <$> msg_content twiceInvokedTurn !! 1) = Some None
  /\ linkTarget history "X" = Some (0, 1)
  /\ findMostRecentToolUse history "X" = Some (0, 0)
  /\ (map toolResult <$> (msg_content <$> linked !! 0))
     = Some [Some (errorResult "X"); None].
Proof. repeat split. Qed.

(** ** The history differ *)

Lemma buildMessageMap_from acc history :
  foldl
    (fun map message =>
       if negb (JSMap.has map (msg_id message))
       then JSMap.set map (msg_id message) message
       else map)
    acc history
  = acc ++ map entryOf (firstPerId (JSMap.keys acc) history).
Proof.
  revert acc. induction history as [|message rest IH]; intros acc; simpl.
  - by rewrite app_nil_r.
  - rewrite JSMapFacts.has_keys. case_bool_decide as Hin; simpl.
    + apply IH.
    + rewrite JSMapFacts.set_fresh
        by (rewrite JSMapFacts.has_keys; by apply bool_decide_eq_false_2).
      rewrite IH. unfold JSMap.keys. rewrite fmap_app. simpl.
      by rewrite <- app_assoc.
Qed.

(** The map of a snapshot holds the first turn of each id, in order. *)
Lemma buildMessageMap_entries history :
  buildMessageMap history = map entryOf (distinctTurns history).
Proof. unfold buildMessageMap. by rewrite buildMessageMap_from. Qed.

Lemma firstPerId_ids seen history id :
  id ∈ map msg_id (firstPerId seen history) <-> id ∈ map msg_id history /\ id ∉ seen.
Proof.
  revert seen. induction history as [|message rest IH]; intros seen; simpl.
  - rewrite elem_of_nil. naive_solver.
  - case_bool_decide as Hin; simpl.
    + rewrite IH, elem_of_cons. naive_solver.
    + rewrite !elem_of_cons, IH, elem_of_app, list_elem_of_singleton.
      destruct (decide (id = msg_id message)); naive_solver.
Qed.

Lemma firstPerId_NoDup seen history : NoDup (map msg_id (firstPerId seen history)).
Proof.
  revert seen. induction history as [|message rest IH]; intros seen; simpl.
  - constructor.
  - case_bool_decide; [apply IH|]. simpl. constructor; [|apply IH].
    rewrite firstPerId_ids, elem_of_app, list_elem_of_singleton. naive_solver.
Qed.

Lemma firstPerId_id seen history :
  NoDup (map msg_id history) ->
  (forall id, id ∈ map msg_id history -> id ∉ seen) ->
  firstPerId seen history = history.
Proof.
  revert seen.
  induction history as [|message rest IH]; intros seen Hnd Hseen; simpl; [done|].
  simpl in Hnd. apply NoDup_cons in Hnd as [Hfresh Hnd].
  rewrite bool_decide_eq_false_2 by (apply Hseen; simpl; by left).
  f_equal. apply IH; [done|]. intros id Hid.
  rewrite elem_of_app, list_elem_of_singleton. intros [Hs | ->]; [|done].
  apply (Hseen id); [simpl; by right|done].
Qed.

(** A snapshot whose turns have pairwise distinct ids is its own list of
    distinct turns. *)
Lemma distinctTurns_NoDup history :
  NoDup (map msg_id history) -> distinctTurns history = history.
Proof. intros Hnd. apply firstPerId_id; [done|]. intros id _. apply not_elem_of_nil. Qed.

Lemma get_entries (turns : list ChatMessage) id :
  JSMap.get (map entryOf turns) id = firstWithId turns id.
Proof. induction turns as [|m l IH]; simpl; [done|]. by rewrite IH. Qed.

Lemma firstWithId_firstPerId seen history id :
  firstWithId (firstPerId seen history) id
  = if bool_decide (id ∈ seen) then None else firstWithId history id.
Proof.
  revert seen. induction history as [|message rest IH]; intros seen.
  - cbn [firstPerId firstWithId]. by destruct (bool_decide (id ∈ seen)).
  - cbn [firstPerId firstWithId].
    destruct (decide (msg_id message ∈ seen)) as [Hin|Hin].
    + rewrite (bool_decide_eq_true_2 _ Hin), IH.
      destruct (decide (id ∈ seen)) as [Hid|Hid].
      * by rewrite !(bool_decide_eq_true_2 _ Hid).
      * rewrite !(bool_decide_eq_false_2 _ Hid).
        rewrite (bool_decide_eq_false_2 (msg_id message = id)); [done|].
        by intros <-.
    + rewrite (bool_decide_eq_false_2 _ Hin). cbn [firstWithId].
      destruct (decide (msg_id message = id)) as [Heq|Hne].
      * rewrite !(bool_decide_eq_true_2 _ Heq).
        rewrite bool_decide_eq_false_2; [done|]. by rewrite <- Heq.
      * rewrite !(bool_decide_eq_false_2 _ Hne), IH.
        apply (f_equal (fun b : bool => if b then None else firstWithId rest id)).
        apply bool_decide_ext. rewrite elem_of_app, list_elem_of_singleton.
        naive_solver.
Qed.

Lemma get_buildMessageMap history id :
  JSMap.get (buildMessageMap history) id = firstWithId history id.
Proof.
  rewrite buildMessageMap_entries, get_entries. unfold distinctTurns.
  rewrite firstWithId_firstPerId.
  rewrite bool_decide_eq_false_2; [done|apply not_elem_of_nil].
Qed.

Lemma firstWithId_Some history id :
  isSome (firstWithId history id) = bool_decide (id ∈ map msg_id history).
Proof.
  induction history as [|m l IH].
  - symmetry. apply bool_decide_eq_false_2, not_elem_of_nil.
  - cbn [firstWithId map]. destruct (decide (msg_id m = id)) as [Heq|Hne].
    + rewrite (bool_decide_eq_true_2 _ Heq). symmetry.
      apply bool_decide_eq_true_2. rewrite <- Heq. left.
    + rewrite (bool_decide_eq_false_2 _ Hne), IH.
      apply bool_decide_ext. rewrite elem_of_cons. naive_solver.
Qed.

Lemma has_buildMessageMap history id :
  JSMap.has (buildMessageMap history) id = bool_decide (id ∈ map msg_id history).
Proof. unfold JSMap.has. rewrite get_buildMessageMap. apply firstWithId_Some. Qed.

Lemma firstWithId_app history rest id :
  firstWithId (history ++ rest) id
  = match firstWithId history id with
    | Some message => Some message
    | None => firstWithId rest id
    end.
Proof.
  induction history as [|m l IH]; [done|]. cbn [app firstWithId].
  by destruct (bool_decide (msg_id m = id)).
Qed.

Lemma firstPerId_first seen history message :
  message ∈ firstPerId seen history ->
  firstWithId history (msg_id message) = Some message.
Proof.
  revert seen.
  induction history as [|x rest IH]; intros seen; cbn [firstPerId firstWithId].
  - by intros ?%elem_of_nil.
  - destruct (decide (msg_id x ∈ seen)) as [Hin|Hin].
    + rewrite (bool_decide_eq_true_2 _ Hin). intros Hm.
      assert (msg_id message ∉ seen) as Hfresh.
      { eapply (firstPerId_ids seen rest (msg_id message)).
        apply list_elem_of_fmap. eauto. }
      rewrite bool_decide_eq_false_2 by (intros Heq; apply Hfresh; by rewrite <- Heq).
      by eapply IH.
    + rewrite (bool_decide_eq_false_2 _ Hin). intros [->|Hm]%elem_of_cons.
      * by rewrite bool_decide_eq_true_2.
      * assert (msg_id message ∉ seen ++ [msg_id x]) as Hfresh.
        { eapply (firstPerId_ids _ rest (msg_id message)).
          apply list_elem_of_fmap. eauto. }
        rewrite bool_decide_eq_false_2.
        2:{ intros Heq. apply Hfresh. rewrite elem_of_app, list_elem_of_singleton.
            by right. }
        by eapply IH.
Qed.

Lemma differentObject_same message : differentObject message message = false.
Proof. unfold differentObject. by rewrite Nat.eqb_refl. Qed.

Lemma filter_entries (keep : string * ChatMessage -> bool) (turns : list ChatMessage) :
  filter (fun entry => keep entry = true) (map entryOf turns)
  = map entryOf (filter (fun message => keep (entryOf message) = true) turns).
Proof.
  induction turns as [|m l IH]; [done|]. cbn [map].
  destruct (keep (entryOf m)) eqn:Hm.
  - rewrite !filter_cons_True by done. cbn [map]. by rewrite IH.
  - rewrite !filter_cons_False by (rewrite Hm; done). done.
Qed.

Lemma values_entries (turns : list ChatMessage) :
  JSMap.values (map entryOf turns) = turns.
Proof.
  unfold JSMap.values. induction turns as [|m l IH]; [done|]. cbn. by rewrite IH.
Qed.

Lemma keys_entries (turns : list ChatMessage) :
  JSMap.keys (map entryOf turns) = map msg_id turns.
Proof.
  unfold JSMap.keys. induction turns as [|m l IH]; [done|]. cbn. by rewrite IH.
Qed.

(** Setting keys that are not yet in a map appends the entries. *)
Lemma foldl_set_fresh {V : Type} (keep : string * V -> bool)
    (entries acc : list (string * V)) :
  NoDup (JSMap.keys entries) ->
  (forall k, k ∈ JSMap.keys entries -> k ∉ JSMap.keys acc) ->
  foldl (fun updatedMap entry =>
           if keep entry then JSMap.set updatedMap entry.1 entry.2 else updatedMap)
        acc entries
  = acc ++ filter (fun entry => keep entry = true) entries.
Proof.
  revert acc. induction entries as [|[k v] entries IH]; intros acc Hnd Hfresh.
  - by rewrite app_nil_r.
  - unfold JSMap.keys in Hnd. cbn [fmap list_fmap fst] in Hnd.
    apply NoDup_cons in Hnd as [Hk Hnd].
    cbn [foldl]. destruct (keep (k, v)) eqn:Hkeep.
    + rewrite filter_cons_True by done. cbn [fst snd].
      rewrite JSMapFacts.set_fresh.
      2:{ rewrite JSMapFacts.has_keys. apply bool_decide_eq_false_2.
          apply Hfresh. unfold JSMap.keys. cbn. left. }
      rewrite IH; [by rewrite <- app_assoc|done|].
      intros k' Hk'. unfold JSMap.keys. rewrite fmap_app, elem_of_app.
      cbn. rewrite list_elem_of_singleton. intros [Hacc| ->]; [|done].
      eapply Hfresh; [|exact Hacc]. unfold JSMap.keys. cbn. by right.
    + rewrite filter_cons_False by (rewrite Hkeep; done).
      apply IH; [done|]. intros k' Hk'. apply Hfresh. unfold JSMap.keys. cbn.
      by right.
Qed.

Lemma diffMessages_added previous next explicitlyUpdated :
  added (diffMessages previous next explicitlyUpdated)
  = filter (fun message => msg_id message ∉ map msg_id previous) (distinctTurns next).
Proof.
  unfold diffMessages. cbn [added].
  rewrite (foldl_collect
             (fun entry => negb (JSMap.has (buildMessageMap previous) entry.1)) snd).
  cbn [app]. rewrite (buildMessageMap_entries next).
  rewrite (filter_entries
             (fun entry => negb (JSMap.has (buildMessageMap previous) entry.1))).
  rewrite map_map. cbn [entryOf snd]. rewrite map_id.
  apply list_filter_iff. intros message. cbn [entryOf fst].
  rewrite has_buildMessageMap, negb_true_iff, bool_decide_eq_false. done.
Qed.

Lemma diffMessages_removed previous next explicitlyUpdated :
  removed (diffMessages previous next explicitlyUpdated)
  = filter (fun id => id ∉ map msg_id next) (map msg_id (distinctTurns previous)).
Proof.
  unfold diffMessages. cbn [removed].
  rewrite (foldl_collect
             (fun entry => negb (JSMap.has (buildMessageMap next) entry.1)) fst).
  cbn [app]. rewrite (buildMessageMap_entries previous).
  induction (distinctTurns previous) as [|m l IH]; [done|].
  cbn [map]. rewrite !filter_cons. cbn [entryOf fst].
  rewrite has_buildMessageMap.
  destruct (decide (msg_id m ∈ map msg_id next)) as [Hin|Hin].
  - rewrite (bool_decide_eq_true_2 _ Hin). cbn [negb].
    rewrite decide_False by done. rewrite decide_False by (intros Hn; by apply Hn).
    done.
  - rewrite (bool_decide_eq_false_2 _ Hin). cbn [negb].
    rewrite decide_True by done. rewrite decide_True by done.
    cbn [map fst]. by rewrite IH.
Qed.

Lemma diffMessages_updated previous next explicitlyUpdated :
  updated (diffMessages previous next explicitlyUpdated)
  = filter (fun message => isUpdated previous explicitlyUpdated message = true)
      (distinctTurns next).
Proof.
  unfold diffMessages. cbn [updated].
  set (keep := fun entry : string * ChatMessage =>
                 isUpdated previous explicitlyUpdated entry.2).
  rewrite (buildMessageMap_entries next).
  assert (forall acc entries,
    Forall (fun entry : string * ChatMessage => entry.1 = msg_id entry.2) entries ->
    foldl
      (fun (updatedMap : JSMap.t ChatMessage) (entry : string * ChatMessage) =>
         if bool_decide (entry.1 ∈ map msg_id explicitlyUpdated)
         then JSMap.set updatedMap entry.1 entry.2
         else
           match JSMap.get (buildMessageMap previous) entry.1 with
           | Some previousMessage =>
               if differentObject previousMessage entry.2
               then JSMap.set updatedMap entry.1 entry.2
               else updatedMap
           | None => updatedMap
           end) acc entries
    = foldl (fun updatedMap entry =>
               if keep entry then JSMap.set updatedMap entry.1 entry.2 else updatedMap)
        acc entries) as Hsame.
  { intros acc entries Hids. revert acc.
    induction Hids as [|entry entries Hid _ IH]; intros acc; [done|].
    cbn [foldl]. rewrite <- IH. f_equal.
    unfold keep, isUpdated. rewrite <- Hid, get_buildMessageMap.
    destruct (bool_decide _); [done|]. cbn [orb].
    destruct (firstWithId previous entry.1) as [p|]; [|done].
    by destruct (differentObject p entry.2). }
  rewrite Hsame.
  2:{ apply Forall_forall. intros entry [m [-> _]]%list_elem_of_fmap. done. }
  rewrite foldl_set_fresh.
  - unfold JSMap.empty. cbn [app].
    rewrite (filter_entries keep). by rewrite values_entries.
  - rewrite keys_entries. apply firstPerId_NoDup.
  - intros k _. apply not_elem_of_nil.
Qed.

Lemma diffMessages_self history :
  diffMessages history history [] = {| added := []; updated := []; removed := [] |}.
Proof.
  pose proof (diffMessages_added history history []) as Ha.
  pose proof (diffMessages_removed history history []) as Hr.
  pose proof (diffMessages_updated history history []) as Hu.
  destruct (diffMessages history history []) as [a u r].
  cbn [added updated removed] in *.
  subst a u r. f_equal.
  - apply filter_none. intros m Hm Hnot. apply Hnot.
    eapply (firstPerId_ids [] history (msg_id m)). apply list_elem_of_fmap. eauto.
  - apply filter_none. intros m Hm. unfold isUpdated.
    rewrite (firstPerId_first _ _ _ Hm), differentObject_same.
    rewrite bool_decide_eq_false_2 by apply not_elem_of_nil. done.
  - apply filter_none. intros id Hid Hnot. apply Hnot.
    eapply (firstPerId_ids [] history id). exact Hid.
Qed.

(** Appending a turn to a snapshot updates and removes nothing. *)
Lemma diffMessages_appended history message :
  updated (diffMessages history (history ++ [message]) []) = []
  /\ removed (diffMessages history (history ++ [message]) []) = [].
Proof.
  rewrite diffMessages_updated, diffMessages_removed. split.
  - apply filter_none. intros current Hcurrent. unfold isUpdated.
    rewrite bool_decide_eq_false_2 by apply not_elem_of_nil. cbn [orb].
    pose proof (firstPerId_first _ _ _ Hcurrent) as Hfirst.
    rewrite firstWithId_app in Hfirst.
    destruct (firstWithId history (msg_id current)) as [previous|]; [|done].
    injection Hfirst as ->. by rewrite differentObject_same.
  - apply filter_none. intros id Hid Hnot. apply Hnot.
    rewrite map_app, elem_of_app. left.
    eapply (firstPerId_ids [] history id). exact Hid.
Qed.

(** C2.  For every pair of snapshots and every explicit-update set, with a
    snapshot read by turn id (the turn of an id is the first turn carrying
    it, which is every turn when the ids of the snapshot are pairwise
    distinct): [added] is the turns of [next] whose id does not occur in
    [previous], in the order of [next]; [removed] is the ids of [previous]
    that do not occur in [next]; [updated] is the turns of [next] whose id is
    in the explicit-update set or whose id occurs in [previous] on a
    different object; no id is reported twice in a list, no id is reported
    both as added and as removed, and the diff of a snapshot against itself
    with an empty explicit-update set is empty. *)
Theorem diffMessages_by_id (previous next explicitlyUpdated : list ChatMessage) :
  let diff := diffMessages previous next explicitlyUpdated in
  added diff
  = filter (fun message => msg_id message ∉ map msg_id previous) (distinctTurns next)
  /\ removed diff
     = filter (fun id => id ∉ map msg_id next) (map msg_id (distinctTurns previous))
  /\ updated diff
     = filter (fun message => isUpdated previous explicitlyUpdated message = true)
         (distinctTurns next)
  /\ NoDup (map msg_id (added diff))
  /\ NoDup (removed diff)
  /\ NoDup (map msg_id (updated diff))
  /\ (forall id, id ∈ map msg_id (added diff) -> id ∉ removed diff)
  /\ (NoDup (map msg_id next) -> distinctTurns next = next)
  /\ (NoDup (map msg_id previous) -> distinctTurns previous = previous)
  /\ diffMessages next next [] = {| added := []; updated := []; removed := [] |}.
Proof.
  intros diff. unfold diff.
  rewrite diffMessages_added, diffMessages_removed, diffMessages_updated.
  repeat apply conj; try done.
  - apply NoDup_map_filter, firstPerId_NoDup.
  - apply NoDup_filter. apply (firstPerId_NoDup [] previous).
  - apply NoDup_map_filter, firstPerId_NoDup.
  - intros id Hadded Hremoved.
    apply list_elem_of_fmap in Hadded as (message & -> & Hmessage).
    apply list_elem_of_filter in Hmessage as [Hfresh _].
    apply list_elem_of_filter in Hremoved as [_ Hprevious].
    apply Hfresh. by eapply (firstPerId_ids [] previous).
  - apply distinctTurns_NoDup.
  - apply distinctTurns_NoDup.
  - apply diffMessages_self.
Qed.

Lemma diffMessages_by_id_witness :
  let previous := [turn 0 "a"; turn 1 "b"; turn 2 "c"] in
  let next := [turn 0 "a"; turn 3 "b"; turn 4 "d"] in
  NoDup (map msg_id previous) /\ NoDup (map msg_id next)
  /\ diffMessages previous next [turn 0 "a"]
     = {| added := [turn 4 "d"]; updated := [turn 0 "a"; turn 3 "b"];
          removed := ["c"] |}
  /\ distinctTurns next = next /\ distinctTurns previous = previous.
Proof.
  cbv zeta.
  assert (NoDup (map msg_id [turn 0 "a"; turn 1 "b"; turn 2 "c"])) as Hprevious
    by (apply (bool_decide_unpack _); vm_compute; exact I).
  assert (NoDup (map msg_id [turn 0 "a"; turn 3 "b"; turn 4 "d"])) as Hnext
    by (apply (bool_decide_unpack _); vm_compute; exact I).
  destruct (diffMessages_by_id [turn 0 "a"; turn 1 "b"; turn 2 "c"]
              [turn 0 "a"; turn 3 "b"; turn 4 "d"] [turn 0 "a"])
    as (_ & _ & _ & _ & _ & _ & _ & Hn & Hp & _).
  split; [exact Hprevious|]. split; [exact Hnext|]. split; [reflexivity|].
  split; [apply (Hn Hnext)|apply (Hp Hprevious)].
Defined.

(** ** Usage accounting *)

Lemma omap_cons {A B : Type} (f : A -> option B) (x : A) (l : list A) :
  omap f (x :: l)
  = match f x with
    | Some y => y :: omap f l
    | None => omap f l
    end.
Proof. reflexivity. Qed.

(** A value handed to [updateTodosState] is truthy. *)
Lemma todoWriteArgument_truthy block todos :
  todoWriteArgument block = Some todos -> truthyJSON todos = true.
Proof.
  unfold todoWriteArgument, todosOfInput. destruct block; try done.
  destruct (bool_decide _); [|done]. destruct input; try done.
  destruct (JSMap.get fields "todos") as [found|]; [|done].
  destruct (truthyJSON found) eqn:Htruthy; [|done]. by intros [= <-].
Qed.

Lemma value_updateTodosState todos m :
  truthyJSON todos = true ->
  value (updateTodosState todos) m
  = if isArray todos then Normal tt else Thrown "todos.map is not a function".
Proof.
  intros Htruthy. unfold updateTodosState.
  destruct todos; cbn in *; try done. rewrite value_returns. by destruct (value _ m).
Qed.

(** The loop of [handleAssistantMessage] completes normally when every
    value it hands to [updateTodosState] is an array, and otherwise throws
    the [TypeError] of the first value that is not. *)
Lemma value_todoBlocks blocks m :
  value (forEachTry blocks todoBlockOp) m
  = if forallb isArray (omap todoWriteArgument blocks) then Normal tt
    else Thrown "todos.map is not a function".
Proof.
  revert m. induction blocks as [|block rest IH]; intros m; [done|].
  cbn [forEachTry]. rewrite value_andThen, omap_cons. unfold todoBlockOp at 1.
  destruct (todoWriteArgument block) as [todos|] eqn:Hargument.
  - rewrite value_updateTodosState by (by eapply todoWriteArgument_truthy).
    cbn [forallb]. destruct (isArray todos); [apply IH|done].
  - apply IH.
Qed.

Lemma preserves_usage_todoBlockOp block : preserves usageOf (todoBlockOp block).
Proof. unfold todoBlockOp. destruct (todoWriteArgument block); auto with frame. Qed.

Lemma value_handleAssistantMessage message m :
  value (handleAssistantMessage message) m
  = if forallb isArray
         match sdk_content message with
         | BlockContent blocks => omap todoWriteArgument blocks
         | StringContent _ => []
         end
    then Normal tt
    else Thrown "todos.map is not a function".
Proof.
  unfold handleAssistantMessage. rewrite value_andThen.
  destruct (sdk_content message) as [text|blocks].
  - by rewrite value_returns; destruct (sdk_usage message).
  - rewrite value_todoBlocks.
    destruct (forallb isArray (omap todoWriteArgument blocks)); [|done].
    by rewrite value_returns; destruct (sdk_usage message).
Qed.

(** Whether the processing of a fragment completes is decided by the
    fragment alone. *)
Lemma value_processMessage message m :
  value (processMessage message) m
  = if todoWritesAreArrays message then Normal tt
    else Thrown "todos.map is not a function".
Proof.
  unfold processMessage, todoWritesAreArrays, todoArguments.
  case_bool_decide as Hassistant; [apply value_handleAssistantMessage|].
  rewrite value_returns. cbn [forallb].
  by destruct (value _ m).
Qed.

Lemma value_processIncomingMessage message m :
  value (processIncomingMessage message) m
  = if todoWritesAreArrays message then Normal tt
    else Thrown "todos.map is not a function".
Proof.
  unfold processIncomingMessage. rewrite value_andThen, value_processMessage.
  destruct (todoWritesAreArrays message); [|done].
  rewrite value_returns. by destruct (value _ _).
Qed.

Lemma processIncomingMessage_usage message m :
  usageOf (after (processIncomingMessage message) m)
  = usageOf (after (processMessage message) m).
Proof.
  unfold processIncomingMessage. rewrite after_andThen.
  destruct (value (processMessage message) m) as [u|reason]; [|done].
  rewrite after_returns.
  generalize (after (processMessage message) m) as m1. intros m1.
  match goal with |- usageOf (after ?tail m1) = _ =>
    assert (preserves usageOf tail) as Htail by (cbv zeta; auto 30 with frame)
  end.
  apply Htail.
Qed.

Lemma after_updateUsage usage m :
  usageOf (after (updateUsage usage) m)
  = {| totalTokens :=
         (input_tokens usage + default 0 (cache_creation_input_tokens usage)
          + default 0 (cache_read_input_tokens usage) + output_tokens usage)%Z;
       totalCost := cost m;
       contextWindow := window m |}.
Proof. reflexivity. Qed.

Lemma after_handleResultMessage message total m :
  usageOf (after (handleResultMessage message total) m)
  = {| totalTokens := tokenCount m;
       totalCost := total;
       contextWindow :=
         match sdk_modelUsage message with
         | Some modelUsage =>
             match JSMap.get modelUsage
                     (default "" (currentMainLoopModel (session m))) with
             | Some (Some reported) => reported
             | _ => window m
             end
         | None => window m
         end |}.
Proof. reflexivity. Qed.

Lemma handleAssistantMessage_usage message m :
  usageOf (after (handleAssistantMessage message) m)
  = match value (handleAssistantMessage message) m, sdk_usage message with
    | Normal _, Some usage =>
        {| totalTokens :=
             (input_tokens usage + default 0 (cache_creation_input_tokens usage)
              + default 0 (cache_read_input_tokens usage) + output_tokens usage)%Z;
           totalCost := cost m;
           contextWindow := window m |}
    | _, _ => usageOf m
    end.
Proof.
  unfold handleAssistantMessage. rewrite after_andThen, value_andThen.
  set (loop := match sdk_content message with
               | StringContent _ => mret (Normal tt)
               | BlockContent blocks => _
               end).
  assert (preserves usageOf loop) as Hloop.
  { unfold loop. destruct (sdk_content message); [auto with frame|].
    apply preserves_forEachTry. apply preserves_usage_todoBlockOp. }
  destruct (value loop m) as [u|reason]; [|apply Hloop].
  rewrite after_returns, value_returns.
  destruct (sdk_usage message) as [usage|].
  - rewrite after_updateUsage. unfold cost, window. by rewrite Hloop.
  - rewrite after_ret. apply Hloop.
Qed.

(** C5.  For every state and every fragment, with [m'] the state after the
    fragment is processed.  Processing completes normally when every value
    the fragment hands to [updateTodosState] is an array, which is so for
    every fragment that is not an assistant fragment; otherwise it throws
    before the usage report is read, and the usage is left as it was.  An
    assistant fragment that is processed to its usage report leaves the
    usage with the token count equal to the sum of the four figures of the
    report (whatever the count was; the figures being such that doubles add
    them exactly) and with the cost and the context window it had.  A
    fragment that is not a result fragment leaves the cost and the context
    window as they were.  A result fragment leaves the token count as it
    was; when it carries a cost, that cost becomes the total cost and the
    context window becomes the one reported for the current model, if one
    is reported; when it carries none, the usage is left as it was. *)
Theorem usage_accounting (message : SDKMessage) (m : Machine) :
  let m' := after (processIncomingMessage message) m in
  (forall usage,
     sdk_type message = "assistant" -> sdk_usage message = Some usage ->
     todoWritesAreArrays message = true -> exactTotal usage ->
     value (processIncomingMessage message) m = Normal tt
     /\ usageOf m' =
          {| totalTokens :=
               (input_tokens usage + default 0 (cache_creation_input_tokens usage)
                + default 0 (cache_read_input_tokens usage) + output_tokens usage)%Z;
             totalCost := cost m;
             contextWindow := window m |})
  /\ (sdk_type message <> "assistant" -> todoWritesAreArrays message = true)
  /\ (todoWritesAreArrays message = false ->
      value (processIncomingMessage message) m = Thrown "todos.map is not a function"
      /\ usageOf m' = usageOf m)
  /\ (sdk_type message <> "result" -> cost m' = cost m /\ window m' = window m)
  /\ (sdk_type message = "result" -> tokenCount m' = tokenCount m)
  /\ (forall total,
        sdk_type message = "result" -> sdk_total_cost_usd message = Some total ->
        cost m' = total
        /\ window m'
           = match sdk_modelUsage message with
             | Some modelUsage =>
                 match JSMap.get modelUsage
                         (default "" (currentMainLoopModel (session m))) with
                 | Some (Some reported) => reported
                 | _ => window m
                 end
             | None => window m
             end)
  /\ (sdk_type message = "result" -> sdk_total_cost_usd message = None ->
      usageOf m' = usageOf m).
Proof.
  intros m'.
  pose proof (processIncomingMessage_usage message m) as Hu. fold m' in Hu.
  change (cost m') with (totalCost (usageOf m')).
  change (window m') with (contextWindow (usageOf m')).
  change (tokenCount m') with (totalTokens (usageOf m')).
  rewrite Hu. clear Hu m'. rewrite value_processIncomingMessage.
  assert (sdk_type message <> "assistant" ->
          usageOf (after (processMessage message) m)
          = if bool_decide (sdk_type message = "result") then
              match sdk_total_cost_usd message with
              | Some total => usageOf (after (handleResultMessage message total) m)
              | None => usageOf m
              end
            else usageOf m) as Hother.
  { intros Htype. unfold processMessage.
    rewrite (bool_decide_eq_false_2 _ Htype), after_returns.
    destruct (_ && _) eqn:Hinit.
    - apply andb_true_iff in Hinit as [Hsystem%bool_decide_eq_true _].
      rewrite bool_decide_eq_false_2 by (rewrite Hsystem; discriminate).
      set (op := (_ ;; _)). enough (preserves usageOf op) as -> by done.
      unfold op. auto 20 with frame.
    - destruct (bool_decide (sdk_type message = "result")); [|done].
      by destruct (sdk_total_cost_usd message). }
  assert (sdk_type message = "assistant" ->
          usageOf (after (processMessage message) m)
          = match value (handleAssistantMessage message) m, sdk_usage message with
            | Normal _, Some usage =>
                {| totalTokens :=
                     (input_tokens usage
                      + default 0 (cache_creation_input_tokens usage)
                      + default 0 (cache_read_input_tokens usage)
                      + output_tokens usage)%Z;
                   totalCost := cost m;
                   contextWindow := window m |}
            | _, _ => usageOf m
            end) as Hassistant.
  { intros Htype. unfold processMessage.
    rewrite (bool_decide_eq_true_2 _ Htype). apply handleAssistantMessage_usage. }
  assert (sdk_type message = "assistant" ->
          value (handleAssistantMessage message) m
          = if todoWritesAreArrays message then Normal tt
            else Thrown "todos.map is not a function") as Hvalue.
  { intros Htype. rewrite <- (value_processMessage message m). unfold processMessage.
    by rewrite (bool_decide_eq_true_2 _ Htype). }
  split; [|split; [|split; [|split; [|split; [|split]]]]].
  - intros usage Htype Husage Harrays _. rewrite Harrays. split; [done|].
    by rewrite Hassistant, Hvalue, Harrays, Husage.
  - intros Htype. unfold todoWritesAreArrays, todoArguments.
    by rewrite (bool_decide_eq_false_2 _ Htype).
  - intros Hthrows. rewrite Hthrows. split; [done|].
    destruct (decide (sdk_type message = "assistant")) as [Htype|Htype].
    + by rewrite Hassistant, Hvalue, Hthrows.
    + unfold todoWritesAreArrays, todoArguments in Hthrows.
      by rewrite (bool_decide_eq_false_2 _ Htype) in Hthrows.
  - intros Htype.
    destruct (decide (sdk_type message = "assistant")) as [Hassist|Hassist].
    + rewrite Hassistant by done.
      by destruct (value (handleAssistantMessage message) m), (sdk_usage message).
    + rewrite Hother by done. by rewrite (bool_decide_eq_false_2 _ Htype).
  - intros Htype. rewrite Hother by (rewrite Htype; discriminate).
    rewrite (bool_decide_eq_true_2 _ Htype).
    by destruct (sdk_total_cost_usd message).
  - intros total Htype Hcost. rewrite Hother by (rewrite Htype; discriminate).
    rewrite (bool_decide_eq_true_2 _ Htype), Hcost, after_handleResultMessage.
    done.
  - intros Htype Hcost. rewrite Hother by (rewrite Htype; discriminate).
    by rewrite (bool_decide_eq_true_2 _ Htype), Hcost.
Qed.

Lemma usage_accounting_witness :
  let report :=
    {| input_tokens := 10; output_tokens := 5;
       cache_creation_input_tokens := Some 3%Z; cache_read_input_tokens := None |} in
  let message :=
    assistantFragment "a1"
      [ToolUseBlock "t1" "TodoWrite"
         (JObject [("todos", JArray [todoJSON "write tests" "pending"])]);
       TextBlock "hello"]
      (Some report) in
  let m := newMachine exampleWorld in
  sdk_type message = "assistant" /\ sdk_usage message = Some report
  /\ todoWritesAreArrays message = true
  /\ exactTotal report
  /\ value (processIncomingMessage message) m = Normal tt
  /\ usageOf (after (processIncomingMessage message) m)
     = {| totalTokens := 18; totalCost := cost m; contextWindow := window m |}.
Proof.
  cbv zeta.
  assert (exactTotal
            {| input_tokens := 10; output_tokens := 5;
               cache_creation_input_tokens := Some 3%Z;
               cache_read_input_tokens := None |}) as Hexact
    by (unfold exactTotal; cbn; lia).
  split; [reflexivity|]. split; [reflexivity|]. split; [reflexivity|].
  split; [exact Hexact|].
  exact (proj1 (usage_accounting
                  (assistantFragment "a1"
                     [ToolUseBlock "t1" "TodoWrite"
                        (JObject [("todos", JArray [todoJSON "write tests" "pending"])]);
                      TextBlock "hello"]
                     (Some {| input_tokens := 10; output_tokens := 5;
                              cache_creation_input_tokens := Some 3%Z;
                              cache_read_input_tokens := None |}))
                  (newMachine exampleWorld))
           {| input_tokens := 10; output_tokens := 5;
              cache_creation_input_tokens := Some 3%Z;
              cache_read_input_tokens := None |}
           eq_refl eq_refl eq_refl Hexact).
Defined.

(** ** Deferral of aggregate notifications during a bulk load *)

Create HintDb defer discriminated.

Lemma defers_ret {A : Type} (x : A) : defers (mret x).
Proof. intros m H. repeat split; auto. Qed.

Lemma defers_bind {A B : Type} (c : Op A) (f : A -> Op B) :
  defers c -> (forall x, defers (f x)) -> defers (c ≫= f).
Proof.
  intros Hc Hf m H. destruct (Hc m H) as (H1 & H2 & H3 & H4).
  destruct (Hf (value c m) (after c m) H1) as (G1 & G2 & G3 & G4).
  rewrite after_bind, emitted_bind. repeat split; auto.
  by apply Forall_app.
Qed.

Lemma defers_andThen {A B : Type} (c : Op (Completion A))
    (k : A -> Op (Completion B)) :
  defers c -> (forall x, defers (k x)) -> defers (andThen c k).
Proof.
  intros Hc Hk m H. destruct (Hc m H) as (H1 & H2 & H3 & H4).
  rewrite after_andThen, emitted_andThen.
  destruct (value c m) as [x|reason].
  - destruct (Hk x (after c m) H1) as (G1 & G2 & G3 & G4).
    repeat split; auto. by apply Forall_app.
  - rewrite app_nil_r. repeat split; auto.
Qed.

Lemma defers_returns {A : Type} (c : Op A) : defers c -> defers (returns c).
Proof. intros Hc m H. rewrite after_returns, emitted_returns. by apply Hc. Qed.

Lemma defers_this : defers this.
Proof. intros m H. repeat split; auto. Qed.

Lemma defers_notice message :
  aggregateUpdate message = false -> defers (noticeSubscribers message).
Proof. intros Hm m H. repeat split; auto. repeat constructor. done. Qed.

Lemma defers_forEach {A : Type} (xs : list A) body :
  (forall x, defers (body x)) -> defers (forEach xs body).
Proof.
  intros Hbody. induction xs as [|x xs IH]; cbn [forEach].
  - apply defers_ret.
  - apply defers_bind; [apply Hbody|]. intros _. apply IH.
Qed.

Lemma defers_forEachTry {A : Type} (xs : list A) body :
  (forall x, defers (body x)) -> defers (forEachTry xs body).
Proof.
  intros Hbody. induction xs as [|x xs IH]; cbn [forEachTry].
  - apply defers_ret.
  - apply defers_andThen; [apply Hbody|]. intros _. apply IH.
Qed.

Lemma defers_if {A : Type} (b : bool) (c1 c2 : Op A) :
  defers c1 -> defers c2 -> defers (if b then c1 else c2).
Proof. by destruct b. Qed.

Lemma defers_withWorld {A : Type} (f : World -> A * World) : defers (withWorld f).
Proof.
  intros m H. unfold after, emitted, withWorld.
  destruct (f (world m)). repeat split; auto.
Qed.

#[global] Hint Resolve defers_ret defers_this defers_withWorld : defer.
#[global] Hint Extern 1 (defers (noticeSubscribers _)) =>
  (apply defers_notice; reflexivity) : defer.
#[global] Hint Extern 2 (defers (_ ≫= _)) => apply defers_bind; [|intros ?] : defer.
#[global] Hint Extern 2 (defers (andThen _ _)) =>
  apply defers_andThen; [|intros ?] : defer.
#[global] Hint Extern 2 (defers (returns _)) => apply defers_returns : defer.
#[global] Hint Extern 2 (defers (forEach _ _)) => apply defers_forEach; intros ? : defer.
#[global] Hint Extern 2 (defers (forEachTry _ _)) =>
  apply defers_forEachTry; intros ? : defer.
#[global] Hint Extern 2 (defers (if _ then _ else _)) => apply defers_if : defer.
#[global] Hint Extern 3 (defers (match ?x with _ => _ end)) => destruct x : defer.
#[global] Hint Extern 1 (defers (assign _)) =>
  (let m := fresh "m" in let H := fresh "H" in
   intros m H; repeat split; [exact H | constructor | auto | auto]) : defer.

Lemma defers_updateTodosState_normalized items :
  defers (updateTodosState_normalized items).
Proof.
  intros m H. unfold updateTodosState_normalized, emitTodosUpdate. run_op.
  destruct (areTodosEqual (todos (session m)) items); cbn.
  - repeat split; auto.
  - rewrite H. cbn. repeat split; auto.
Qed.

Lemma defers_updateTodosState todos : defers (updateTodosState todos).
Proof.
  unfold updateTodosState.
  destruct todos; auto using defers_updateTodosState_normalized with defer.
Qed.

Lemma defers_updateToolsState names : defers (updateToolsState names).
Proof.
  intros m H. unfold updateToolsState, emitToolsUpdate. run_op.
  destruct (areStringArraysEqual (tools (session m)) names); cbn.
  - repeat split; auto.
  - rewrite H. cbn. repeat split; auto.
Qed.

#[global] Hint Resolve defers_updateTodosState defers_updateToolsState : defer.

Lemma defers_usageData_set usage : defers (usageData_set usage).
Proof. unfold usageData_set. auto 10 with defer. Qed.
#[global] Hint Resolve defers_usageData_set : defer.

Lemma defers_emitSessionInfo : defers emitSessionInfo.
Proof. unfold emitSessionInfo. auto 10 with defer. Qed.
Lemma defers_emitMessagesLoaded : defers emitMessagesLoaded.
Proof. unfold emitMessagesLoaded. auto 10 with defer. Qed.
#[global] Hint Resolve defers_emitSessionInfo defers_emitMessagesLoaded : defer.

Lemma defers_todoBlockOp block : defers (todoBlockOp block).
Proof. unfold todoBlockOp. auto 10 with defer. Qed.
#[global] Hint Resolve defers_todoBlockOp : defer.

Lemma defers_processMessage message : defers (processMessage message).
Proof.
  unfold processMessage, handleAssistantMessage, updateUsage, handleResultMessage.
  auto 30 with defer.
Qed.
#[global] Hint Resolve defers_processMessage : defer.

Lemma defers_applyMessageUpdates previous next result :
  defers (applyMessageUpdates previous next result).
Proof. unfold applyMessageUpdates. auto 30 with defer. Qed.
#[global] Hint Resolve defers_applyMessageUpdates : defer.

Lemma defers_processIncomingMessage message : defers (processIncomingMessage message).
Proof. unfold processIncomingMessage. cbv zeta. auto 30 with defer. Qed.

Lemma defers_replayFragments fragments rendered :
  defers (replayFragments fragments rendered).
Proof.
  revert rendered. induction fragments as [|message rest IH]; intros rendered;
    cbn [replayFragments]; auto 10 with defer.
Qed.
#[global] Hint Resolve defers_replayFragments : defer.

Lemma defers_setMessages fragments : defers (setMessages fragments).
Proof. unfold setMessages. auto 30 with defer. Qed.
#[global] Hint Resolve defers_setMessages : defer.

Lemma defers_loadTry response : defers (loadTry response).
Proof. unfold loadTry. auto 40 with defer. Qed.
#[global] Hint Resolve defers_loadTry : defer.

Lemma defers_loadResponse response : defers (loadResponse response).
Proof. unfold loadResponse. auto 10 with defer. Qed.

(** *** The end of the load *)

Lemma emitted_loadFinally promise m :
  emitted (loadFinally promise) m = flushedUpdates (session m).
Proof.
  destruct_machine m. by destruct latchTodos, latchTools.
Qed.

Lemma after_loadFinally promise m :
  let s := session (after (loadFinally promise) m) in
  isLoading s = false /\ pendingTodosBroadcast s = false
  /\ pendingToolsBroadcast s = false /\ loadingPromise s = None.
Proof.
  destruct_machine m. by destruct latchTodos, latchTools.
Qed.

Lemma countType_quiet type events :
  Forall (fun event => aggregateUpdate event = false) events ->
  type = "todos_updated" \/ type = "tools_updated" ->
  countType type events = 0.
Proof.
  intros Hall Htype. unfold countType. rewrite filter_none; [done|].
  intros event Hevent Heq.
  pose proof (proj1 (Forall_forall _ _) Hall _ Hevent) as Hq.
  destruct event; cbn in *; destruct Htype; subst; done.
Qed.

Lemma countType_app type l1 l2 :
  countType type (l1 ++ l2) = countType type l1 + countType type l2.
Proof. unfold countType. by rewrite filter_app, length_app. Qed.

(** *** What a load latches *)

Lemma takeWhile_app {A : Type} (P : A -> bool) (l1 l2 : list A) :
  takeWhile P (l1 ++ l2)
  = if forallb P l1 then l1 ++ takeWhile P l2 else takeWhile P l1.
Proof.
  induction l1 as [|x l1 IH]; [done|]. cbn. destruct (P x); [|done].
  rewrite IH. by destruct (forallb P l1).
Qed.

Lemma takeWhile_all {A : Type} (P : A -> bool) (l : list A) :
  forallb P l = true -> takeWhile P l = l.
Proof.
  induction l as [|x l IH]; [done|]. cbn. destruct (P x); [|done].
  intros Hl. by rewrite IH.
Qed.

Lemma areTodosEqual_nil items : areTodosEqual [] items = bool_decide (items = []).
Proof.
  unfold areTodosEqual. destruct items; [done|].
  cbn [length]. by rewrite bool_decide_eq_false_2.
Qed.

Lemma areTodosEqual_nil_r items : areTodosEqual items [] = bool_decide (items = []).
Proof.
  unfold areTodosEqual. destruct items; [done|].
  cbn [length]. by rewrite bool_decide_eq_false_2.
Qed.

Lemma todoFlags_latch m m' :
  todoFlags m' = todoFlags m ->
  isLoading (session m') = isLoading (session m)
  /\ (latchedOrEmpty m -> latchedOrEmpty m')
  /\ pendingTodosBroadcast (session m') = pendingTodosBroadcast (session m).
Proof.
  unfold todoFlags, latchedOrEmpty. intros [= Htodos Hpending Hloading].
  by rewrite Htodos, Hpending, Hloading.
Qed.

(** While the loading flag is set, a store of [items] into a session whose
    todo list is empty unless its flag is latched latches the flag exactly
    when [items] is not empty. *)
Lemma updateTodosState_normalized_latch items m :
  isLoading (session m) = true -> latchedOrEmpty m ->
  let m' := after (updateTodosState_normalized items) m in
  latchedOrEmpty m'
  /\ pendingTodosBroadcast (session m')
     = pendingTodosBroadcast (session m) || negb (bool_decide (items = [])).
Proof.
  intros H HJ. unfold updateTodosState_normalized, emitTodosUpdate, latchedOrEmpty in *.
  run_op.
  destruct (areTodosEqual (todos (session m)) items) eqn:Heq; cbn.
  - destruct HJ as [HJ|HJ]; [by rewrite HJ; auto|].
    rewrite HJ, areTodosEqual_nil in Heq. apply bool_decide_eq_true in Heq as ->.
    split; [by right|]. by rewrite orb_false_r.
  - rewrite H. cbn. split; [by left|].
    destruct HJ as [HJ|HJ]; [by rewrite HJ|].
    rewrite HJ, areTodosEqual_nil in Heq. rewrite Heq. by rewrite orb_true_r.
Qed.

Lemma updateTodosState_latch todos m :
  isLoading (session m) = true -> latchedOrEmpty m ->
  let m' := after (updateTodosState todos) m in
  latchedOrEmpty m'
  /\ pendingTodosBroadcast (session m')
     = pendingTodosBroadcast (session m) || isNonEmptyArray todos.
Proof.
  intros H HJ. unfold updateTodosState.
  destruct todos; cbn [isNonEmptyArray]; rewrite ?orb_false_r; try done.
  rewrite after_returns.
  destruct (updateTodosState_normalized_latch (map copyTodo items) m H HJ)
    as [HJ' ->].
  split; [done|]. by destruct items.
Qed.

Lemma todoBlocks_latch blocks m :
  isLoading (session m) = true -> latchedOrEmpty m ->
  let m' := after (forEachTry blocks todoBlockOp) m in
  isLoading (session m') = true
  /\ latchedOrEmpty m'
  /\ pendingTodosBroadcast (session m')
     = pendingTodosBroadcast (session m)
       || existsb isNonEmptyArray (takeWhile isArray (omap todoWriteArgument blocks)).
Proof.
  revert m. induction blocks as [|block rest IH]; intros m H HJ.
  { cbn. by rewrite orb_false_r. }
  cbn [forEachTry]. cbv zeta. rewrite after_andThen, omap_cons.
  pose proof (defers_todoBlockOp block m H) as (H1 & _).
  unfold todoBlockOp in *.
  destruct (todoWriteArgument block) as [todos|] eqn:Hargument.
  - rewrite value_updateTodosState by (by eapply todoWriteArgument_truthy).
    destruct (updateTodosState_latch todos m H HJ) as [HJ1 Hpending1].
    cbn [takeWhile]. destruct (isArray todos) eqn:Harray.
    + destruct (IH _ H1 HJ1) as (H2 & HJ2 & Hpending2).
      split; [done|]. split; [done|].
      rewrite Hpending2, Hpending1. cbn [existsb]. by rewrite orb_assoc.
    + split; [done|]. split; [done|]. rewrite Hpending1.
      destruct todos; try done.
  - apply (IH m H HJ).
Qed.

Lemma preserves_todoFlags_usage (report : option TokenUsage) :
  preserves todoFlags
    match report with
    | Some usage => updateUsage usage
    | None => mret tt
    end.
Proof.
  destruct report; [|auto with frame].
  unfold updateUsage, usageData_set. auto 10 with frame.
Qed.

Lemma processMessage_latch message m :
  isLoading (session m) = true -> latchedOrEmpty m ->
  let m' := after (processMessage message) m in
  isLoading (session m') = true
  /\ latchedOrEmpty m'
  /\ pendingTodosBroadcast (session m')
     = pendingTodosBroadcast (session m)
       || existsb isNonEmptyArray (takeWhile isArray (todoArguments message)).
Proof.
  intros H HJ. unfold processMessage, todoArguments.
  case_bool_decide as Hassistant.
  - unfold handleAssistantMessage. cbv zeta. rewrite after_andThen.
    set (loop := match sdk_content message with
                 | StringContent _ => mret (Normal tt)
                 | BlockContent blocks => _
                 end).
    assert (isLoading (session (after loop m)) = true
            /\ latchedOrEmpty (after loop m)
            /\ pendingTodosBroadcast (session (after loop m))
               = pendingTodosBroadcast (session m)
                 || existsb isNonEmptyArray
                      (takeWhile isArray
                         match sdk_content message with
                         | BlockContent blocks => omap todoWriteArgument blocks
                         | StringContent _ => []
                         end)) as (H1 & HJ1 & Hpending1).
    { unfold loop. destruct (sdk_content message) as [text|blocks].
      - cbn. by rewrite orb_false_r.
      - by apply todoBlocks_latch. }
    destruct (value loop m); [|done].
    rewrite after_returns.
    destruct (todoFlags_latch (after loop m) _
                (preserves_todoFlags_usage (sdk_usage message) (after loop m)))
      as (Hl & HJ2 & Hp).
    rewrite Hl, Hp. auto.
  - cbv zeta. rewrite after_returns. cbn [takeWhile existsb]. rewrite orb_false_r.
    match goal with |- context [after ?op m] =>
      assert (preserves todoFlags op) as Hop
    end.
    { unfold updateToolsState, emitToolsUpdate, handleResultMessage, usageData_set.
      auto 30 with frame. }
    destruct (todoFlags_latch m _ (Hop m)) as (Hl & HJ2 & Hp).
    rewrite Hl, Hp. auto.
Qed.

Lemma replayFragments_latch fragments rendered m :
  isLoading (session m) = true -> latchedOrEmpty m ->
  let m' := after (replayFragments fragments rendered) m in
  isLoading (session m') = true
  /\ latchedOrEmpty m'
  /\ pendingTodosBroadcast (session m')
     = pendingTodosBroadcast (session m)
       || existsb isNonEmptyArray (replayedTodoWrites fragments).
Proof.
  revert rendered m.
  induction fragments as [|message rest IH]; intros rendered m H HJ.
  { cbn. by rewrite orb_false_r. }
  cbn [replayFragments]. cbv zeta. rewrite after_andThen, value_processMessage.
  destruct (processMessage_latch message m H HJ) as (H1 & HJ1 & Hpending1).
  unfold replayedTodoWrites. cbn [flat_map]. rewrite takeWhile_app.
  fold (todoWritesAreArrays message).
  destruct (todoWritesAreArrays message) eqn:Harrays; [|done].
  rewrite after_bind.
  set (m1 := after (processMessage message) m) in *.
  set (append := withWorld (appendRenderableMessage rendered message)).
  assert (preserves todoFlags append) as Happend by (unfold append; auto with frame).
  destruct (todoFlags_latch m1 _ (Happend m1)) as (Hl & HJ2 & Hp).
  destruct (IH (value append m1).1 (after append m1)) as (H3 & HJ3 & Hpending3);
    [congruence|auto|].
  split; [done|]. split; [done|].
  rewrite Hpending3, Hp, Hpending1, existsb_app.
  rewrite (takeWhile_all isArray (todoArguments message)) by done.
  by rewrite orb_assoc.
Qed.

Lemma setMessages_latch fragments m :
  isLoading (session m) = true -> latchedOrEmpty m ->
  pendingTodosBroadcast (session (after (setMessages fragments) m))
  = pendingTodosBroadcast (session m)
    || existsb isNonEmptyArray (replayedTodoWrites fragments).
Proof.
  intros H HJ. unfold setMessages. rewrite after_andThen.
  destruct (replayFragments_latch fragments [] m H HJ) as (H1 & HJ1 & Hpending1).
  destruct (value (replayFragments fragments []) m) as [rendered|reason]; [|done].
  rewrite after_returns.
  match goal with |- context [after ?tail (after _ m)] =>
    assert (preserves todoFlags tail) as Htail
      by (unfold emitMessagesLoaded, emitSessionInfo; auto 30 with frame)
  end.
  destruct (todoFlags_latch _ _ (Htail (after (replayFragments fragments []) m)))
    as (_ & _ & ->).
  done.
Qed.

(** The flag of the todo list after the [try] block of a load: latched
    before, or the session held todos, which the load resets, or the replay
    has stored a todo array that is not empty. *)
Lemma loadTry_latch response m :
  isLoading (session m) = true ->
  pendingTodosBroadcast (session (after (loadTry response) m))
  = pendingTodosBroadcast (session m)
    || match response with
       | SessionMessages fragments =>
           negb (bool_decide (todos (session m) = []))
           || existsb isNonEmptyArray (replayedTodoWrites fragments)
       | SessionFailure _ => false
       end.
Proof.
  intros H. destruct response as [fragments|reason]; [|by rewrite orb_false_r].
  assert (forall before : Op unit,
            preserves todoFlags before ->
            let m2 := after (updateTodosState (JArray [])) (after before m) in
            isLoading (session m2) = true
            /\ latchedOrEmpty m2
            /\ pendingTodosBroadcast (session m2)
               = pendingTodosBroadcast (session m)
                 || negb (bool_decide (todos (session m) = []))) as Hreset.
  { intros before Hbefore. specialize (Hbefore m). revert Hbefore.
    generalize (after before m). intros m1 Hflags. clear before.
    unfold todoFlags in Hflags. injection Hflags as Htodos Hpending Hloading.
    rewrite <- Htodos, <- Hpending. rewrite <- Hloading in H. clear -H.
    destruct_machine m1. cbn in H. subst isLoad.
    unfold updateTodosState, updateTodosState_normalized, emitTodosUpdate.
    cbn [map]. cbv zeta. rewrite after_returns. run_op.
    rewrite areTodosEqual_nil_r.
    destruct (bool_decide (items = [])) eqn:Hempty; cbn.
    - rewrite orb_false_r. split; [done|]. split; [by right|done].
    - rewrite orb_true_r. split; [done|]. split; [by left|done]. }
  unfold loadTry.
  destruct (decide (length fragments = 0)) as [Hlength|Hlength];
    [rewrite (bool_decide_eq_true_2 _ Hlength)
    |rewrite (bool_decide_eq_false_2 _ Hlength)].
  - destruct fragments; [|discriminate Hlength].
    cbn [existsb replayedTodoWrites flat_map takeWhile].
    rewrite orb_false_r.
    rewrite after_andThen, value_returns, after_returns, after_andThen.
    match goal with |- context [after (updateTodosState _) (after ?before m)] =>
      destruct (Hreset before) as (H2 & HJ2 & Hpending2); [auto 20 with frame|]
    end.
    cbv zeta in *.
    set (m2 := after (updateTodosState (JArray [])) _) in *.
    destruct (value (updateTodosState (JArray [])) _); [|done].
    rewrite after_returns.
    match goal with |- context [after ?tail m2] =>
      assert (preserves todoFlags tail) as Htail
        by (unfold updateToolsState, emitToolsUpdate, usageData_set,
              emitMessagesLoaded, emitSessionInfo; auto 30 with frame)
    end.
    destruct (todoFlags_latch _ _ (Htail m2)) as (_ & _ & ->).
    done.
  - rewrite after_andThen, value_returns, after_returns, after_andThen.
    match goal with |- context [after (updateTodosState _) (after ?before m)] =>
      destruct (Hreset before) as (H2 & HJ2 & Hpending2); [auto 20 with frame|]
    end.
    cbv zeta in *.
    set (m2 := after (updateTodosState (JArray [])) _) in *.
    rewrite (value_updateTodosState (JArray [])) by done. cbn [isArray].
    rewrite after_andThen, value_returns, after_returns, after_andThen.
    set (between := updateToolsState [];; usageData_set emptyUsage).
    assert (preserves todoFlags between) as Hbetween
      by (unfold between, updateToolsState, emitToolsUpdate, usageData_set;
          auto 30 with frame).
    destruct (todoFlags_latch m2 _ (Hbetween m2)) as (Hl & HJ3 & Hp).
    set (m3 := after between m2) in *.
    assert (isLoading (session m3) = true) as H3 by congruence.
    pose proof (setMessages_latch fragments m3 H3 (HJ3 HJ2)) as Hreplayed.
    destruct (value (setMessages fragments) m3).
    + rewrite after_returns.
      change (pendingTodosBroadcast
                (session
                   (after (assign (set_busy false);; assign (set_isExplicit false))
                      (after (setMessages fragments) m3))))
        with (pendingTodosBroadcast (session (after (setMessages fragments) m3))).
      by rewrite Hreplayed, Hp, Hpending2, orb_assoc.
    + by rewrite Hreplayed, Hp, Hpending2, orb_assoc.
Qed.

Lemma after_loadResponse_flags response m :
  pendingTodosBroadcast (session (after (loadResponse response) m))
  = pendingTodosBroadcast (session (after (loadTry response) m)).
Proof.
  unfold loadResponse. rewrite after_bind.
  by destruct (value (loadTry response) m).
Qed.

Lemma existsb_flat_map {A B : Type} (P : B -> bool) (f : A -> list B) (l : list A) :
  existsb P (flat_map f l) = existsb (fun x => existsb P (f x)) l.
Proof.
  induction l as [|x l IH]; [done|]. cbn. by rewrite existsb_app, IH.
Qed.

Lemma forallb_flat_map {A B : Type} (P : B -> bool) (f : A -> list B) (l : list A) :
  forallb P (flat_map f l) = forallb (fun x => forallb P (f x)) l.
Proof.
  induction l as [|x l IH]; [done|]. cbn. by rewrite forallb_app, IH.
Qed.

(** A load that starts sets the loading flag before it suspends. *)
Lemma loadFromServer_starts sessionId m :
  truthy (Some sessionId) = true ->
  loadingPromise (session m) = None ->
  isLoading (session (after (loadFromServer (Some sessionId)) m)) = true
  /\ value (loadFromServer (Some sessionId)) m = Some (length (promises m)).
Proof.
  intros Htruthy Hidle. destruct_machine m. cbn in Htruthy, Hidle. subst.
  unfold loadFromServer, newPromise. run_op. by rewrite Htruthy.
Qed.

(** C6, as amended.  In a state in which the loading flag is set: processing
    a fragment emits no todos_updated and no tools_updated notification and
    leaves the flag set, whether it completes or throws; a detected change
    of the todo list or of the tool inventory emits nothing and latches the
    pending flag of the aggregate; when the load completes, on success or on
    failure, the notifications emitted are those emitted during the load,
    none of which is a todos_updated or tools_updated notification, followed
    by one notification for each aggregate whose flag is latched, so that
    each of the two notifications is emitted once when its flag is latched
    and not at all otherwise; the loading flag and both pending flags are
    clear afterwards.  The flag of the todo list is latched at the end of
    the load exactly when it was latched at the start, or the session
    responded with a history and held a todo list that was not empty (the
    load resets the list first), or the replay has stored a todo array that
    is not empty before it met a todo value that is not an array.  In
    particular the load of a history whose todo values are all arrays, at
    least one of them not empty, emits exactly one todos_updated
    notification, however many todo-writing invocations there are; and the
    load, into a session with an empty todo list and no latched flag, of a
    history that stores only empty todo arrays emits none. *)
Theorem aggregate_updates_deferred_while_loading
    (m : Machine) (promise : nat) (response : SessionResponse) :
  isLoading (session m) = true ->
  let during := emitted (loadResponse response) m in
  let loaded := after (loadResponse response) m in
  let finished := after (loadFromServer_resume promise response) m in
  let updates :=
    countType "todos_updated" (emitted (loadFromServer_resume promise response) m) in
  (forall message,
      Forall (fun event => aggregateUpdate event = false)
        (emitted (processIncomingMessage message) m)
      /\ isLoading (session (after (processIncomingMessage message) m)) = true)
  /\ (forall items,
        areTodosEqual (todos (session m)) (map copyTodo items) = false ->
        emitted (updateTodosState (JArray items)) m = []
        /\ pendingTodosBroadcast (session (after (updateTodosState (JArray items)) m))
           = true)
  /\ (forall names,
        areStringArraysEqual (tools (session m)) names = false ->
        emitted (updateToolsState names) m = []
        /\ pendingToolsBroadcast (session (after (updateToolsState names) m)) = true)
  /\ emitted (loadFromServer_resume promise response) m
     = during ++ flushedUpdates (session loaded)
  /\ Forall (fun event => aggregateUpdate event = false) during
  /\ updates = (if pendingTodosBroadcast (session loaded) then 1 else 0)
  /\ countType "tools_updated" (emitted (loadFromServer_resume promise response) m)
     = (if pendingToolsBroadcast (session loaded) then 1 else 0)
  /\ isLoading (session finished) = false
  /\ pendingTodosBroadcast (session finished) = false
  /\ pendingToolsBroadcast (session finished) = false
  /\ pendingTodosBroadcast (session loaded)
     = pendingTodosBroadcast (session m)
       || match response with
          | SessionMessages fragments =>
              negb (bool_decide (todos (session m) = []))
              || existsb isNonEmptyArray (replayedTodoWrites fragments)
          | SessionFailure _ => false
          end
  /\ (forall fragments,
        response = SessionMessages fragments ->
        forallb todoWritesAreArrays fragments = true ->
        existsb (fun message => existsb isNonEmptyArray (todoArguments message))
          fragments = true ->
        updates = 1)
  /\ (forall fragments,
        response = SessionMessages fragments ->
        pendingTodosBroadcast (session m) = false ->
        todos (session m) = [] ->
        existsb isNonEmptyArray (replayedTodoWrites fragments) = false ->
        updates = 0).
Proof.
  intros H during loaded finished updates.
  pose proof (defers_loadResponse response m H) as (_ & Hquiet & _ & _).
  fold during in Hquiet.
  assert (emitted (loadFromServer_resume promise response) m
          = during ++ flushedUpdates (session loaded)) as Hemitted.
  { unfold loadFromServer_resume. rewrite emitted_bind.
    by rewrite emitted_loadFinally. }
  assert (forall type, type = "todos_updated" \/ type = "tools_updated" ->
            countType type (emitted (loadFromServer_resume promise response) m)
            = countType type (flushedUpdates (session loaded))) as Hcount.
  { intros type Htype. rewrite Hemitted, countType_app.
    by rewrite (countType_quiet type during Hquiet Htype). }
  assert (updates = (if pendingTodosBroadcast (session loaded) then 1 else 0))
    as Hupdates.
  { unfold updates. rewrite Hcount by auto. unfold flushedUpdates.
    by destruct (pendingTodosBroadcast _), (pendingToolsBroadcast _). }
  assert (pendingTodosBroadcast (session loaded)
          = pendingTodosBroadcast (session m)
            || match response with
               | SessionMessages fragments =>
                   negb (bool_decide (todos (session m) = []))
                   || existsb isNonEmptyArray (replayedTodoWrites fragments)
               | SessionFailure _ => false
               end) as Hlatched.
  { unfold loaded. rewrite after_loadResponse_flags. by apply loadTry_latch. }
  split_and!.
  - intros message.
    pose proof (defers_processIncomingMessage message m H) as (? & ? & _). done.
  - intros items Hchanged. clear -H Hchanged. destruct_machine m. cbn in *.
    unfold updateTodosState, emitted, after. rewrite returns_run.
    unfold updateTodosState_normalized. run_op. rewrite Hchanged. cbn. subst. done.
  - intros names Hchanged. clear -H Hchanged. destruct_machine m. cbn in *.
    unfold updateToolsState. run_op. rewrite Hchanged. cbn. subst. done.
  - done.
  - done.
  - done.
  - rewrite Hcount by auto. unfold flushedUpdates.
    by destruct (pendingTodosBroadcast _), (pendingToolsBroadcast _).
  - unfold finished, loadFromServer_resume. rewrite after_bind.
    apply after_loadFinally.
  - unfold finished, loadFromServer_resume. rewrite after_bind.
    apply after_loadFinally.
  - unfold finished, loadFromServer_resume. rewrite after_bind.
    apply after_loadFinally.
  - done.
  - intros fragments -> Harrays Hwrites. rewrite Hupdates, Hlatched.
    unfold replayedTodoWrites. rewrite takeWhile_all.
    + rewrite existsb_flat_map, Hwrites. by rewrite !orb_true_r.
    + by rewrite forallb_flat_map.
  - intros fragments -> Hpending Htodos Hwrites. rewrite Hupdates, Hlatched.
    by rewrite Hpending, Htodos, Hwrites.
Qed.

(** C6 as stated fails: the load of a history with three todo-writing
    invocations, each carrying an empty todo array, into a session with an
    empty todo list detects no change and emits no todos_updated
    notification. *)
Lemma load_of_empty_todo_writes_emits_no_update :
  let history :=
    [todoWriteFragment "a1" []; todoWriteFragment "a2" [];
     todoWriteFragment "a3" []] in
  isLoading (session loadingMachine) = true
  /\ todos (session loadingMachine) = []
  /\ countType "todos_updated"
       (emitted (loadFromServer_resume 0 (SessionMessages history)) loadingMachine)
     = 0.
Proof. repeat split. Qed.

Lemma aggregate_updates_deferred_while_loading_witness :
  let history :=
    [todoWriteFragment "a1" [todoJSON "write" "pending"];
     todoWriteFragment "a2" [todoJSON "write" "in_progress"];
     todoWriteFragment "a3" [todoJSON "write" "completed"]] in
  isLoading (session loadingMachine) = true
  /\ forallb todoWritesAreArrays history = true
  /\ existsb (fun message => existsb isNonEmptyArray (todoArguments message)) history
     = true
  /\ countType "todos_updated"
       (emitted (loadFromServer_resume 0 (SessionMessages history)) loadingMachine)
     = 1.
Proof.
  cbv zeta. split; [reflexivity|]. split; [reflexivity|]. split; [reflexivity|].
  destruct (aggregate_updates_deferred_while_loading loadingMachine 0
              (SessionMessages
                 [todoWriteFragment "a1" [todoJSON "write" "pending"];
                  todoWriteFragment "a2" [todoJSON "write" "in_progress"];
                  todoWriteFragment "a3" [todoJSON "write" "completed"]])
              eq_refl)
    as (_ & _ & _ & _ & _ & _ & _ & _ & _ & _ & _ & Hscenario & _).
  exact (Hscenario _ eq_refl eq_refl eq_refl).
Defined.

(** ** Cancellation *)

(** C8, as amended.  In every state, [cancel] clears the busy flag and the
    reference to the in-flight query, records the user-cancellation error
    and emits one session-info notification, which reports the session as
    inactive; when a cancellation token is held (an operation is in flight),
    it moreover sets the flag of that token and discards the reference to
    it.  Nothing else changes. *)
Theorem cancel_effect (m : Machine) :
  let s := session m in
  session (after cancel m)
  = set_error (Some "Operation cancelled by user")
      (set_queryPromise None
         (set_busy false
            (match cancellationToken s with
             | Some _ => set_cancellationToken None s
             | None => s
             end)))
  /\ tokens (after cancel m)
     = match cancellationToken s with
       | Some token => <[token := true]> (tokens m)
       | None => tokens m
       end
  /\ world (after cancel m) = world m
  /\ promises (after cancel m) = promises m
  /\ emitted cancel m = [session_info (claudeSessionId s) (messageCount s) false].
Proof. destruct_machine m. destruct token; repeat split. Qed.

(** C8 as stated fails: on a fresh session, with nothing in flight, [cancel]
    records the cancellation error and emits a session-info notification. *)
Lemma cancel_idle_not_noop :
  let m := newMachine exampleWorld in
  cancellationToken (session m) = None
  /\ queryPromise (session m) = None
  /\ error (session m) = None
  /\ error (session (after cancel m)) = Some "Operation cancelled by user"
  /\ emitted cancel m = [session_info None 0 false]
  /\ ~ (session (after cancel m) = session m /\ emitted cancel m = []).
Proof.
  cbv zeta. repeat apply conj; try reflexivity.
  intros [_ Hemitted]. discriminate Hemitted.
Qed.

(** ** Subscription *)

(** C9.  [subscribe] called with a value that is not a function throws, and
    leaves the session as it was.  Called with a function, with [id] the
    identifier [nanoid] yields, not in use in the subscriber map: the
    callback is invoked exactly once, with the session-info notification of
    the session, and nothing is broadcast; when that invocation returns,
    [subscribe] returns the unsubscribe closure for [id], the subscriber map
    is the former map with the entry of [id] appended, and calling the
    closure gives back the former map; when that invocation throws,
    [subscribe] throws an error quoting the reason and the subscriber map is
    the former map.  The closure, whenever it is called and whatever has
    been subscribed meanwhile, removes the subscription of [id] and nothing
    else: the subscriber map is left without [id], its other entries are
    kept in their order, the rest of the session is as it was and nothing
    is broadcast.  The keys of the subscriber map, distinct in a [Map], stay
    distinct. *)
Theorem subscribe_registers_or_rolls_back
    (m : Machine) (callback : SessionSubscriberCallback) :
  let s := session m in
  let id := entropy (world m) (drawn (world m)) in
  let info :=
    session_info (claudeSessionId s) (messageCount s) (isSome (queryPromise s)) in
  let subscribed := after (subscribe (Function callback)) m in
  JSMap.has (subscribers s) id = false ->
  subscribe NotAFunction m
  = ({| completion := SubscribeThrows "Subscription callback must be a function";
        invocations := [] |}, m, [])
  /\ invocations (value (subscribe (Function callback)) m) = [info]
  /\ emitted (subscribe (Function callback)) m = []
  /\ (callback info = Returns ->
      completion (value (subscribe (Function callback)) m) = Unsubscribe id
      /\ subscribers (session subscribed) = subscribers s ++ [(id, callback)]
      /\ subscribers (session (after (callUnsubscribe id) subscribed)) = subscribers s)
  /\ (forall reason,
        callback info = Throws reason ->
        completion (value (subscribe (Function callback)) m)
        = SubscribeThrows ("Subscription callback failed: " +:+ reason)
        /\ subscribers (session subscribed) = subscribers s)
  /\ (forall m' key,
        key <> id ->
        JSMap.get (subscribers (session (after (callUnsubscribe id) m'))) key
        = JSMap.get (subscribers (session m')) key)
  /\ (forall m',
        NoDup (JSMap.keys (subscribers (session m'))) ->
        callUnsubscribe id m'
        = (tt,
           {| session :=
                set_subscribers
                  (filter (fun entry => entry.1 <> id)
                     (subscribers (session m')
                      : list (string * SessionSubscriberCallback)))
                  (session m');
              world := world m'; tokens := tokens m'; promises := promises m' |},
           [])
        /\ JSMap.has (subscribers (session (after (callUnsubscribe id) m'))) id
           = false
        /\ NoDup (JSMap.keys (subscribers (session (after (callUnsubscribe id) m')))))
  /\ (NoDup (JSMap.keys (subscribers s)) ->
      NoDup (JSMap.keys (subscribers (session subscribed)))).
Proof.
  intros s id info subscribed Hfresh.
  assert (subscribe (Function callback) m
          = match callback info with
            | Returns =>
                ({| completion := Unsubscribe id; invocations := [info] |},
                 {| session := set_subscribers (JSMap.set (subscribers s) id callback) s;
                    world := set_drawn (S (drawn (world m))) (world m);
                    tokens := tokens m; promises := promises m |}, [])
            | Throws reason =>
                ({| completion :=
                      SubscribeThrows ("Subscription callback failed: " +:+ reason);
                    invocations := [info] |},
                 {| session :=
                      set_subscribers
                        (JSMap.delete (JSMap.set (subscribers s) id callback) id) s;
                    world := set_drawn (S (drawn (world m))) (world m);
                    tokens := tokens m; promises := promises m |}, [])
            end) as Hrun.
  { subst s id info. destruct_machine m.
    unfold subscribe, nanoid, draw, withWorld. run_op.
    by destruct (callback _). }
  unfold subscribed, value, after, emitted. rewrite Hrun. clear Hrun subscribed.
  repeat apply conj.
  - done.
  - by destruct (callback info).
  - by destruct (callback info).
  - intros ->. cbn. rewrite JSMapFacts.set_fresh by done.
    repeat split. rewrite <- (JSMapFacts.set_fresh _ _ callback) by done.
    by apply JSMapFacts.delete_set_fresh.
  - intros reason ->. cbn. split; [done|]. by apply JSMapFacts.delete_set_fresh.
  - intros m' key Hkey. cbn. by apply JSMapFacts.get_delete_ne.
  - intros m' Hdistinct. unfold callUnsubscribe. run_op.
    split; [by rewrite JSMapFacts.delete_filter|].
    split; [|by apply JSMapFacts.NoDup_keys_delete].
    unfold JSMap.has. by rewrite JSMapFacts.get_delete_eq.
  - intros Hdistinct. destruct (callback info); cbn.
    + by apply JSMapFacts.NoDup_keys_set.
    + by apply JSMapFacts.NoDup_keys_delete, JSMapFacts.NoDup_keys_set.
Qed.

Lemma subscribe_registers_or_rolls_back_witness :
  let m := newMachine exampleWorld in
  let failing : SessionSubscriberCallback := fun _ => Throws "no" in
  let observer : SessionSubscriberCallback := fun _ => Returns in
  let first := after (subscribe (Function observer)) m in
  let second := after (subscribe (Function observer)) first in
  JSMap.has (subscribers (session m)) (entropy (world m) (drawn (world m))) = false
  /\ entropy (world m) (drawn (world m)) = "b"
  /\ completion (value (subscribe (Function failing)) m)
     = SubscribeThrows "Subscription callback failed: no"
  /\ subscribers (session (after (subscribe (Function failing)) m))
     = subscribers (session m)
  /\ JSMap.keys (subscribers (session second)) = ["b"; "c"]
  /\ NoDup (JSMap.keys (subscribers (session second)))
  /\ JSMap.keys (subscribers (session (after (callUnsubscribe "b") second))) = ["c"]
  /\ JSMap.has (subscribers (session (after (callUnsubscribe "b") second))) "b"
     = false.
Proof.
  cbv zeta.
  pose (second :=
          after (subscribe (Function (fun _ => Returns)))
            (after (subscribe (Function (fun _ => Returns)))
               (newMachine exampleWorld))).
  assert (NoDup (JSMap.keys (subscribers (session second)))) as Hdistinct.
  { change (NoDup ["b"; "c"]). apply NoDup_cons. split; [|apply NoDup_singleton].
    intros Hin%list_elem_of_singleton. discriminate Hin. }
  destruct (subscribe_registers_or_rolls_back (newMachine exampleWorld)
              (fun _ => Throws "no") eq_refl)
    as (_ & _ & _ & _ & Hthrows & _ & Hremoves & _).
  destruct (Hthrows "no" eq_refl) as [Hcompletion Hsubscribers].
  destruct (Hremoves second Hdistinct) as (_ & Habsent & _).
  split; [reflexivity|]. split; [reflexivity|]. split; [exact Hcompletion|].
  split; [exact Hsubscribers|]. split; [reflexivity|].
  split; [exact Hdistinct|]. split; [reflexivity|exact Habsent].
Defined.

(** ** Fragments whose results answer no invocation *)

Lemma processMessage_user incoming m :
  sdk_type incoming = "user" -> processMessage incoming m = (Normal tt, m, []).
Proof. intros Htype. unfold processMessage. rewrite Htype. reflexivity. Qed.

Lemma applyMessageUpdates_quiet previous next added0 m :
  let result :=
    {| addedMessage := added0; updatedMessages := []; toolResultUpdates := [] |} in
  let diff := diffMessages previous next [] in
  applyMessageUpdates previous next result m
  = (tt,
     {| session := set_messageCount (length next) (set_messages next (session m));
        world := world m; tokens := tokens m; promises := promises m |},
     map (message_removed (claudeSessionId (session m))) (removed diff)
     ++ map (message_added (claudeSessionId (session m))) (added diff)
     ++ map (message_updated (claudeSessionId (session m))) (updated diff)
     ++ [session_info (claudeSessionId (session m)) (length next)
           (isSome (queryPromise (session m)))]).
Proof.
  cbv zeta. unfold applyMessageUpdates. cbn [updatedMessages toolResultUpdates].
  set (diff := diffMessages previous next []).
  unfold mbind at 1 2 3 4 5 6, Op_bind at 1 2 3 4 5 6.
  cbn [assign].
  rewrite (forEach_notifier (removed diff) _
             (fun s x => message_removed (claudeSessionId s) x)) by done.
  rewrite (forEach_notifier (added diff) _
             (fun s x => message_added (claudeSessionId s) x)) by done.
  rewrite (forEach_notifier (updated diff) _
             (fun s x => message_updated (claudeSessionId s) x)) by done.
  reflexivity.
Qed.

Lemma processIncomingMessage_unmatched m incoming blocks :
  let history := messages (session m) in
  let rendered := renderedUserTurn incoming blocks (world m) in
  let diff := diffMessages history (history ++ [rendered]) [] in
  sdk_type incoming = "user" ->
  sdk_content incoming = BlockContent blocks ->
  unmatchedResults history blocks = true ->
  coalescedHistory history ->
  messages (session (after (processIncomingMessage incoming) m)) = history ++ [rendered]
  /\ emitted (processIncomingMessage incoming) m
     = map (message_added (claudeSessionId (session m))) (added diff)
       ++ [session_info (claudeSessionId (session m)) (length (history ++ [rendered]))
             (isSome (queryPromise (session m)))].
Proof.
  intros history rendered diff Htype Hcontent Hunmatched Hstable.
  pose proof (appendRenderableMessage_unmatched history incoming blocks (world m)
                Htype Hcontent Hunmatched) as Happend.
  fold rendered in Happend.
  assert (readPredicate rendered = false) as Hrendered by (by apply readPredicate_user).
  destruct (diffMessages_appended history rendered) as [Hupdated Hremoved].
  fold diff in Hupdated, Hremoved.
  assert (exists final,
             processIncomingMessage incoming m
             = (Normal tt, final,
                map (message_added (claudeSessionId (session m))) (added diff)
                ++ [session_info (claudeSessionId (session m))
                      (length (history ++ [rendered]))
                      (isSome (queryPromise (session m)))])
             /\ messages (session final) = history ++ [rendered])
    as (final & Hrun & Hmessages).
  { unfold processIncomingMessage. rewrite andThen_run.
    unfold value, after, emitted.
    rewrite !(processMessage_user incoming m Htype). cbn [fst snd app].
    match goal with |- context [returns ?tail m] =>
      assert (exists final,
                tail m
                = (tt, final,
                   map (message_added (claudeSessionId (session m))) (added diff)
                   ++ [session_info (claudeSessionId (session m))
                         (length (history ++ [rendered]))
                         (isSome (queryPromise (session m)))])
                /\ messages (session final) = history ++ [rendered])
        as (final & Htail & Hfinal);
        [|rewrite returns_run; unfold value, after, emitted; rewrite Htail;
          by exists final]
    end.
    unfold mbind, Op_bind.
    unfold this at 1. lazy beta iota zeta.
    rewrite withWorld_run. fold history. rewrite Happend.
    lazy beta iota zeta. cbn [fst snd session world tokens promises].
    rewrite withWorld_run. cbn [fst snd session world tokens promises].
    rewrite (coalesced_snoc history rendered _ Hstable Hrendered).
    cbn [fst snd].
    rewrite applyMessageUpdates_quiet. fold diff. rewrite Hupdated, Hremoved.
    cbn [map app session world tokens promises].
    rewrite withWorld_run. unfold assign, this.
    cbn [fst snd session world tokens promises]. lazy beta iota zeta.
    destruct (bool_decide (sdk_type incoming = "system"));
      [destruct (bool_decide (sdk_subtype incoming = Some "init"))
      |destruct (bool_decide (sdk_type incoming = "result"))];
      cbn [mret Op_ret]; rewrite ?app_nil_r;
      (eexists; split; [reflexivity|reflexivity]). }
  unfold after, emitted. rewrite Hrun. by split.
Qed.

Lemma applyMessageUpdates_history previous next result m :
  historyOf (after (applyMessageUpdates previous next result) m) = next.
Proof.
  unfold applyMessageUpdates. rewrite !after_bind.
  repeat match goal with |- historyOf (after ?op _) = _ =>
    assert (preserves historyOf op) as ->
      by (unfold emitSessionInfo; auto 30 with frame)
  end.
  reflexivity.
Qed.

Lemma preserves_history_todoBlockOp block : preserves historyOf (todoBlockOp block).
Proof.
  unfold todoBlockOp, updateTodosState.
  destruct (todoWriteArgument block) as [[]|]; auto with frame.
  unfold updateTodosState_normalized, emitTodosUpdate. auto 10 with frame.
Qed.

Lemma preserves_history_processMessage message :
  preserves historyOf (processMessage message).
Proof.
  unfold processMessage, handleAssistantMessage.
  destruct (bool_decide (sdk_type message = "assistant")).
  - apply preserves_andThen.
    + destruct (sdk_content message); [auto with frame|].
      apply preserves_forEachTry, preserves_history_todoBlockOp.
    + intros _. unfold updateUsage, usageData_set. auto 10 with frame.
  - unfold updateToolsState, emitToolsUpdate, handleResultMessage, usageData_set.
    auto 30 with frame.
Qed.

(** The history a session stores is one the coalescer leaves alone: a
    fragment that is processed stores an output of the coalescer, and one
    whose processing throws leaves the history as it was. *)
Lemma processIncomingMessage_coalescedHistory incoming m :
  coalescedHistory (historyOf m) ->
  coalescedHistory (historyOf (after (processIncomingMessage incoming) m)).
Proof.
  intros Hstable. unfold processIncomingMessage. rewrite after_andThen.
  destruct (value (processMessage incoming) m).
  - rewrite after_returns, !after_bind.
    repeat match goal with |- coalescedHistory (historyOf (after ?op _)) =>
      assert (preserves historyOf op) as -> by auto 30 with frame
    end.
    rewrite applyMessageUpdates_history.
    unfold value at 1. rewrite withWorld_run. cbn [fst].
    apply coalescedHistory_coalesced.
  - by rewrite preserves_history_processMessage.
Qed.

(** C10.  Let a user fragment with block content arrive at a session.  A
    tool-result block of the fragment whose id no assistant turn of the
    history invokes is skipped by the linking loop: the loop ends in the
    state it reaches on the fragment without that block.  Whatever the
    blocks, the fragment is rendered to a turn holding one part per block,
    appended after the linked history.  When no tool-result block of the
    fragment is matched, the history is returned unchanged in front of the
    new turn and the result record lists no updated turn and no tool-result
    update; processing the fragment in a session whose history the coalescer
    leaves alone then stores the history followed by the new turn, and emits
    the added-turn notifications and a session-info notification only: no
    message_updated and no tool_result_updated notification. *)
Theorem unmatched_result_dropped_from_linking
    (m : Machine) (incoming : SDKMessage) (blocks : list MessageContentBlock) :
  let history := messages (session m) in
  let rendered := renderedUserTurn incoming blocks (world m) in
  let outcome := appendRenderableMessage history incoming (world m) in
  sdk_type incoming = "user" ->
  sdk_content incoming = BlockContent blocks ->
  (forall before result rest,
     blocks = before ++ ToolResultBlock result :: rest ->
     hasInvocation history (tool_use_id result) = false ->
     linkToolResults history incoming
     = foldl linkBlock
         {| link_messages := history; link_updated := [];
            link_toolResultUpdates := [] |}
         (before ++ rest))
  /\ outcome.1.1 = link_messages (linkToolResults history incoming) ++ [rendered]
  /\ addedMessage outcome.1.2 = Some rendered
  /\ msg_content rendered = map newChatMessagePart blocks
  /\ (unmatchedResults history blocks = true ->
      outcome.1
      = (history ++ [rendered],
         {| addedMessage := Some rendered; updatedMessages := [];
            toolResultUpdates := [] |})
      /\ (coalescedHistory history ->
          messages (session (after (processIncomingMessage incoming) m))
          = history ++ [rendered]
          /\ Forall
               (fun notification =>
                  broadcast_type notification <> "message_updated"
                  /\ broadcast_type notification <> "tool_result_updated")
               (emitted (processIncomingMessage incoming) m))).
Proof.
  intros history rendered outcome Htype Hcontent.
  assert (outcome.1.1 = link_messages (linkToolResults history incoming) ++ [rendered]
          /\ addedMessage outcome.1.2 = Some rendered) as [Hlist Hadded].
  { unfold outcome, appendRenderableMessage.
    rewrite (createChatMessage_user incoming blocks (world m) Htype Hcontent).
    by split. }
  repeat apply conj; try done.
  - intros before result rest -> Hnone. unfold linkToolResults.
    rewrite (bool_decide_eq_true_2 _ Htype), Hcontent.
    by apply foldl_linkBlock_skips.
  - intros Hunmatched. split.
    { unfold outcome.
      by rewrite (appendRenderableMessage_unmatched history incoming blocks (world m)). }
    intros Hstable.
    destruct (processIncomingMessage_unmatched m incoming blocks
                Htype Hcontent Hunmatched Hstable) as [Hmessages Hemitted].
    split; [exact Hmessages|]. rewrite Hemitted. apply Forall_app. split.
    + apply Forall_forall. intros notification Hin.
      apply list_elem_of_fmap in Hin as (turn & -> & _). by split.
    + by repeat constructor.
Qed.

Lemma unmatched_result_dropped_from_linking_witness :
  let m := after (assign (set_messages [twiceInvokedTurn])) (newMachine exampleWorld) in
  let blocks := [TextBlock "done"; ToolResultBlock (okResult "Y")] in
  let incoming := userFragment "u1" blocks in
  let rendered := renderedUserTurn incoming blocks (world m) in
  sdk_type incoming = "user"
  /\ sdk_content incoming = BlockContent blocks
  /\ unmatchedResults [twiceInvokedTurn] blocks = true
  /\ coalescedHistory [twiceInvokedTurn]
  /\ messages (session (after (processIncomingMessage incoming) m))
     = [twiceInvokedTurn; rendered]
  /\ emitted (processIncomingMessage incoming) m
     = [message_added None rendered; session_info None 2 false].
Proof.
  cbv zeta.
  assert (coalescedHistory [twiceInvokedTurn]) as Hstable by (by intros w).
  split; [reflexivity|]. split; [reflexivity|]. split; [reflexivity|].
  split; [exact Hstable|]. split; [|reflexivity].
  destruct (unmatched_result_dropped_from_linking
              (after (assign (set_messages [twiceInvokedTurn])) (newMachine exampleWorld))
              (userFragment "u1" [TextBlock "done"; ToolResultBlock (okResult "Y")])
              [TextBlock "done"; ToolResultBlock (okResult "Y")] eq_refl eq_refl)
    as (_ & _ & _ & _ & Hunmatched).
  destruct (Hunmatched eq_refl) as [_ Hprocessed].
  exact (proj1 (Hprocessed Hstable)).
Defined.

(** ** Calls of [send] that wait for the query in flight *)

Lemma resumeWaiters_cons settled outcome call rest m :
  value (resumeWaiters settled outcome (call :: rest)) m
  = value
      (match phase call with
       | AwaitingPrevious previous =>
           if bool_decide (previous = settled) then
             match outcome with
             | Rejected reason => mret (set_phase (Abandoned reason) call)
             | _ =>
                 own ← sendStart (send_prompt call) (send_attachments call);
                 mret (set_phase (Streaming own) call)
             end
           else mret call
       | _ => mret call
       end) m
    :: value (resumeWaiters settled outcome rest)
         (after
            (match phase call with
             | AwaitingPrevious previous =>
                 if bool_decide (previous = settled) then
                   match outcome with
                   | Rejected reason => mret (set_phase (Abandoned reason) call)
                   | _ =>
                       own ← sendStart (send_prompt call) (send_attachments call);
                       mret (set_phase (Streaming own) call)
                   end
                 else mret call
             | _ => mret call
             end) m).
Proof.
  cbn [resumeWaiters]. rewrite value_bind. rewrite value_bind. reflexivity.
Qed.

Lemma resumeWaiters_lookup settled outcome waiting m waiter call :
  waiting !! waiter = Some call ->
  phase call = AwaitingPrevious settled ->
  exists resumed,
    value (resumeWaiters settled outcome waiting) m !! waiter = Some resumed
    /\ match outcome with
       | Rejected reason => phase resumed = Abandoned reason
       | _ => isStreaming resumed = true
       end.
Proof.
  revert m waiter. induction waiting as [|head rest IH]; intros m waiter Hcall Hphase;
    [done|].
  rewrite resumeWaiters_cons. destruct waiter as [|waiter].
  - injection Hcall as ->. rewrite Hphase.
    rewrite (bool_decide_eq_true_2 _ eq_refl).
    destruct outcome; eexists; (split; [reflexivity|]); try done.
    + by rewrite value_bind.
    + by rewrite value_bind.
  - cbn [lookup list_lookup]. by apply IH.
Qed.

(** C7 (the source departs from it).  Let the query of a call of [send] be
    streaming, with promise [own].  When that stream ends, every call
    suspended at the initial [await] on [own] resumes in the same turn of
    the event loop and enters its own streaming loop, whatever the other
    resumed calls have stored in [queryPromise] meanwhile: with two calls
    waiting, two streaming loops are active at once.  When that stream
    throws, every such call is rejected with the reason, without having
    started. *)
Theorem waiting_sends_resume_together (state : EventLoop) (index own : nat) :
  (phase <$> calls state !! index) = Some (Streaming own) ->
  forall waiter,
    (phase <$> calls state !! waiter) = Some (AwaitingPrevious own) ->
    (isStreaming <$> calls (step state (StreamEnds index)).1 !! waiter) = Some true
    /\ forall reason,
         (phase <$> calls (step state (StreamThrows index reason)).1 !! waiter)
         = Some (Abandoned reason).
Proof.
  intros Hindex waiter Hwaiter.
  destruct (calls state !! waiter) as [call|] eqn:Hcall; [|done].
  injection Hwaiter as Hphase.
  assert (index <> waiter) as Hne.
  { intros ->. rewrite Hcall in Hindex. cbn in Hindex. congruence. }
  assert (forall result,
            alter (set_phase (Returned result)) index (calls state) !! waiter
            = Some call) as Haltered.
  { intros result. by rewrite list_lookup_alter_ne. }
  unfold step, react. rewrite Hindex. split; [|intros reason].
  - destruct (finishCall index own None (calls state) (machine state))
      as [[all final] trace] eqn:Hrun. cbn [fst calls].
    assert (all = value (finishCall index own None (calls state)) (machine state))
      as -> by (unfold value; by rewrite Hrun).
    unfold finishCall. rewrite value_bind.
    destruct (resumeWaiters_lookup own Fulfilled _
                (after (queryCompletes own) (machine state)) waiter call
                (Haltered (value (queryCompletes own) (machine state))) Hphase) as (resumed & -> & Hresumed).
    cbn. by rewrite Hresumed.
  - destruct (finishCall index own (Some reason) (calls state) (machine state))
      as [[all final] trace] eqn:Hrun. cbn [fst calls].
    assert (all = value (finishCall index own (Some reason) (calls state))
                    (machine state))
      as -> by (unfold value; by rewrite Hrun).
    unfold finishCall. rewrite value_bind.
    destruct (resumeWaiters_lookup own (Rejected reason) _
                (after (queryFails own reason) (machine state)) waiter call
                (Haltered (value (queryFails own reason) (machine state))) Hphase) as (resumed & -> & Hresumed).
    cbn. by rewrite Hresumed.
Qed.

Lemma waiting_sends_resume_together_witness :
  let waiting :=
    run (newEventLoop exampleWorld)
      [CallSend "first" None; CallSend "second" None; CallSend "third" None] in
  let resumed := (step waiting (StreamEnds 0)).1 in
  (phase <$> calls waiting !! 0) = Some (Streaming 0)
  /\ (phase <$> calls waiting !! 1) = Some (AwaitingPrevious 0)
  /\ (phase <$> calls waiting !! 2) = Some (AwaitingPrevious 0)
  /\ streamingCalls waiting = [0]
  /\ (isStreaming <$> calls resumed !! 1) = Some true
  /\ (isStreaming <$> calls resumed !! 2) = Some true
  /\ streamingCalls resumed = [1; 2]
  /\ queryPromise (session (machine resumed)) = Some 2
  /\ (phase <$> calls (step waiting (StreamThrows 0 "boom")).1 !! 1)
     = Some (Abandoned "boom").
Proof.
  cbv zeta.
  pose (waiting :=
          run (newEventLoop exampleWorld)
            [CallSend "first" None; CallSend "second" None; CallSend "third" None]).
  assert ((phase <$> calls waiting !! 0) = Some (Streaming 0)) as Hfirst
    by reflexivity.
  assert ((phase <$> calls waiting !! 1) = Some (AwaitingPrevious 0)) as Hsecond
    by reflexivity.
  assert ((phase <$> calls waiting !! 2) = Some (AwaitingPrevious 0)) as Hthird
    by reflexivity.
  split; [exact Hfirst|]. split; [exact Hsecond|]. split; [exact Hthird|].
  split; [reflexivity|].
  split; [exact (proj1 (waiting_sends_resume_together waiting 0 0 Hfirst 1 Hsecond))|].
  split; [exact (proj1 (waiting_sends_resume_together waiting 0 0 Hfirst 2 Hthird))|].
  split; [reflexivity|]. split; [reflexivity|].
  exact (proj2 (waiting_sends_resume_together waiting 0 0 Hfirst 1 Hsecond) "boom").
Defined.

(** ** What the linker's search returns *)

Lemma scanAny_list_find parts toolUseId start :
  scanAny parts toolUseId start
  = (fun found : nat * ChatMessagePart => start + found.1)
    <$> list_find (fun part => isToolUseWithId (part_content part) toolUseId = true) parts.
Proof.
  revert start. induction parts as [|part rest IH]; intros start; [done|].
  cbn [scanAny list_find]. case_decide as Hpart.
  - rewrite Hpart. cbn. f_equal. lia.
  - apply not_true_is_false in Hpart. rewrite Hpart, IH.
    destruct (list_find _ rest) as [[i x]|]; [|done]. cbn. f_equal. lia.
Qed.

Lemma scanPending_list_find parts toolUseId start :
  scanPending parts toolUseId start
  = match list_find (fun part => isToolUseWithId (part_content part) toolUseId = true)
            parts with
    | Some (position, part) =>
        match toolResult part with
        | None => PendingFound (start + position)
        | Some _ => PendingBreak
        end
    | None => PendingNone
    end.
Proof.
  revert start. induction parts as [|part rest IH]; intros start; [done|].
  cbn [scanPending list_find]. case_decide as Hpart.
  - rewrite Hpart. destruct (toolResult part); [done|].
    f_equal. lia.
  - apply not_true_is_false in Hpart. rewrite Hpart, IH.
    destruct (list_find _ rest) as [[i x]|]; [|done]. cbn.
    destruct (toolResult x); [done|]. f_equal. lia.
Qed.

Lemma findPendingFrom_spec history toolUseId remaining :
  match findPendingFrom history toolUseId remaining with
  | Some (index, position) =>
      index < remaining
      /\ exists message part,
           history !! index = Some message
           /\ firstInvocation message toolUseId = Some (position, part)
           /\ toolResult part = None
           /\ forall later newer found,
                index < later < remaining ->
                history !! later = Some newer ->
                firstInvocation newer toolUseId = Some found ->
                toolResult found.2 <> None
  | None =>
      forall index message found,
        index < remaining ->
        history !! index = Some message ->
        firstInvocation message toolUseId = Some found ->
        toolResult found.2 <> None
  end.
Proof.
  induction remaining as [|index IH]; [intros ?; lia|].
  cbn [findPendingFrom].
  assert (forall message,
            history !! index = Some message ->
            (forall found, firstInvocation message toolUseId = Some found ->
                           toolResult found.2 <> None) ->
            match findPendingFrom history toolUseId index with
            | Some (index0, position) =>
                index0 < S index
                /\ exists message0 part,
                     history !! index0 = Some message0
                     /\ firstInvocation message0 toolUseId = Some (position, part)
                     /\ toolResult part = None
                     /\ forall later newer found,
                          index0 < later < S index ->
                          history !! later = Some newer ->
                          firstInvocation newer toolUseId = Some found ->
                          toolResult found.2 <> None
            | None =>
                forall index0 message0 found,
                  index0 < S index ->
                  history !! index0 = Some message0 ->
                  firstInvocation message0 toolUseId = Some found ->
                  toolResult found.2 <> None
            end) as Hskip.
  { intros message Hmessage Hanswered.
    destruct (findPendingFrom history toolUseId index) as [[index0 position]|].
    - destruct IH as (Hlt & message0 & part & H0 & Hfirst & Hnone & Hlater).
      split; [lia|]. exists message0, part. repeat split; try done.
      intros later newer found Hrange Hnewer Hfound.
      destruct (decide (later = index)) as [->|Hne].
      + rewrite Hmessage in Hnewer. injection Hnewer as <-. by apply Hanswered.
      + eapply (Hlater later); [lia|done|done].
    - intros index0 message0 found Hlt H0 Hfound.
      destruct (decide (index0 = index)) as [->|Hne].
      + rewrite Hmessage in H0. injection H0 as <-. by apply Hanswered.
      + eapply (IH index0); [lia|done|done]. }
  destruct (history !! index) as [message|] eqn:Hmessage.
  - unfold firstInvocation in Hskip |- *.
    destruct (decide (msg_type message = "assistant")) as [Ha|Ha].
    + rewrite (bool_decide_eq_true_2 _ Ha). cbn [negb].
      rewrite scanPending_list_find.
      destruct (list_find _ (msg_content message)) as [[position part]|] eqn:Hfind.
      * destruct (toolResult part) as [result|] eqn:Hresult.
        -- apply (Hskip message eq_refl). intros found.
           rewrite (bool_decide_eq_true_2 _ Ha), Hfind. intros [= <-]. cbn. congruence.
        -- split; [lia|]. exists message, part.
           rewrite (bool_decide_eq_true_2 _ Ha). repeat split; try done.
           intros later newer found Hrange. lia.
      * apply (Hskip message eq_refl). intros found.
        by rewrite (bool_decide_eq_true_2 _ Ha), Hfind.
    + rewrite (bool_decide_eq_false_2 _ Ha). cbn [negb].
      apply (Hskip message eq_refl). intros found.
      by rewrite (bool_decide_eq_false_2 _ Ha).
  - destruct (findPendingFrom history toolUseId index) as [[index0 position]|].
    + destruct IH as (Hlt & message0 & part & H0 & Hfirst & Hnone & Hlater).
      split; [lia|]. exists message0, part. repeat split; try done.
      intros later newer found Hrange Hnewer Hfound.
      destruct (decide (later = index)) as [->|Hne]; [congruence|].
      eapply (Hlater later); [lia|done|done].
    + intros index0 message0 found Hlt H0 Hfound.
      destruct (decide (index0 = index)) as [->|Hne]; [congruence|].
      eapply (IH index0); [lia|done|done].
Qed.

Lemma findAnyFrom_spec history toolUseId remaining :
  match findAnyFrom history toolUseId remaining with
  | Some (index, position) =>
      index < remaining
      /\ exists message part,
           history !! index = Some message
           /\ firstInvocation message toolUseId = Some (position, part)
           /\ forall later newer,
                index < later < remaining ->
                history !! later = Some newer ->
                firstInvocation newer toolUseId = None
  | None =>
      forall index message,
        index < remaining ->
        history !! index = Some message ->
        firstInvocation message toolUseId = None
  end.
Proof.
  induction remaining as [|index IH]; [intros ?; lia|].
  cbn [findAnyFrom].
  assert ((forall message, history !! index = Some message ->
                           firstInvocation message toolUseId = None) ->
            match findAnyFrom history toolUseId index with
            | Some (index0, position) =>
                index0 < S index
                /\ exists message0 part,
                     history !! index0 = Some message0
                     /\ firstInvocation message0 toolUseId = Some (position, part)
                     /\ forall later newer,
                          index0 < later < S index ->
                          history !! later = Some newer ->
                          firstInvocation newer toolUseId = None
            | None =>
                forall index0 message0,
                  index0 < S index ->
                  history !! index0 = Some message0 ->
                  firstInvocation message0 toolUseId = None
            end) as Hskip.
  { intros Hnone.
    destruct (findAnyFrom history toolUseId index) as [[index0 position]|].
    - destruct IH as (Hlt & message0 & part & H0 & Hfirst & Hlater).
      split; [lia|]. exists message0, part. repeat split; try done.
      intros later newer Hrange Hnewer.
      destruct (decide (later = index)) as [->|Hne]; [by apply Hnone|].
      eapply (Hlater later); [lia|done].
    - intros index0 message0 Hlt H0.
      destruct (decide (index0 = index)) as [->|Hne]; [by apply Hnone|].
      eapply (IH index0); [lia|done]. }
  destruct (history !! index) as [message|] eqn:Hmessage; [|by apply Hskip].
  unfold firstInvocation in Hskip |- *.
  destruct (decide (msg_type message = "assistant")) as [Ha|Ha].
  - rewrite (bool_decide_eq_true_2 _ Ha). cbn [negb]. rewrite scanAny_list_find.
    destruct (list_find _ (msg_content message)) as [[position part]|] eqn:Hfind.
    + cbn. split; [lia|]. exists message, part.
      rewrite (bool_decide_eq_true_2 _ Ha). repeat split; try done.
      intros later newer Hrange. lia.
    + cbn. apply Hskip. intros ? [= <-].
      by rewrite (bool_decide_eq_true_2 _ Ha).
  - rewrite (bool_decide_eq_false_2 _ Ha). cbn [negb].
    apply Hskip. intros ? [= <-]. by rewrite (bool_decide_eq_false_2 _ Ha).
Qed.

(** X1.  When [findMostRecentToolUse] returns a target, the target is the
    first invocation part of the queried id in the turn at the returned
    index; in every later turn whose first invocation of the id exists, that
    invocation is answered; and when the target itself is answered (the
    fallback), every first invocation of the id in the history is answered
    and none sits in a later turn.  When it returns nothing, no turn of the
    history holds an invocation of the id. *)
Theorem findMostRecentToolUse_target (history : list ChatMessage) (toolUseId : string) :
  match findMostRecentToolUse history toolUseId with
  | Some (index, position) =>
      exists message part,
        history !! index = Some message
        /\ firstInvocation message toolUseId = Some (position, part)
        /\ (forall later newer found,
              index < later ->
              history !! later = Some newer ->
              firstInvocation newer toolUseId = Some found ->
              toolResult found.2 <> None)
        /\ (toolResult part <> None ->
            forall other older found,
              history !! other = Some older ->
              firstInvocation older toolUseId = Some found ->
              other <= index /\ toolResult found.2 <> None)
  | None =>
      forall message, message ∈ history -> firstInvocation message toolUseId = None
  end.
Proof.
  unfold findMostRecentToolUse.
  pose proof (findPendingFrom_spec history toolUseId (length history)) as Hpending.
  pose proof (findAnyFrom_spec history toolUseId (length history)) as Hany.
  destruct (findPendingFrom history toolUseId (length history))
    as [[index position]|].
  - destruct Hpending as (Hlt & message & part & Hm & Hfirst & Hnone & Hlater).
    exists message, part. split; [done|]. split; [done|]. split; [|congruence].
    intros later newer found Hrange Hnewer. apply (Hlater later); [|done].
    split; [done|]. by eapply lookup_lt_Some.
  - destruct (findAnyFrom history toolUseId (length history)) as [[index position]|].
    + destruct Hany as (Hlt & message & part & Hm & Hfirst & Hlater).
      exists message, part.
      assert (forall other older found,
                history !! other = Some older ->
                firstInvocation older toolUseId = Some found ->
                other <= index /\ toolResult found.2 <> None) as Hall.
      { intros other older found Hother Hfound.
        pose proof (lookup_lt_Some _ _ _ Hother) as Hbound. split.
        - destruct (decide (other <= index)) as [|Hgt]; [done|].
          rewrite (Hlater other older) in Hfound; [done|lia|done].
        - by eapply (Hpending other). }
      split; [done|]. split; [done|]. split; [|by intros _].
      intros later newer found Hrange Hnewer Hfound.
      by destruct (Hall later newer found Hnewer Hfound).
    + intros message [index Hm]%list_elem_of_lookup.
      apply (Hany index); [|done]. by eapply lookup_lt_Some.
Qed.

Lemma firstInvocation_Some message toolUseId position part :
  firstInvocation message toolUseId = Some (position, part) ->
  msg_type message = "assistant"
  /\ msg_content message !! position = Some part
  /\ isToolUseWithId (part_content part) toolUseId = true.
Proof.
  unfold firstInvocation. case_bool_decide as Ha; [|done].
  intros (Hpart & Hmatch & _)%list_find_Some. done.
Qed.

Lemma findMostRecentToolUse_Some history toolUseId index position :
  findMostRecentToolUse history toolUseId = Some (index, position) ->
  exists message part,
    history !! index = Some message
    /\ msg_type message = "assistant"
    /\ msg_content message !! position = Some part
    /\ isToolUseWithId (part_content part) toolUseId = true.
Proof.
  unfold findMostRecentToolUse.
  pose proof (findPendingFrom_spec history toolUseId (length history)) as Hpending.
  pose proof (findAnyFrom_spec history toolUseId (length history)) as Hany.
  destruct (findPendingFrom history toolUseId (length history)) as [[i p]|].
  - intros [= -> ->].
    destruct Hpending as (_ & message & part & Hm & Hfirst & _).
    exists message, part. split; [done|]. by apply firstInvocation_Some.
  - destruct (findAnyFrom history toolUseId (length history)) as [[i p]|]; [|done].
    intros [= -> ->]. destruct Hany as (_ & message & part & Hm & Hfirst & _).
    exists message, part. split; [done|]. by apply firstInvocation_Some.
Qed.

Lemma linkedPart_refl blocks part : linkedPart blocks part part.
Proof. split; [done|by left]. Qed.

Lemma linkedTurn_refl blocks message : linkedTurn blocks message message.
Proof.
  repeat split. apply Forall2_same_length_lookup. split; [done|].
  intros i x y Hx Hy. rewrite Hx in Hy. injection Hy as <-. apply linkedPart_refl.
Qed.

Lemma linkedTurns_refl blocks history : Forall2 (linkedTurn blocks) history history.
Proof.
  apply Forall2_same_length_lookup. split; [done|].
  intros i x y Hx Hy. rewrite Hx in Hy. injection Hy as <-. apply linkedTurn_refl.
Qed.

(** Attaching a result found by the search keeps the relation to the
    history the loop started from. *)
Lemma linkedTurns_setToolResultAt blocks history current index position result :
  Forall2 (linkedTurn blocks) history current ->
  ToolResultBlock result ∈ blocks ->
  findMostRecentToolUse current (tool_use_id result) = Some (index, position) ->
  Forall2 (linkedTurn blocks) history
    (setToolResultAt current (index, position) result).
Proof.
  intros Hlinked Hblock Hfound.
  destruct (findMostRecentToolUse_Some _ _ _ _ Hfound)
    as (message & part & Hm & Ha & Hp & Hmatch).
  unfold setToolResultAt. cbn [fst snd]. rewrite Hm, Hp.
  destruct (Forall2_lookup_r _ _ _ _ _ Hlinked Hm) as (old & Hold & Hturn).
  rewrite <- (list_insert_id history index old Hold).
  apply Forall2_insert; [done|].
  destruct Hturn as (Href & Htype & Hid & Htime & Hparts & Hother).
  repeat split; cbn; try done.
  - destruct (Forall2_lookup_r _ _ _ _ _ Hparts Hp) as (oldPart & HoldPart & Hpart).
    rewrite <- (list_insert_id (msg_content old) position oldPart HoldPart).
    apply Forall2_insert; [done|].
    destruct Hpart as [Hcontent _]. split; [done|]. right. exists result.
    repeat split; [done|]. by rewrite <- Hcontent.
  - intros Hne. congruence.
Qed.

Lemma linkedTurns_linkBlock blocks history state block :
  Forall2 (linkedTurn blocks) history (link_messages state) ->
  block ∈ blocks ->
  Forall2 (linkedTurn blocks) history (link_messages (linkBlock state block)).
Proof.
  intros Hlinked Hblock. unfold linkBlock. destruct block as [| | | | |result]; try done.
  destruct (findMostRecentToolUse _ _) as [[index position]|] eqn:Hfound; [|done].
  cbn [link_messages]. by apply linkedTurns_setToolResultAt.
Qed.

Lemma linkedTurns_foldl blocks history state done_ todo :
  blocks = done_ ++ todo ->
  Forall2 (linkedTurn blocks) history (link_messages state) ->
  Forall2 (linkedTurn blocks) history (link_messages (foldl linkBlock state todo)).
Proof.
  revert state done_. induction todo as [|block rest IH]; intros state done_ -> Hlinked;
    [done|].
  cbn [foldl]. apply (IH _ (done_ ++ [block])); [by rewrite <- app_assoc|].
  apply linkedTurns_linkBlock; [done|]. rewrite elem_of_app. right. by left.
Qed.

Lemma linkToolResults_linked history incoming :
  Forall2 (linkedTurn (linkedBlocks incoming)) history
    (link_messages (linkToolResults history incoming)).
Proof.
  unfold linkToolResults, linkedBlocks.
  destruct (bool_decide (sdk_type incoming = "user")); [|apply linkedTurns_refl].
  destruct (sdk_content incoming) as [text|blocks]; [apply linkedTurns_refl|].
  apply (linkedTurns_foldl blocks history _ []); [done|]. apply linkedTurns_refl.
Qed.

Lemma createChatMessage_None incoming w :
  (createChatMessageFromSDKMessage incoming w).1 = None
  <-> sdk_type incoming = "stream_event".
Proof.
  unfold createChatMessageFromSDKMessage.
  destruct (extractMessageUuid incoming w) as [id w1].
  destruct (decide (sdk_type incoming = "user")) as [Hu|Hu].
  { rewrite (bool_decide_eq_true_2 _ Hu). cbn [orb].
    destruct (sdk_content incoming); cbn; rewrite Hu; split; done. }
  rewrite (bool_decide_eq_false_2 _ Hu). cbn [orb].
  destruct (decide (sdk_type incoming = "assistant")) as [Ha|Ha].
  { rewrite (bool_decide_eq_true_2 _ Ha).
    destruct (sdk_content incoming); cbn; rewrite Ha; split; done. }
  rewrite (bool_decide_eq_false_2 _ Ha).
  case_bool_decide as Hs; cbn; split; done.
Qed.

(** X2.  [appendRenderableMessage] returns the turns of the history it is
    given, in their order, each one the same object with the same type, id
    and timestamp and with its parts changed at most in their result slot,
    which then holds a result block of the fragment answering the id of the
    part; a turn that is not an assistant turn is untouched.  The rendered
    turn of the fragment, when there is one, follows them and is the turn
    reported as added; no turn is rendered exactly when the fragment is a
    stream event. *)
Theorem appendRenderableMessage_frame
    (history : list ChatMessage) (incoming : SDKMessage) (w : World) :
  let outcome := appendRenderableMessage history incoming w in
  let rendered := (createChatMessageFromSDKMessage incoming w).1 in
  exists linked,
    outcome.1.1 = linked ++ option_list rendered
    /\ addedMessage outcome.1.2 = rendered
    /\ Forall2 (linkedTurn (linkedBlocks incoming)) history linked
    /\ (rendered = None <-> sdk_type incoming = "stream_event").
Proof.
  cbv zeta. exists (link_messages (linkToolResults history incoming)).
  split; [|split; [|split]].
  - unfold appendRenderableMessage.
    destruct (createChatMessageFromSDKMessage incoming w) as [[created|] w1]; cbn;
      [done|by rewrite app_nil_r].
  - unfold appendRenderableMessage.
    by destruct (createChatMessageFromSDKMessage incoming w) as [[created|] w1].
  - apply linkToolResults_linked.
  - apply createChatMessage_None.
Qed.

(** ** The status of a tool invocation *)

Lemma firstToolUseStatus_list_find parts :
  firstToolUseStatus parts
  = (fun found : nat * ChatMessagePart =>
       match toolResult found.2 with
       | None => StatusProgress
       | Some result => if is_error result then StatusFailure else StatusSuccess
       end)
    <$> list_find (fun part => isToolUsePart part = true) parts.
Proof.
  induction parts as [|part rest IH]; [done|].
  cbn [firstToolUseStatus list_find]. case_decide as Hpart.
  - rewrite Hpart. cbn. by destruct (toolResult part).
  - apply not_true_is_false in Hpart. rewrite Hpart, IH.
    by destruct (list_find _ rest) as [[i x]|].
Qed.

Lemma isToolUseWithId_isToolUsePart part toolUseId :
  isToolUseWithId (part_content part) toolUseId = true -> isToolUsePart part = true.
Proof. unfold isToolUsePart. by destruct (part_content part). Qed.

Lemma isToolUseWithId_unique content id1 id2 :
  isToolUseWithId content id1 = true -> isToolUseWithId content id2 = true -> id1 = id2.
Proof.
  destruct content; try done. cbn.
  intros H1%bool_decide_eq_true_1 H2%bool_decide_eq_true_1. congruence.
Qed.

(** The search on a history whose last turn is an assistant turn with a
    pending first invocation of the id. *)
Lemma findMostRecentToolUse_last before turn toolUseId position part :
  msg_type turn = "assistant" ->
  list_find (fun part => isToolUseWithId (part_content part) toolUseId = true)
    (msg_content turn) = Some (position, part) ->
  toolResult part = None ->
  findMostRecentToolUse (before ++ [turn]) toolUseId = Some (length before, position).
Proof.
  intros Ha Hfind Hnone. unfold findMostRecentToolUse.
  rewrite length_app. cbn [length]. rewrite Nat.add_1_r. cbn [findPendingFrom].
  rewrite lookup_app_r by lia. rewrite Nat.sub_diag. cbn [lookup list_lookup].
  rewrite (bool_decide_eq_true_2 _ Ha). cbn [negb].
  rewrite scanPending_list_find, Hfind, Hnone. done.
Qed.

(** Linking with blocks none of which answers the id of a part leaves the
    slot of that part as it is. *)
Lemma linkedTurns_other_ids blocks history linked index turn position part toolUseId :
  Forall2 (linkedTurn blocks) history linked ->
  Forall (fun block => answers toolUseId block = false) blocks ->
  history !! index = Some turn ->
  msg_content turn !! position = Some part ->
  isToolUseWithId (part_content part) toolUseId = true ->
  exists turn',
    linked !! index = Some turn'
    /\ msg_type turn' = msg_type turn
    /\ map part_content (msg_content turn') = map part_content (msg_content turn)
    /\ msg_content turn' !! position = Some part.
Proof.
  intros Hlinked Hothers Hturn Hpart Hmatch.
  destruct (Forall2_lookup_l _ _ _ _ _ Hlinked Hturn) as (turn' & Hturn' & Hrel).
  destruct Hrel as (_ & Htype & _ & _ & Hparts & _).
  exists turn'. split; [done|]. split; [done|]. split.
  - clear -Hparts. induction Hparts as [|old new olds news [Hc _] _ IH]; [done|].
    cbn [map]. by rewrite Hc, IH.
  - destruct (Forall2_lookup_l _ _ _ _ _ Hparts Hpart) as (part' & Hpart' & Hc & Hr).
    rewrite Hpart'. f_equal. destruct part as [content slot], part' as [content' slot'].
    cbn in *. subst content'. f_equal.
    destruct Hr as [Hsame|(result & _ & Hin & Hid)]; [done|].
    rewrite Forall_forall in Hothers. specialize (Hothers _ Hin). cbn in Hothers.
    apply bool_decide_eq_false_1 in Hothers. destruct Hothers.
    by apply (isToolUseWithId_unique content).
Qed.

Lemma list_find_same_contents (current original : list ChatMessagePart)
    (test : ChatMessagePart -> bool) position part part' :
  (forall a b, part_content a = part_content b -> test a = test b) ->
  map part_content current = map part_content original ->
  list_find (fun part => test part = true) original = Some (position, part) ->
  current !! position = Some part' ->
  list_find (fun part => test part = true) current = Some (position, part').
Proof.
  intros Htest Hsame (Hpart & Hmatch & Hfirst)%list_find_Some Hpart'.
  assert (forall i x y, current !! i = Some x -> original !! i = Some y ->
                        part_content x = part_content y) as Hcontent.
  { intros i x y Hx Hy.
    assert (map part_content current !! i = Some (part_content x)) as H1
      by (by rewrite list_lookup_fmap, Hx).
    rewrite Hsame, list_lookup_fmap, Hy in H1. by injection H1. }
  apply list_find_Some. split; [done|]. split.
  - by rewrite (Htest _ _ (Hcontent _ _ _ Hpart' Hpart)).
  - intros j y Hy Hlt.
    assert (is_Some (original !! j)) as [z Hz].
    { apply lookup_lt_is_Some. apply lookup_lt_Some in Hpart. lia. }
    rewrite (Htest _ _ (Hcontent _ _ _ Hy Hz)). by apply (Hfirst j).
Qed.

Lemma findMostRecentToolUse_newest history index turn toolUseId position part :
  length history = S index ->
  history !! index = Some turn ->
  msg_type turn = "assistant" ->
  list_find (fun part => isToolUseWithId (part_content part) toolUseId = true)
    (msg_content turn) = Some (position, part) ->
  toolResult part = None ->
  findMostRecentToolUse history toolUseId = Some (index, position).
Proof.
  intros Hlength Hturn Ha Hfind Hnone. unfold findMostRecentToolUse.
  rewrite Hlength. cbn [findPendingFrom]. rewrite Hturn.
  rewrite (bool_decide_eq_true_2 _ Ha). cbn [negb].
  by rewrite scanPending_list_find, Hfind, Hnone.
Qed.

Lemma map_part_content_insert parts position part part' :
  parts !! position = Some part ->
  part_content part' = part_content part ->
  map part_content (<[position := part']> parts) = map part_content parts.
Proof.
  intros Hpart Hcontent. rewrite (list_fmap_insert part_content).
  rewrite Hcontent. apply list_insert_id. by rewrite list_lookup_fmap, Hpart.
Qed.

(** X3.  An assistant turn at the end of the history whose first invocation
    part is unanswered has status progress.  After a user fragment holding
    one result block for the id of that part is appended, the turn at the
    same position has status failure when the result is an error and success
    otherwise. *)
Theorem result_settles_tool_status
    (before : list ChatMessage) (turn : ChatMessage) (position : nat)
    (part : ChatMessagePart) (pre post : list MessageContentBlock)
    (result : ToolResultContentBlock) (incoming : SDKMessage) (w : World) :
  msg_type turn = "assistant" ->
  list_find (fun part => isToolUsePart part = true) (msg_content turn)
  = Some (position, part) ->
  isToolUseWithId (part_content part) (tool_use_id result) = true ->
  toolResult part = None ->
  sdk_type incoming = "user" ->
  sdk_content incoming = BlockContent (pre ++ ToolResultBlock result :: post) ->
  Forall (fun block => answers (tool_use_id result) block = false) (pre ++ post) ->
  getToolUseStatus turn = Some StatusProgress
  /\ exists turn',
       (appendRenderableMessage (before ++ [turn]) incoming w).1.1 !! length before
       = Some turn'
       /\ getToolUseStatus turn'
          = Some (if is_error result then StatusFailure else StatusSuccess).
Proof.
  intros Ha Hfirst Hid Hnone Htype Hcontent Hothers.
  apply Forall_app in Hothers as [Hpre Hpost].
  set (id := tool_use_id result) in *.
  set (history := before ++ [turn]).
  set (index := length before).
  assert (history !! index = Some turn) as Hturn.
  { unfold history, index. rewrite lookup_app_r by lia. by rewrite Nat.sub_diag. }
  assert (length history = S index) as Hlength.
  { unfold history, index. rewrite length_app. cbn. lia. }
  pose proof Hfirst as (Hpart & _ & Hearlier)%list_find_Some.
  assert (list_find (fun part => isToolUseWithId (part_content part) id = true)
            (msg_content turn) = Some (position, part)) as Hfind.
  { apply list_find_Some. split; [done|]. split; [done|].
    intros j other Hother Hlt Hmatch. apply (Hearlier j other Hother Hlt).
    by eapply isToolUseWithId_isToolUsePart. }
  split.
  { unfold getToolUseStatus. rewrite (bool_decide_eq_true_2 _ Ha). cbn [negb].
    rewrite firstToolUseStatus_list_find, Hfirst. cbn. by rewrite Hnone. }
  (* the blocks before the result *)
  set (initial := {| link_messages := history; link_updated := [];
                     link_toolResultUpdates := [] |}).
  set (state1 := foldl linkBlock initial pre).
  assert (Forall2 (linkedTurn pre) history (link_messages state1)) as Hlinked1.
  { apply (linkedTurns_foldl pre history initial []); [done|]. apply linkedTurns_refl. }
  destruct (linkedTurns_other_ids _ _ _ _ _ _ _ id Hlinked1 Hpre Hturn Hpart Hid)
    as (turn1 & Hturn1 & Htype1 & Hcontents1 & Hpart1).
  assert (findMostRecentToolUse (link_messages state1) id = Some (index, position))
    as Htarget.
  { apply (findMostRecentToolUse_newest _ _ turn1 _ _ part); try done.
    - by rewrite <- (Forall2_length _ _ _ Hlinked1).
    - congruence.
    - apply (list_find_same_contents _ (msg_content turn)
               (fun part => isToolUseWithId (part_content part) id)
               position part part); try done.
      by intros a b ->. }
  (* the result *)
  set (state2 := linkBlock state1 (ToolResultBlock result)).
  set (turn2 :=
         {| msg_ref := msg_ref turn1; msg_type := msg_type turn1;
            msg_content := <[position := setToolResult part result]> (msg_content turn1);
            msg_timestamp := msg_timestamp turn1; msg_id := msg_id turn1 |}).
  assert (link_messages state2 = <[index := turn2]> (link_messages state1)) as Hstate2.
  { unfold state2, linkBlock. fold id. rewrite Htarget. cbn [link_messages].
    unfold setToolResultAt. cbn [fst snd]. by rewrite Hturn1, Hpart1. }
  assert (link_messages state2 !! index = Some turn2) as Hturn2.
  { rewrite Hstate2. apply list_lookup_insert_eq. by eapply lookup_lt_Some. }
  assert (msg_content turn2 !! position = Some (setToolResult part result)) as Hpart2.
  { cbn. apply list_lookup_insert_eq. by eapply lookup_lt_Some. }
  (* the blocks after the result *)
  set (state3 := foldl linkBlock state2 post).
  assert (Forall2 (linkedTurn post) (link_messages state2) (link_messages state3))
    as Hlinked3.
  { apply (linkedTurns_foldl post _ state2 []); [done|]. apply linkedTurns_refl. }
  destruct (linkedTurns_other_ids _ _ _ _ _ _ _ id Hlinked3 Hpost Hturn2 Hpart2 Hid)
    as (turn3 & Hturn3 & Htype3 & Hcontents3 & Hpart3).
  assert (link_messages (linkToolResults history incoming) = link_messages state3)
    as Hfinal.
  { unfold linkToolResults. rewrite (bool_decide_eq_true_2 _ Htype), Hcontent.
    rewrite foldl_app. done. }
  exists turn3. split.
  - unfold appendRenderableMessage. fold history. rewrite Hfinal.
    destruct (createChatMessageFromSDKMessage incoming w) as [[created|] w1]; cbn.
    + rewrite lookup_app_l; [done|]. by eapply lookup_lt_Some.
    + done.
  - unfold getToolUseStatus.
    assert (msg_type turn3 = "assistant") as -> by (cbn in Htype3; congruence).
    cbn [negb bool_decide]. rewrite bool_decide_eq_true_2 by done. cbn [negb].
    assert (list_find (fun part => isToolUsePart part = true) (msg_content turn3)
            = Some (position, setToolResult part result)) as Hfind3.
    { apply (list_find_same_contents (msg_content turn3) (msg_content turn)
               isToolUsePart position part (setToolResult part result));
        [by unfold isToolUsePart; intros a b ->| |done|done].
      rewrite Hcontents3. cbn [msg_content turn2].
      by rewrite (map_part_content_insert _ _ part). }
    by rewrite firstToolUseStatus_list_find, Hfind3.
Qed.

Lemma result_settles_tool_status_witness :
  let result := errorResult "t1" in
  let incoming := userFragment "u1" [ToolResultBlock result] in
  msg_type pendingBashTurn = "assistant"
  /\ getToolUseStatus pendingBashTurn = Some StatusProgress
  /\ exists turn',
       (appendRenderableMessage ([] ++ [pendingBashTurn]) incoming exampleWorld).1.1
       !! 0 = Some turn'
       /\ getToolUseStatus turn' = Some StatusFailure.
Proof.
  cbv zeta. split; [reflexivity|].
  apply (result_settles_tool_status [] pendingBashTurn 0
           {| part_content := ToolUseBlock "t1" "Bash" (JString "make");
              toolResult := None |}
           [] [] (errorResult "t1")
           (userFragment "u1" [ToolResultBlock (errorResult "t1")]) exampleWorld);
    try reflexivity.
  constructor.
Defined.

(** ** What the coalescer keeps *)

Lemma flushRun_conserves pending w :
  let flushed := (flushRun pending w).1 in
  length flushed <= length pending
  /\ map turnKey flushed `sublist_of` map turnKey pending
  /\ (length flushed = length pending -> flushed = pending)
  /\ Forall (fun message => message ∈ pending \/ isCoalescedTurn message) flushed.
Proof.
  destruct pending as [|x [|y pending]]; cbn.
  - split_and!; done.
  - split_and!; try done. constructor; [|constructor]. left. by left.
  - split_and!.
    + lia.
    + apply sublist_skip, sublist_nil_l.
    + intros [=].
    + constructor; [|constructor]. right. split; [done|]. by eexists _, _, _.
Qed.

Section conservation.
Context (P : ChatMessage -> bool).

Lemma coalesceRuns_conserves pending history w :
  forallb P pending = true ->
  let output := (coalesceRuns P pending history w).1 in
  length output <= length (pending ++ history)
  /\ map turnKey output `sublist_of` map turnKey (pending ++ history)
  /\ filter (fun message => P message = false) history `sublist_of` output
  /\ (length output = length (pending ++ history) -> output = pending ++ history)
  /\ Forall (fun message => message ∈ pending ++ history \/ isCoalescedTurn message)
       output.
Proof.
  revert pending w. induction history as [|message rest IH]; intros pending w Hpending.
  - cbn [coalesceRuns]. rewrite app_nil_r.
    destruct (flushRun_conserves pending w) as (Hlen & Hkeys & Hsame & Hall).
    split_and!; try done. apply sublist_nil_l.
  - cbn [coalesceRuns]. destruct (P message) eqn:Hmessage.
    + assert (forallb P (pending ++ [message]) = true) as Hnext
        by (rewrite forallb_app; cbn; by rewrite Hpending, Hmessage).
      specialize (IH (pending ++ [message]) w Hnext). cbv zeta in IH.
      rewrite <- !app_assoc in IH. cbn [app] in IH.
      rewrite filter_cons_False by (by rewrite Hmessage). exact IH.
    + destruct (flushRun_conserves pending w) as (Hlen & Hkeys & Hsame & Hall).
      destruct (flushRun pending w) as [flushed w1]. cbn [fst] in *.
      specialize (IH [] w1 eq_refl). cbv zeta in IH. cbn [app] in IH.
      destruct IH as (Hlen' & Hkeys' & Hkept' & Hsame' & Hall').
      destruct (coalesceRuns P [] rest w1) as [tail w2]. cbn [fst] in *.
      rewrite filter_cons_True by done.
      rewrite !length_app in *. cbn [length] in *. rewrite !map_app. cbn [map].
      split_and!.
      * lia.
      * apply sublist_app; [done|]. by apply sublist_skip.
      * apply sublist_inserts_l. by apply sublist_skip.
      * intros Heq. rewrite Hsame by lia. rewrite Hsame' by lia. done.
      * apply Forall_app. split.
        -- eapply Forall_impl; [exact Hall|]. intros x [Hx|Hx]; [left|by right].
           rewrite elem_of_app. by left.
        -- constructor.
           ++ left. rewrite elem_of_app. right. by left.
           ++ eapply Forall_impl; [exact Hall'|]. intros x [Hx|Hx]; [left|by right].
              rewrite elem_of_app. right. by right.
Qed.
End conservation.

(** X4.  [coalesceReadMessages] returns on every history.  Its output is
    no longer than the history; the ids and timestamps of its turns are, in
    order, a subsequence of those of the history; the turns that do not
    satisfy the read predicate are kept, in order; an output as long as the
    history is the history; and every turn of the output is a turn of the
    history or a synthetic assistant turn whose only part is an answered
    [ReadCoalesced] invocation that is not an error. *)
Theorem coalesceReadMessages_conserves (history : list ChatMessage) (w : World) :
  exists output w',
    coalesceReadMessages history w = Some (output, w')
    /\ length output <= length history
    /\ map turnKey output `sublist_of` map turnKey history
    /\ filter (fun message => readPredicate message = false) history
       `sublist_of` output
    /\ (length output = length history -> output = history)
    /\ Forall (fun message => message ∈ history \/ isCoalescedTurn message) output.
Proof.
  exists (coalesceRuns readPredicate [] history w).1,
         (coalesceRuns readPredicate [] history w).2.
  split.
  - rewrite coalesceReadMessages_returns. by destruct (coalesceRuns _ _ _ _).
  - apply (coalesceRuns_conserves readPredicate [] history w eq_refl).
Qed.

(** ** Running the operations on the history *)

(** What [processMessage] leaves alone: an observation that the assignments
    of the aggregates tracker do not change. *)
Ltac frame_processMessage :=
  unfold processMessage, handleAssistantMessage;
  match goal with |- preserves _ (if ?b then _ else _) => destruct b end;
  [ apply preserves_andThen;
    [ match goal with |- preserves _ (match ?c with _ => _ end) => destruct c end;
      [ auto with frame
      | apply preserves_forEachTry; intros block;
        unfold todoBlockOp, updateTodosState;
        destruct (todoWriteArgument block) as [[]|]; auto with frame;
        unfold updateTodosState_normalized, emitTodosUpdate; auto 10 with frame ]
    | intros _; unfold updateUsage, usageData_set; auto 10 with frame ]
  | unfold updateToolsState, emitToolsUpdate, handleResultMessage, usageData_set;
    auto 30 with frame ].

Lemma forEach_notices {A : Type} (xs : list A) (body : A -> Op unit)
    (notices : Session -> A -> list BroadcastMessage) :
  (forall x m, body x m = (tt, m, notices (session m) x)) ->
  forall m, forEach xs body m = (tt, m, flat_map (notices (session m)) xs).
Proof.
  intros Hbody m. induction xs as [|x xs IH]; [done|]. cbn [forEach flat_map].
  unfold mbind, Op_bind. by rewrite Hbody, IH.
Qed.

Lemma applyMessageUpdates_run previous next result m :
  applyMessageUpdates previous next result m
  = (tt,
     {| session := set_messageCount (length next) (set_messages next (session m));
        world := world m; tokens := tokens m; promises := promises m |},
     messageNotices (claudeSessionId (session m)) (isSome (queryPromise (session m)))
       previous next result).
Proof.
  unfold applyMessageUpdates, messageNotices.
  set (diff := diffMessages previous next (updatedMessages result)).
  unfold mbind at 1 2 3 4 5 6, Op_bind at 1 2 3 4 5 6.
  cbn [assign].
  rewrite (forEach_notifier (removed diff) _
             (fun s x => message_removed (claudeSessionId s) x)) by done.
  rewrite (forEach_notifier (added diff) _
             (fun s x => message_added (claudeSessionId s) x)) by done.
  rewrite (forEach_notifier (updated diff) _
             (fun s x => message_updated (claudeSessionId s) x)) by done.
  rewrite (forEach_notices (toolResultUpdates result) _
             (fun s toolUpdate =>
                match JSMap.get (buildMessageMap next)
                        (msg_id (update_message toolUpdate)) with
                | None => []
                | Some message =>
                    [tool_result_updated (claudeSessionId s) (msg_id message)
                       (update_toolUseId toolUpdate) (update_toolResult toolUpdate)]
                end)).
  2:{ intros x m0. by destruct (JSMap.get _ _). }
  reflexivity.
Qed.

Lemma run_eq {A : Type} (op : Op A) m : op m = (value op m, after op m, emitted op m).
Proof. unfold value, after, emitted. by destruct (op m) as [[x m1] t]. Qed.

Lemma processIncomingMessage_run incoming m :
  let m1 := after (processMessage incoming) m in
  let previous := messages (session m1) in
  let appended := appendRenderableMessage previous incoming (world m1) in
  let merged := coalesced appended.1.1 appended.2 in
  processIncomingMessage incoming m
  = match value (processMessage incoming) m with
    | Normal _ =>
        (Normal tt,
         {| session :=
              lifecycleBusy incoming
                (set_claudeSessionId
                   (if bool_decide (sdk_session_id incoming = "")
                    then claudeSessionId (session m1)
                    else Some (sdk_session_id incoming))
                   (set_lastModifiedTime
                      (default (Date_now merged.2) (extractTimestamp incoming))
                      (set_messageCount (length merged.1)
                         (set_messages merged.1 (session m1)))));
            world := merged.2; tokens := tokens m1; promises := promises m1 |},
         emitted (processMessage incoming) m
         ++ messageNotices (claudeSessionId (session m1))
              (isSome (queryPromise (session m1))) previous merged.1 appended.1.2)
    | Thrown reason => (Thrown reason, m1, emitted (processMessage incoming) m)
    end.
Proof.
  intros m1 previous appended merged.
  unfold processIncomingMessage. rewrite andThen_run. fold m1.
  destruct (value (processMessage incoming) m) as [u|reason]; [|done].
  rewrite value_returns, after_returns, emitted_returns.
  match goal with |- context [after ?tail m1] =>
    assert (tail m1
            = (tt,
               {| session :=
                    lifecycleBusy incoming
                      (set_claudeSessionId
                         (if bool_decide (sdk_session_id incoming = "")
                          then claudeSessionId (session m1)
                          else Some (sdk_session_id incoming))
                         (set_lastModifiedTime
                            (default (Date_now merged.2) (extractTimestamp incoming))
                            (set_messageCount (length merged.1)
                               (set_messages merged.1 (session m1)))));
                  world := merged.2; tokens := tokens m1; promises := promises m1 |},
               messageNotices (claudeSessionId (session m1))
                 (isSome (queryPromise (session m1))) previous merged.1
                 appended.1.2)) as Htail
  end.
  { unfold mbind, Op_bind.
    unfold this at 1. lazy beta iota zeta.
    rewrite withWorld_run. fold previous. fold appended.
    cbn [fst snd session world tokens promises].
    rewrite withWorld_run. cbn [fst snd session world tokens promises]. fold merged.
    rewrite applyMessageUpdates_run.
    cbn [session world tokens promises].
    rewrite withWorld_run. unfold assign, this, lifecycleBusy.
    cbn [fst snd session world tokens promises]. lazy beta iota zeta.
    destruct (bool_decide (sdk_type incoming = "system"));
      [destruct (bool_decide (sdk_subtype incoming = Some "init"))
      |destruct (bool_decide (sdk_type incoming = "result"))];
      cbn [mret Op_ret]; rewrite ?app_nil_r; reflexivity. }
  unfold value at 1, after at 1, emitted at 2. rewrite Htail. by destruct u.
Qed.

Lemma sendStart_run prompt attachments m :
  let uuid := entropy (world m) (drawn (world m)) in
  let w1 := set_drawn (S (drawn (world m))) (world m) in
  let userMessage :=
    promptFragment uuid (buildUserMessageContent w1 prompt attachments) in
  let previous := messages (session m) in
  let appended := appendRenderableMessage previous userMessage w1 in
  let merged := coalesced appended.1.1 appended.2 in
  sendStart prompt attachments m
  = (length (promises m),
     {| session :=
          set_queryPromise (Some (length (promises m)))
            (set_cancellationToken (Some (length (tokens m)))
               (set_error None
                  (set_busy true
                     (set_lastModifiedTime (Date_now merged.2)
                        (set_isExplicit false
                           (seedSummary prompt
                              (set_messageCount (length merged.1)
                                 (set_messages merged.1 (session m)))))))));
        world := merged.2; tokens := tokens m ++ [false];
        promises := promises m ++ [Pending] |},
     messageNotices (claudeSessionId (session m))
       (isSome (queryPromise (session m))) previous merged.1 appended.1.2).
Proof.
  intros uuid w1 userMessage previous appended merged.
  unfold sendStart, mbind, Op_bind.
  rewrite withWorld_run. change (draw (world m)) with (uuid, w1).
  cbn [fst snd session world tokens promises].
  rewrite withWorld_run. cbn [fst snd session world tokens promises].
  unfold this at 1. lazy beta iota zeta. cbn [fst snd session world tokens promises].
  fold previous.
  change {| sdk_type := "user"; sdk_uuid := Some uuid; sdk_timestamp := None;
            sdk_session_id := "";
            sdk_content := BlockContent (buildUserMessageContent w1 prompt attachments);
            sdk_usage := None; sdk_subtype := None; sdk_model := None;
            sdk_tools := None; sdk_permissionMode := None;
            sdk_total_cost_usd := None; sdk_modelUsage := None |}
    with userMessage.
  rewrite withWorld_run. fold appended.
  cbn [fst snd session world tokens promises].
  rewrite withWorld_run. cbn [fst snd session world tokens promises]. fold merged.
  rewrite applyMessageUpdates_run.
  cbn [session world tokens promises].
  unfold this at 1. lazy beta iota zeta. unfold seedSummary.
  cbn [session summary set_messageCount set_messages].
  destruct (negb (truthy (summary (session m)))).
  - unfold assign, newPromise, this, mret, Op_ret. lazy beta iota zeta.
    cbn [fst snd session world tokens promises].
    rewrite withWorld_run. cbn [fst snd session world tokens promises].
    rewrite ?app_nil_r. reflexivity.
  - unfold assign, newPromise, this, mret, Op_ret. lazy beta iota zeta.
    cbn [fst snd session world tokens promises].
    rewrite withWorld_run. cbn [fst snd session world tokens promises].
    rewrite ?app_nil_r. reflexivity.
Qed.

(** ** Invariants of the event loop *)

Lemma preserves_conversation_processMessage incoming :
  preserves conversation (processMessage incoming).
Proof. frame_processMessage. Qed.

Lemma conversation_processMessage incoming m :
  conversation (after (processMessage incoming) m) = conversation m.
Proof. apply preserves_conversation_processMessage. Qed.

Lemma lifecycleBusy_fields incoming s :
  messages (lifecycleBusy incoming s) = messages s
  /\ messageCount (lifecycleBusy incoming s) = messageCount s
  /\ cancellationToken (lifecycleBusy incoming s) = cancellationToken s
  /\ queryPromise (lifecycleBusy incoming s) = queryPromise s.
Proof.
  unfold lifecycleBusy.
  by destruct (bool_decide _); [destruct (bool_decide _)|destruct (bool_decide _)].
Qed.

Lemma wellFormed_processIncomingMessage incoming m :
  wellFormed m -> wellFormed (after (processIncomingMessage incoming) m).
Proof.
  intros (Hcount & Hstable & Htoken).
  unfold after. rewrite processIncomingMessage_run.
  pose proof (conversation_processMessage incoming m) as Hframe.
  injection Hframe as Hmessages Hcounted Hcancel _ Htokens _ _.
  destruct (value (processMessage incoming) m) as [u|reason]; cbn [fst snd].
  2:{ unfold wellFormed, countsMessages, tokenNotCancelled in *.
      by rewrite Hmessages, Hcounted, Hcancel, Htokens. }
  unfold wellFormed, countsMessages, tokenNotCancelled. cbn [session tokens].
  match goal with
  | |- context [lifecycleBusy incoming ?s] =>
      destruct (lifecycleBusy_fields incoming s) as (-> & -> & -> & _)
  end.
  cbn. split; [done|]. split; [apply coalescedHistory_coalesced|].
  unfold tokenNotCancelled in Htoken. by rewrite Hcancel, Htokens.
Qed.

Lemma wellFormed_sendStart prompt attachments m :
  wellFormed (after (sendStart prompt attachments) m).
Proof.
  unfold after. rewrite sendStart_run. cbn [fst snd].
  unfold wellFormed, countsMessages, tokenNotCancelled, seedSummary.
  cbn [session tokens]. destruct (negb (truthy _)); cbn.
  - split; [done|]. split; [apply coalescedHistory_coalesced|].
    rewrite lookup_app_r by lia. by rewrite Nat.sub_diag.
  - split; [done|]. split; [apply coalescedHistory_coalesced|].
    rewrite lookup_app_r by lia. by rewrite Nat.sub_diag.
Qed.

Lemma wellFormed_cancel m : wellFormed m -> wellFormed (after cancel m).
Proof.
  intros (Hcount & Hstable & _). destruct_machine m.
  unfold wellFormed, countsMessages, tokenNotCancelled in *. cbn in *.
  by destruct token.
Qed.

Lemma wellFormed_queryCompletes own m :
  wellFormed m -> wellFormed (after (queryCompletes own) m).
Proof.
  intros (Hcount & Hstable & _). destruct_machine m.
  unfold wellFormed, countsMessages, tokenNotCancelled in *. cbn in *. done.
Qed.

Lemma wellFormed_queryFails own reason m :
  wellFormed m -> wellFormed (after (queryFails own reason) m).
Proof.
  intros (Hcount & Hstable & _). destruct_machine m.
  unfold wellFormed, countsMessages, tokenNotCancelled in *. cbn in *. done.
Qed.

Lemma wellFormed_resumeWaiters settled outcome waiting m :
  wellFormed m -> wellFormed (after (resumeWaiters settled outcome waiting) m).
Proof.
  revert m. induction waiting as [|call rest IH]; intros m Hm; [done|].
  cbn [resumeWaiters]. rewrite !after_bind. rewrite after_ret. apply IH.
  destruct (phase call) as [previous| | |]; try done.
  destruct (bool_decide (previous = settled)); [|done].
  destruct outcome; try done.
  - rewrite after_bind, after_ret. apply wellFormed_sendStart.
  - rewrite after_bind, after_ret. apply wellFormed_sendStart.
Qed.

Lemma wellFormed_finishCall index own failure all m :
  wellFormed m -> wellFormed (after (finishCall index own failure all) m).
Proof.
  intros Hm. unfold finishCall. rewrite after_bind.
  apply wellFormed_resumeWaiters.
  destruct failure; [by apply wellFormed_queryFails|by apply wellFormed_queryCompletes].
Qed.

Lemma wellFormed_react event all m :
  wellFormed m -> wellFormed (after (react event all) m).
Proof.
  intros Hm. destruct event as [prompt attachments| |index message|index|index reason];
    cbn [react].
  - rewrite after_bind. change (after this m) with m. change (value this m) with (session m).
    destruct (queryPromise (session m)); [done|].
    rewrite after_bind, after_ret. apply wellFormed_sendStart.
  - rewrite after_bind, after_ret. by apply wellFormed_cancel.
  - destruct (phase <$> all !! index) as [[| own | |]|]; try done.
    unfold after at 1. destruct (cancellationRequested m).
    + by apply wellFormed_finishCall.
    + match goal with |- wellFormed (?op m).1.2 => fold (after op m) end.
      rewrite after_bind.
      pose proof (wellFormed_processIncomingMessage message m Hm) as Hprocessed.
      destruct (value (processIncomingMessage message) m); [done|].
      by apply wellFormed_finishCall.
  - destruct (phase <$> all !! index) as [[| own | |]|]; try done.
    by apply wellFormed_finishCall.
  - destruct (phase <$> all !! index) as [[| own | |]|]; try done.
    by apply wellFormed_finishCall.
Qed.

Lemma machine_step state event :
  machine (step state event).1 = after (react event (calls state)) (machine state).
Proof.
  unfold step, after. by destruct (react event (calls state) (machine state)) as [[? ?] ?].
Qed.

Lemma wellFormed_run state events :
  wellFormed (machine state) -> wellFormed (machine (run state events)).
Proof.
  revert state. induction events as [|event rest IH]; intros state Hstate; [done|].
  cbn [run foldl]. apply IH. rewrite machine_step. by apply wellFormed_react.
Qed.

Lemma wellFormed_newMachine w : wellFormed (newMachine w).
Proof. split; [done|]. split; [apply coalescedHistory_nil|done]. Qed.

(** ** The history after a bulk load *)












(** X6.  In every reachable state the flag of the token the session holds
    is down: [cancel] raises the flag of the token and drops the token in
    the same call.  So the loop of [send] never takes its cancellation
    branch: a fragment yielded to a streaming call is processed, and the
    call goes on, or settles as failed with the reason when the processing
    throws. *)
Theorem cancellation_never_observed (w : World) (events : list Event) :
  let state := run (newEventLoop w) events in
  cancellationRequested (machine state) = false
  /\ forall index own message,
       (phase <$> calls state !! index) = Some (Streaming own) ->
       react (StreamYields index message) (calls state) (machine state)
       = (processed ← processIncomingMessage message;
          match processed with
          | Normal _ => mret (calls state)
          | Thrown reason => finishCall index own (Some reason) (calls state)
          end) (machine state).
Proof.
  intros state.
  destruct (wellFormed_run (newEventLoop w) events (wellFormed_newMachine w))
    as (_ & _ & Htoken).
  fold state in Htoken.
  assert (cancellationRequested (machine state) = false) as Hnever.
  { unfold cancellationRequested. unfold tokenNotCancelled in Htoken.
    destruct (cancellationToken (session (machine state))); [|done].
    by rewrite Htoken. }
  split; [done|]. intros index own message Hphase.
  cbn [react]. by rewrite Hphase, Hnever.
Qed.

(** ** How a call of [send] settles *)

Lemma resumeWaiters_rejected settled reason waiting m :
  after (resumeWaiters settled (Rejected reason) waiting) m = m
  /\ emitted (resumeWaiters settled (Rejected reason) waiting) m = [].
Proof.
  induction waiting as [|call rest [IHafter IHemitted]]; [done|].
  cbn [resumeWaiters]. rewrite !after_bind, !emitted_bind, after_ret, emitted_ret.
  assert (forall (op : Op SendCall), (exists x, op = mret x) ->
            after op m = m /\ emitted op m = []) as Hret
    by (by intros op [x ->]).
  match goal with
  | |- context [after ?op m] =>
      destruct (Hret op) as [-> ->]
  end.
  - destruct (phase call) as [previous| | |]; eauto.
    destruct (bool_decide (previous = settled)); eauto.
  - by rewrite IHafter, IHemitted.
Qed.

Lemma resumeWaiters_idle settled outcome waiting m :
  Forall (fun call => phase call <> AwaitingPrevious settled) waiting ->
  resumeWaiters settled outcome waiting m = (waiting, m, []).
Proof.
  induction 1 as [|call rest Hcall _ IH]; [done|].
  cbn [resumeWaiters]. unfold mbind, Op_bind.
  destruct (phase call) as [previous| | |] eqn:Hphase; cbn; rewrite ?IH; try done.
  rewrite bool_decide_eq_false_2 by congruence. cbn. by rewrite IH.
Qed.

Lemma resumeWaiters_keeps settled outcome waiting m index call :
  waiting !! index = Some call ->
  (forall previous, phase call <> AwaitingPrevious previous) ->
  value (resumeWaiters settled outcome waiting) m !! index = Some call.
Proof.
  revert m index. induction waiting as [|head rest IH]; intros m index Hcall Hphase;
    [done|].
  cbn [resumeWaiters]. rewrite !value_bind. destruct index as [|index].
  - injection Hcall as ->. cbn [lookup list_lookup]. f_equal.
    destruct (phase call) as [previous| | |]; try done. by destruct (Hphase previous).
  - cbn [lookup list_lookup]. by apply IH.
Qed.

Lemma queryFails_run own reason m :
  let s := session m in
  queryFails own reason m
  = ({| success := false; result_error := Some reason; result_messageCount := None;
        lastAssistantMessage := lastAssistant (messages s);
        result_usage := usageData s |},
     {| session :=
          set_busy false
            (set_cancellationToken None
               (set_queryPromise None (set_error (Some reason) s)));
        world := world m; tokens := tokens m;
        promises := <[own := Rejected reason]> (promises m) |},
     [session_info (claudeSessionId s) (messageCount s) false]).
Proof. by destruct_machine m. Qed.

Lemma queryCompletes_run own m :
  let s := session m in
  queryCompletes own m
  = ({| success := true; result_error := None;
        result_messageCount := Some (messageCount s);
        lastAssistantMessage := lastAssistant (messages s);
        result_usage := usageData s |},
     {| session :=
          set_lastModifiedTime (Date_now (world m))
            (set_busy false
               (set_cancellationToken None (set_queryPromise None s)));
        world := world m; tokens := tokens m;
        promises := <[own := Fulfilled]> (promises m) |},
     [session_info (claudeSessionId s) (messageCount s) false]).
Proof. by destruct_machine m. Qed.

Lemma step_run state event :
  step state event
  = ({| machine := after (react event (calls state)) (machine state);
        calls := value (react event (calls state)) (machine state) |},
     emitted (react event (calls state)) (machine state)).
Proof.
  unfold step, value, after, emitted.
  by destruct (react event (calls state) (machine state)) as [[? ?] ?].
Qed.

(** X7.  How a streaming call of [send] settles.  When its stream throws,
    the call returns a failure carrying the reason, the last assistant turn
    and the usage; the session holds the reason as its error, is no longer
    busy, has dropped its token and its query promise, and emits one
    session_info notification with the activity flag down.  When its stream
    ends, the call returns a success with the message count, the last
    assistant turn and the usage; and when no other call waits for this one,
    the session is left idle with its modification time set to now, and
    emits the same notification. *)
Theorem send_settles (state : EventLoop) (index own : nat) (reason : string) :
  (phase <$> calls state !! index) = Some (Streaming own) ->
  let s := session (machine state) in
  let failed := step state (StreamThrows index reason) in
  let ended := step state (StreamEnds index) in
  (phase <$> calls failed.1 !! index)
  = Some (Returned
            {| success := false; result_error := Some reason;
               result_messageCount := None;
               lastAssistantMessage := lastAssistant (messages s);
               result_usage := usageData s |})
  /\ session (machine failed.1)
     = set_busy false
         (set_cancellationToken None
            (set_queryPromise None (set_error (Some reason) s)))
  /\ failed.2 = [session_info (claudeSessionId s) (messageCount s) false]
  /\ (phase <$> calls ended.1 !! index)
     = Some (Returned
               {| success := true; result_error := None;
                  result_messageCount := Some (messageCount s);
                  lastAssistantMessage := lastAssistant (messages s);
                  result_usage := usageData s |})
  /\ (Forall (fun call => phase call <> AwaitingPrevious own) (calls state) ->
      session (machine ended.1)
      = set_lastModifiedTime (Date_now (world (machine state)))
          (set_busy false (set_cancellationToken None (set_queryPromise None s)))
      /\ ended.2 = [session_info (claudeSessionId s) (messageCount s) false]).
Proof.
  intros Hphase s failed ended.
  destruct (calls state !! index) as [call|] eqn:Hcall; [|done].
  assert (forall result,
            alter (set_phase (Returned result)) index (calls state) !! index
            = Some (set_phase (Returned result) call)) as Haltered.
  { intros result. by rewrite list_lookup_alter_eq, Hcall. }
  unfold failed, ended. rewrite !step_run. cbn [fst snd machine calls react].
  rewrite Hcall. cbn [fmap option_fmap option_map] in Hphase |- *.
  injection Hphase as ->. unfold finishCall.
  rewrite !value_bind, !after_bind, !emitted_bind.
  pose proof (queryFails_run own reason (machine state)) as Hfails.
  pose proof (queryCompletes_run own (machine state)) as Hcompletes.
  cbv zeta in Hfails, Hcompletes. fold s in Hfails, Hcompletes.
  assert (value (queryFails own reason) (machine state) = (queryFails own reason (machine state)).1.1) as Hvf by done.
  assert (after (queryFails own reason) (machine state) = (queryFails own reason (machine state)).1.2) as Haf by done.
  assert (emitted (queryFails own reason) (machine state) = (queryFails own reason (machine state)).2) as Hef by done.
  assert (value (queryCompletes own) (machine state) = (queryCompletes own (machine state)).1.1) as Hvc by done.
  assert (after (queryCompletes own) (machine state) = (queryCompletes own (machine state)).1.2) as Hac by done.
  assert (emitted (queryCompletes own) (machine state) = (queryCompletes own (machine state)).2) as Hec by done.
  rewrite Hfails in Hvf, Haf, Hef. rewrite Hcompletes in Hvc, Hac, Hec.
  cbn [fst snd] in Hvf, Haf, Hef, Hvc, Hac, Hec.
  rewrite Hvf, Hef, Hvc, Hec. split_and!.
  - by rewrite (resumeWaiters_keeps _ _ _ _ _ _ (Haltered _)).
  - by rewrite (proj1 (resumeWaiters_rejected _ _ _ _)), Haf.
  - by rewrite (proj2 (resumeWaiters_rejected _ _ _ _)), app_nil_r.
  - by rewrite (resumeWaiters_keeps _ _ _ _ _ _ (Haltered _)).
  - intros Hidle. unfold after at 1, emitted at 1. rewrite resumeWaiters_idle.
    + cbn [fst snd]. by rewrite Hac, app_nil_r.
    + apply Forall_alter; [done|]. by intros ? _.
Qed.

Lemma send_settles_witness :
  let state := run (newEventLoop exampleWorld) [CallSend "first" None] in
  let s := session (machine state) in
  (phase <$> calls state !! 0) = Some (Streaming 0)
  /\ (claudeSessionId s, messageCount s, busy s) = (None, 1, true)
  /\ (step state (StreamThrows 0 "boom")).2
     = [session_info (claudeSessionId s) (messageCount s) false]
  /\ session (machine (step state (StreamThrows 0 "boom")).1)
     = set_busy false
         (set_cancellationToken None
            (set_queryPromise None (set_error (Some "boom") s))).
Proof.
  cbv zeta.
  assert ((phase <$> calls (run (newEventLoop exampleWorld) [CallSend "first" None]) !! 0)
          = Some (Streaming 0)) as Hphase by (vm_compute; reflexivity).
  split; [exact Hphase|]. split; [vm_compute; reflexivity|].
  split.
  - exact (proj1 (proj2 (proj2
             (send_settles (run (newEventLoop exampleWorld) [CallSend "first" None])
                0 0 "boom" Hphase)))).
  - exact (proj1 (proj2
             (send_settles (run (newEventLoop exampleWorld) [CallSend "first" None])
                0 0 "boom" Hphase))).
Defined.

(** ** The content of a user message ([buildUserMessageContent]) *)

Lemma attachmentBlocks_shape w attachment :
  attachmentBlocks w attachment = []
  \/ exists block,
       attachmentBlocks w attachment = [block]
       /\ (block_type block = "image" \/ block_type block = "document").
Proof.
  unfold attachmentBlocks.
  destruct (bool_decide (mediaType attachment ∈ INLINE_IMAGE_MIME_TYPES));
    [right; eexists; split; [done|by left]|].
  destruct (bool_decide (mediaType attachment = "text/plain")).
  { destruct (atob w _); [right; eexists; split; [done|by right]|by left]. }
  destruct (bool_decide (mediaType attachment = "application/pdf"));
    [right; eexists; split; [done|by right]|by left].
Qed.

Lemma attachments_shape w (attachments : list AttachmentPayload) :
  length (flat_map (attachmentBlocks w) attachments) <= length attachments
  /\ Forall (fun block => block_type block = "image" \/ block_type block = "document")
       (flat_map (attachmentBlocks w) attachments).
Proof.
  induction attachments as [|attachment rest [IHlength IHall]]; [by split|].
  cbn [flat_map]. rewrite length_app.
  destruct (attachmentBlocks_shape w attachment) as [->|(block & -> & Hblock)]; cbn.
  - split; [lia|done].
  - split; [lia|]. by constructor.
Qed.

Lemma attachmentBlocks_supported w attachment :
  mediaType attachment ∈ INLINE_IMAGE_MIME_TYPES
  \/ mediaType attachment = "application/pdf" ->
  length (attachmentBlocks w attachment) = 1.
Proof.
  unfold attachmentBlocks. intros [Himage|Hpdf].
  - by rewrite (bool_decide_eq_true_2 _ Himage).
  - rewrite Hpdf. reflexivity.
Qed.

Lemma attachmentBlocks_dropped w attachment :
  mediaType attachment ∉ INLINE_IMAGE_MIME_TYPES ->
  mediaType attachment <> "application/pdf" ->
  (mediaType attachment = "text/plain" -> atob w (attachment_data attachment) = None) ->
  attachmentBlocks w attachment = [].
Proof.
  unfold attachmentBlocks. intros Himage Hpdf Htext.
  rewrite (bool_decide_eq_false_2 _ Himage).
  case_bool_decide as Hplain; [by rewrite (Htext Hplain)|].
  by rewrite (bool_decide_eq_false_2 _ Hpdf).
Qed.

(** X8.  [buildUserMessageContent] returns image and document blocks, at
    most one per attachment, followed by one text block holding the prompt.
    When every attachment is an image of a supported type or a PDF there is
    one block per attachment; when none is, and no plain-text attachment
    decodes, the content is the text block alone. *)
Theorem buildUserMessageContent_shape
    (w : World) (prompt : string) (attachments : option (list AttachmentPayload)) :
  let content := buildUserMessageContent w prompt attachments in
  exists media,
    content = media ++ [TextBlock prompt]
    /\ length media <= length (default [] attachments)
    /\ Forall (fun block => block_type block = "image" \/ block_type block = "document")
         media
    /\ (Forall
          (fun attachment =>
             mediaType attachment ∈ ["image/jpeg"; "image/png"; "image/gif"; "image/webp"]
             \/ mediaType attachment = "application/pdf")
          (default [] attachments) ->
        length media = length (default [] attachments))
    /\ (Forall
          (fun attachment =>
             (mediaType attachment ∉ ["image/jpeg"; "image/png"; "image/gif"; "image/webp"])
             /\ mediaType attachment <> "application/pdf"
             /\ (mediaType attachment = "text/plain" ->
                 atob w (attachment_data attachment) = None))
          (default [] attachments) ->
        content = [TextBlock prompt]).
Proof.
  cbv zeta. unfold buildUserMessageContent.
  generalize (default [] attachments). clear attachments. intros attachments.
  exists (flat_map (attachmentBlocks w) attachments).
  destruct (attachments_shape w attachments) as [Hlength Hall].
  split_and!; try done.
  - clear. induction 1 as [|attachment rest Hsupported _ IH]; [done|].
    cbn [flat_map length]. rewrite length_app, IH.
    by rewrite (attachmentBlocks_supported w attachment Hsupported).
  - clear. intros Hdropped.
    assert (flat_map (attachmentBlocks w) attachments = []) as ->; [|done].
    induction Hdropped as [|attachment rest (Himage & Hpdf & Htext) _ IH]; [done|].
    cbn [flat_map]. by rewrite IH, (attachmentBlocks_dropped w attachment).
Qed.

(** ** What [send] does before its stream opens *)






(** ** The aggregates: todo list and tool inventory *)









(** ** The todo list after a fragment *)

Lemma todos_updateTodosState argument m :
  todos (session (after (updateTodosState argument) m))
  = default (todos (session m)) (storedTodos argument).
Proof.
  unfold updateTodosState. destruct argument; try done.
  rewrite after_returns. cbn [storedTodos default].
  destruct_machine m. unfold updateTodosState_normalized, emitTodosUpdate. run_op.
  by destruct (areTodosEqual _ _), isLoad.
Qed.

Lemma last_cons_default {A : Type} (x : A) (l : list A) (d : A) :
  default d (last (x :: l)) = default x (last l).
Proof.
  revert x d. induction l as [|y l IH]; intros x d; [done|].
  change (last (x :: y :: l)) with (last (y :: l)). by rewrite !(IH y).
Qed.

(** The loop over the blocks stores the arrays it is handed, one after the
    other, up to the first value that is not an array. *)
Lemma todos_todoBlocks blocks m :
  todos (session (after (forEachTry blocks todoBlockOp) m))
  = default (todos (session m))
      (last (omap storedTodos (takeWhile isArray (omap todoWriteArgument blocks)))).
Proof.
  revert m. induction blocks as [|block rest IH]; intros m; [done|].
  cbn [forEachTry]. rewrite after_andThen, omap_cons.
  change (todoBlockOp block)
    with (match todoWriteArgument block with
          | Some argument => updateTodosState argument
          | None => mret (Normal tt)
          end).
  destruct (todoWriteArgument block) as [argument|] eqn:Hargument; [|apply IH].
  rewrite value_updateTodosState by (by eapply todoWriteArgument_truthy).
  cbn [takeWhile]. destruct (isArray argument) eqn:Harray.
  - rewrite IH, todos_updateTodosState, omap_cons.
    destruct argument; try done. cbn [storedTodos default].
    symmetry. apply last_cons_default.
  - rewrite todos_updateTodosState. by destruct argument.
Qed.

Lemma preserves_todos_updateUsage usage :
  preserves (fun m => todos (session m)) (updateUsage usage).
Proof. unfold updateUsage, usageData_set. auto 20 with frame. Qed.

Lemma todos_processMessage incoming m :
  todos (session (after (processMessage incoming) m))
  = default (todos (session m))
      (last (omap storedTodos (takeWhile isArray (todoArguments incoming)))).
Proof.
  unfold processMessage, todoArguments, handleAssistantMessage.
  case_bool_decide as Htype.
  - rewrite after_andThen. destruct (sdk_content incoming) as [text|blocks].
    + rewrite after_returns. cbn.
      destruct (sdk_usage incoming) as [usage|]; [|done].
      by rewrite (preserves_todos_updateUsage usage).
    + rewrite <- todos_todoBlocks.
      destruct (value (forEachTry blocks todoBlockOp) m); [|done].
      rewrite after_returns.
      destruct (sdk_usage incoming) as [usage|]; [|done].
      by rewrite (preserves_todos_updateUsage usage).
  - rewrite after_returns. cbn [takeWhile omap last default].
    match goal with |- todos (session (after ?op m)) = _ =>
      assert (preserves (fun m => todos (session m)) op) as Hop
    end.
    { unfold updateToolsState, emitToolsUpdate, handleResultMessage, usageData_set.
      auto 30 with frame. }
    apply Hop.
Qed.

Lemma messageNotices_quiet sessionId active previous next result :
  Forall (fun notification => aggregateUpdate notification = false)
    (messageNotices sessionId active previous next result).
Proof.
  unfold messageNotices, toolUpdateNotices. rewrite !Forall_app. split_and!.
  - apply Forall_forall. by intros e (x & -> & _)%list_elem_of_fmap.
  - apply Forall_forall. by intros e (x & -> & _)%list_elem_of_fmap.
  - apply Forall_forall. by intros e (x & -> & _)%list_elem_of_fmap.
  - apply Forall_forall. intros e (x & _ & Hin)%list_elem_of_In%in_flat_map.
    destruct (JSMap.get _ _); [|done]. by destruct Hin as [<-|[]].
  - by repeat constructor.
Qed.

Lemma emitted_todoBlocks_quiet blocks m :
  omap todoWriteArgument blocks = [] ->
  emitted (forEachTry blocks todoBlockOp) m = [].
Proof.
  revert m. induction blocks as [|block rest IH]; intros m Hnone; [done|].
  rewrite omap_cons in Hnone. cbn [forEachTry]. rewrite emitted_andThen.
  change (todoBlockOp block)
    with (match todoWriteArgument block with
          | Some argument => updateTodosState argument
          | None => mret (Normal tt)
          end).
  destruct (todoWriteArgument block); [done|]. cbn. by apply IH.
Qed.

(** X11.  After a fragment is processed, the todo list of the session is
    the copy of the last array the fragment handed to [updateTodosState]
    before the first value that is not an array, or the previous list when
    there is none.  A fragment that is not an assistant fragment leaves the
    list as it was, and a fragment without todo-writing invocation emits no
    todos_updated notification. *)
Theorem last_todo_write_wins (incoming : SDKMessage) (m : Machine) :
  let processed := after (processIncomingMessage incoming) m in
  todos (session processed)
  = default (todos (session m))
      (last (omap storedTodos (takeWhile isArray (todoArguments incoming))))
  /\ (sdk_type incoming <> "assistant" -> todos (session processed) = todos (session m))
  /\ (todoArguments incoming = [] ->
      Forall (fun notification => broadcast_type notification <> "todos_updated")
        (emitted (processIncomingMessage incoming) m)).
Proof.
  intros processed.
  assert (todos (session processed)
          = default (todos (session m))
              (last (omap storedTodos (takeWhile isArray (todoArguments incoming)))))
    as Htodos.
  { unfold processed, after at 1. rewrite processIncomingMessage_run.
    rewrite <- (todos_processMessage incoming m).
    destruct (value (processMessage incoming) m); [|done].
    cbn [fst snd session]. unfold lifecycleBusy.
    by destruct (bool_decide _); [destruct (bool_decide _)|destruct (bool_decide _)]. }
  split; [done|]. split.
  { intros Htype. rewrite Htodos. unfold todoArguments.
    by rewrite (bool_decide_eq_false_2 _ Htype). }
  intros Hnone. unfold emitted at 1. rewrite processIncomingMessage_run.
  assert (Forall (fun notification => broadcast_type notification <> "todos_updated")
            (emitted (processMessage incoming) m)) as Hquiet.
  { unfold processMessage, handleAssistantMessage. unfold todoArguments in Hnone.
    destruct (bool_decide (sdk_type incoming = "assistant")).
    - rewrite emitted_andThen. apply Forall_app. split.
      + destruct (sdk_content incoming) as [text|blocks]; [by constructor|].
        rewrite emitted_todoBlocks_quiet by done. by constructor.
      + destruct (value _ m); [|by constructor]. rewrite emitted_returns.
        destruct (sdk_usage incoming) as [usage|]; [|by constructor].
        unfold updateUsage, usageData_set. run_op. by repeat constructor.
    - rewrite emitted_returns.
      destruct (_ && _).
      + rewrite !emitted_bind. rewrite !Forall_app. split_and!.
        * destruct (truthy _); by constructor.
        * destruct (sdk_tools incoming) as [names|]; [|by constructor].
          unfold updateToolsState, emitToolsUpdate. run_op.
          destruct (areStringArraysEqual _ _); cbn; [by constructor|].
          destruct (isLoading _); cbn; by repeat constructor.
        * destruct (truthy _); by constructor.
      + destruct (bool_decide _); [|by constructor].
        destruct (sdk_total_cost_usd incoming); [|by constructor].
        unfold handleResultMessage, usageData_set. run_op. by repeat constructor. }
  destruct (value (processMessage incoming) m); cbn [snd]; [|done].
  apply Forall_app. split; [done|].
  eapply Forall_impl; [apply messageNotices_quiet|]. by intros [].
Qed.

(** ** Starting a load ([loadFromServer], [resumeFrom]) *)

(** X12.  [loadFromServer] does nothing and returns nothing when neither
    the argument nor the session gives an id; returns the promise of the
    load in progress, without a second load, when there is one; and
    otherwise adopts the id, raises the loading flag, clears the error and
    returns a new pending promise it also stores.  [resumeFrom] returns
    nothing on the empty id and is [loadFromServer] on any other. *)
Theorem loadFromServer_starts_once (sessionId : option string) (m : Machine) :
  let s := session m in
  let target :=
    match sessionId with
    | Some given => Some given
    | None => claudeSessionId s
    end in
  (truthy target = false -> loadFromServer sessionId m = (None, m, []))
  /\ (forall running,
        truthy target = true ->
        loadingPromise s = Some running ->
        loadFromServer sessionId m = (Some running, m, []))
  /\ (truthy target = true ->
      loadingPromise s = None ->
      loadFromServer sessionId m
      = (Some (length (promises m)),
         {| session :=
              set_loadingPromise (Some (length (promises m)))
                (set_error None (set_isLoading true (set_claudeSessionId target s)));
            world := world m; tokens := tokens m;
            promises := promises m ++ [Pending] |},
         []))
  /\ resumeFrom "" m = (None, m, [])
  /\ (forall given, given <> "" -> resumeFrom given m = loadFromServer (Some given) m).
Proof.
  cbv zeta. split_and!.
  - intros Hfalsy. destruct_machine m. unfold loadFromServer. run_op.
    cbn in Hfalsy. by rewrite Hfalsy.
  - intros running Htruthy Hrunning. destruct_machine m. cbn in Htruthy, Hrunning.
    subst. unfold loadFromServer. run_op. by rewrite Htruthy.
  - intros Htruthy Hidle. destruct_machine m. cbn in Htruthy, Hidle. subst.
    unfold loadFromServer, newPromise. run_op. by rewrite Htruthy.
  - done.
  - intros given Hgiven. unfold resumeFrom. by rewrite bool_decide_eq_false_2.
Qed.

(** ** The end of a load *)

(** X13.  When the request of a load is rejected, the session holds the
    reason as its error; the loading flag, the stored promise and both
    pending flags are down; the history, the count, the aggregates, the
    usage, the summary, the id, the busy flag, the query promise and the
    subscribers are as they were; the promise of the load is fulfilled; and
    the notifications are those of the aggregates whose flag was latched. *)
Theorem failed_load_keeps_session (promise : nat) (reason : string) (m : Machine) :
  let s := session m in
  let failed := loadFromServer_resume promise (SessionFailure reason) in
  let s' := session (after failed m) in
  error s' = Some reason
  /\ isLoading s' = false
  /\ loadingPromise s' = None
  /\ pendingTodosBroadcast s' = false
  /\ pendingToolsBroadcast s' = false
  /\ (messages s', messageCount s', todos s', tools s', usageData s', summary s',
      claudeSessionId s', busy s', queryPromise s', subscribers s')
     = (messages s, messageCount s, todos s, tools s, usageData s, summary s,
        claudeSessionId s, busy s, queryPromise s, subscribers s)
  /\ promises (after failed m) = <[promise := Fulfilled]> (promises m)
  /\ emitted failed m = flushedUpdates s.
Proof.
  destruct_machine m. unfold loadFromServer_resume, loadResponse, loadFinally,
    flushPendingStateUpdates, emitTodosUpdate, emitToolsUpdate, settle, flushedUpdates.
  run_op. by destruct latchTodos, latchTools.
Qed.

(** X14.  A load that receives an empty list of fragments leaves the session
    with an empty history, a count of zero, no summary, no todos, no tools,
    the zero usage, idle, not explicit and not loading, with its
    modification time set to now and its id unchanged.  It emits
    usage_updated, messages_loaded and session_info, then a todos_updated
    with the empty list when the todo list was not empty or its flag was
    latched, then a tools_updated likewise. *)
Theorem empty_load_resets_session (promise : nat) (m : Machine) :
  isLoading (session m) = true ->
  let s := session m in
  let loaded := loadFromServer_resume promise (SessionMessages []) in
  let s' := session (after loaded m) in
  (messages s', messageCount s', summary s', todos s', tools s', usageData s',
   busy s', isExplicit s', isLoading s', loadingPromise s')
  = ([], 0, None, [], [], emptyUsage, false, false, false, None)
  /\ lastModifiedTime s' = Date_now (world m)
  /\ claudeSessionId s' = claudeSessionId s
  /\ emitted loaded m
     = [usage_updated (claudeSessionId s) emptyUsage;
        messages_loaded (claudeSessionId s) [];
        session_info (claudeSessionId s) 0 (isSome (queryPromise s))]
       ++ (if pendingTodosBroadcast s || negb (bool_decide (todos s = []))
           then [todos_updated (claudeSessionId s) []] else [])
       ++ (if pendingToolsBroadcast s || negb (bool_decide (tools s = []))
           then [tools_updated (claudeSessionId s) []] else []).
Proof.
  intros Hloading. destruct_machine m. cbn in Hloading. subst.
  unfold loadFromServer_resume, loadResponse, loadFinally, flushPendingStateUpdates,
    updateTodosState, updateToolsState, usageData_set, emitMessagesLoaded,
    emitSessionInfo, emitTodosUpdate, emitToolsUpdate, settle.
  run_op.
  destruct items as [|item items], names as [|name names], latchTodos, latchTools;
    cbn; done.
Qed.

Lemma empty_load_resets_session_witness :
  let loaded := loadFromServer_resume 0 (SessionMessages []) in
  let s' := session (after loaded loadingMachine) in
  isLoading (session loadingMachine) = true
  /\ (messages s', messageCount s', summary s', todos s', tools s', usageData s',
      busy s', isExplicit s', isLoading s', loadingPromise s')
     = ([], 0, None, [], [], emptyUsage, false, false, false, None)
  /\ emitted loaded loadingMachine
     = [usage_updated (Some "session-1") emptyUsage;
        messages_loaded (Some "session-1") [];
        session_info (Some "session-1") 0 false].
Proof.
  cbv zeta.
  destruct (empty_load_resets_session 0 loadingMachine eq_refl)
    as (Hreset & _ & _ & Hemitted).
  split; [reflexivity|]. split; [exact Hreset|exact Hemitted].
Defined.

(** ** The session manager *)

Lemma insertByLastModified_Permutation s sorted :
  insertByLastModified s sorted ≡ₚ s :: sorted.
Proof.
  induction sorted as [|other rest IH]; [done|]. cbn [insertByLastModified].
  destruct (_ <=? _)%Z; [done|]. rewrite IH. apply Permutation_swap.
Qed.

Lemma insertByLastModified_sorted s sorted :
  byDecreasingTime sorted -> byDecreasingTime (insertByLastModified s sorted).
Proof.
  induction sorted as [|other rest IH]; intros Hsorted; [by cbn|].
  cbn [insertByLastModified]. destruct Hsorted as [Hrest Hsorted].
  destruct (Z.leb_spec (lastModifiedTime other) (lastModifiedTime s)) as [Hle|Hlt].
  - cbn [byDecreasingTime]. split_and!; try done.
    constructor; [done|]. eapply Forall_impl; [exact Hrest|]. cbn. intros later. lia.
  - cbn [byDecreasingTime]. split; [|by apply IH].
    rewrite insertByLastModified_Permutation. constructor; [lia|done].
Qed.

Lemma filter_insertByLastModified s sorted time :
  byDecreasingTime sorted ->
  filter (fun other => lastModifiedTime other = time) (insertByLastModified s sorted)
  = filter (fun other => lastModifiedTime other = time) (s :: sorted).
Proof.
  induction sorted as [|other rest IH]; intros Hsorted; [done|].
  cbn [insertByLastModified]. destruct Hsorted as [Hrest Hsorted].
  destruct (Z.leb_spec (lastModifiedTime other) (lastModifiedTime s)) as [Hle|Hlt];
    [done|].
  rewrite (filter_cons _ other), IH by done. rewrite !(filter_cons _ s).
  destruct (decide (lastModifiedTime s = time)) as [Hs|Hs]; [|done].
  rewrite (filter_cons _ other).
  destruct (decide (lastModifiedTime other = time)) as [Ho|Ho]; [lia|done].
Qed.

(** X15.  [sessionsByLastModified] returns the sessions of the manager, each
    one once, by decreasing modification time; sessions with the same time
    keep the order they have in the list of the manager. *)
Theorem sessionsByLastModified_sorted (manager : SessionManager) :
  let sorted := sessionsByLastModified manager in
  sorted ≡ₚ sessions manager
  /\ byDecreasingTime sorted
  /\ (forall time,
        filter (fun s => lastModifiedTime s = time) sorted
        = filter (fun s => lastModifiedTime s = time) (sessions manager)).
Proof.
  cbv zeta. unfold sessionsByLastModified, sessions.
  induction (sessionsList manager) as [|s rest (Hperm & Hsorted & Hstable)]; [done|].
  cbn [foldr]. split_and!.
  - by rewrite insertByLastModified_Permutation, Hperm.
  - by apply insertByLastModified_sorted.
  - intros time. rewrite filter_insertByLastModified by done.
    by rewrite !(filter_cons _ s), Hstable.
Qed.

Lemma getSession_found id manager index found load :
  list_find (fun s => claudeSessionId s = Some id) (sessions manager)
  = Some (index, found) ->
  (getSession id load manager).1 = Some index
  /\ (getSession id false manager).2 = manager.
Proof. unfold getSession, sessions. intros ->. by destruct load. Qed.

Lemma getSession_unknown id manager load :
  Forall (fun s => claudeSessionId s <> Some id) (sessions manager) ->
  getSession id load manager = (None, manager).
Proof.
  unfold getSession, sessions. intros Hunknown.
  by rewrite (proj2 (list_find_None _ _) Hunknown).
Qed.

Lemma getSession_after_createSession id options manager :
  (getSession id false (createSession options manager).2).1
  = S <$> (getSession id false manager).1.
Proof.
  unfold getSession, createSession, newSession, nanoid, draw.
  cbn [snd sessionsList list_find set_isExplicit claudeSessionId].
  destruct (decide (None = Some id)) as [|_]; [done|].
  by destruct (list_find _ (sessionsList manager)) as [[index found]|].
Qed.

(** X16.  [getOrCreateSession] returns the first session with the given id,
    and leaves the manager as it was, when the id is not empty and such a
    session exists.  Without an id, with the empty id, or with an id no
    session has, it puts a new session at the head of the list: without id,
    with an empty history and no persistent state, explicit unless the
    options say otherwise; the other sessions are found as before, one
    position further; and a second such call adds a second session. *)
Theorem getOrCreateSession_finds_or_creates
    (sessionId : option string) (options : option bool) (manager : SessionManager) :
  let outcome := getOrCreateSession sessionId options manager in
  (forall id index found,
      sessionId = Some id ->
      id <> "" ->
      list_find (fun s => claudeSessionId s = Some id) (sessions manager)
      = Some (index, found) ->
      outcome = (index, manager))
  /\ ((sessionId = None
       \/ sessionId = Some ""
       \/ exists id,
            sessionId = Some id
            /\ Forall (fun s => claudeSessionId s <> Some id) (sessions manager)) ->
      exists fresh,
        outcome.1 = 0
        /\ sessions outcome.2 = fresh :: sessions manager
        /\ claudeSessionId fresh = None
        /\ messages fresh = []
        /\ hasPersistentState fresh = false
        /\ isExplicit fresh = negb (bool_decide (options = Some false))
        /\ (forall id,
              (getSession id false outcome.2).1 = S <$> (getSession id false manager).1)
        /\ length (sessions (getOrCreateSession sessionId options outcome.2).2)
           = 2 + length (sessions manager)).
Proof.
  cbv zeta. split.
  - intros id index found -> Hid Hfound. unfold getOrCreateSession.
    change (default "" (Some id)) with id.
    cbn [truthy]. rewrite bool_decide_eq_false_2 by done. cbn [negb].
    destruct (getSession_found id manager index found false Hfound) as [H1 H2].
    destruct (getSession id false manager) as [result manager']. cbn in H1, H2.
    by subst.
  - intros Hcreates.
    assert (getOrCreateSession sessionId options manager
            = createSession options manager) as Hfirst.
    { unfold getOrCreateSession.
      destruct Hcreates as [->|[->|(id & -> & Hunknown)]]; [done|done|].
      change (default "" (Some id)) with id.
      cbn [truthy]. destruct (negb (bool_decide (id = ""))); [|done].
      by rewrite getSession_unknown. }
    assert (getOrCreateSession sessionId options (createSession options manager).2
            = createSession options (createSession options manager).2) as Hsecond.
    { unfold getOrCreateSession.
      destruct Hcreates as [->|[->|(id & -> & Hunknown)]]; [done|done|].
      change (default "" (Some id)) with id.
      cbn [truthy]. destruct (negb (bool_decide (id = ""))); [|done].
      pose proof (getSession_after_createSession id options manager) as Hshift.
      rewrite (getSession_unknown id manager false Hunknown) in Hshift.
      destruct (getSession id false (createSession options manager).2)
        as [[index|] manager'] eqn:Hget; [done|].
      unfold getSession in Hget.
      destruct (list_find _ _) as [[? ?]|]; [done|]. by injection Hget as <-. }
    rewrite Hfirst, Hsecond.
    eexists. split_and!; try reflexivity.
    intros id. apply getSession_after_createSession.
Qed.

(** ** The lifecycle fields after a fragment *)

Lemma preserves_lifecycle_processMessage incoming :
  preserves lifecycle (processMessage incoming).
Proof. frame_processMessage. Qed.

(** X17.  Processing a fragment never touches the query promise.  When every
    value the fragment hands to [updateTodosState] is an array: the session
    is busy after a system init fragment, idle after a result fragment, and
    as busy as before otherwise; it adopts the session id of the fragment
    unless that id is empty; its modification time is the timestamp of the
    fragment when it has one; and the last notification is a session_info
    carrying the previous id, the new length of the history and the
    activity flag.  When the processing throws, the busy flag and the id
    are as before. *)
Theorem fragment_lifecycle (incoming : SDKMessage) (m : Machine) :
  let s := session m in
  let s' := session (after (processIncomingMessage incoming) m) in
  queryPromise s' = queryPromise s
  /\ (todoWritesAreArrays incoming = true ->
      busy s'
      = (if bool_decide (sdk_type incoming = "system") then
           if bool_decide (sdk_subtype incoming = Some "init") then true else busy s
         else if bool_decide (sdk_type incoming = "result") then false
         else busy s)
      /\ claudeSessionId s'
         = (if bool_decide (sdk_session_id incoming = "") then claudeSessionId s
            else Some (sdk_session_id incoming))
      /\ (forall timestamp,
            sdk_timestamp incoming = Some timestamp -> lastModifiedTime s' = timestamp)
      /\ exists earlier,
           emitted (processIncomingMessage incoming) m
           = earlier
             ++ [session_info (claudeSessionId s) (length (messages s'))
                   (isSome (queryPromise s))])
  /\ (todoWritesAreArrays incoming = false ->
      busy s' = busy s /\ claudeSessionId s' = claudeSessionId s).
Proof.
  cbv zeta. unfold after at 1 2 3 4 5 6 7, emitted.
  rewrite processIncomingMessage_run, value_processMessage.
  pose proof (preserves_lifecycle_processMessage incoming m) as Hframe.
  injection Hframe as Hsid Hbusy Hquery.
  destruct (todoWritesAreArrays incoming); cbn [fst snd session].
  2:{ by rewrite Hsid, Hbusy, Hquery. }
  rewrite Hsid, Hquery.
  unfold lifecycleBusy, extractTimestamp, messageNotices.
  split_and!; try done.
  - rewrite <- Hquery.
    by destruct (bool_decide (sdk_type _ = _));
      [destruct (bool_decide (sdk_subtype _ = _))|destruct (bool_decide (sdk_type _ = _))].
  - intros _. split_and!.
    + rewrite <- Hbusy.
      by destruct (bool_decide _); [destruct (bool_decide _)|destruct (bool_decide _)].
    + rewrite <- Hsid.
      by destruct (bool_decide (sdk_type _ = _));
        [destruct (bool_decide (sdk_subtype _ = _))
        |destruct (bool_decide (sdk_type _ = _))].
    + intros timestamp ->.
      by destruct (bool_decide (sdk_type _ = _));
        [destruct (bool_decide (sdk_subtype _ = _))
        |destruct (bool_decide (sdk_type _ = _))].
    + eexists. rewrite !app_assoc. f_equal. f_equal.
      by destruct (bool_decide (sdk_type _ = _));
        [destruct (bool_decide (sdk_subtype _ = _))
        |destruct (bool_decide (sdk_type _ = _))].
Qed.

(** ** Fragments that are not rendered *)

Lemma processMessage_other incoming m :
  sdk_type incoming <> "assistant" ->
  sdk_type incoming <> "system" ->
  sdk_type incoming <> "result" ->
  processMessage incoming m = (Normal tt, m, []).
Proof.
  intros Ha Hs Hr. unfold processMessage.
  rewrite (bool_decide_eq_false_2 _ Ha), (bool_decide_eq_false_2 _ Hs),
    (bool_decide_eq_false_2 _ Hr).
  done.
Qed.

Lemma appendRenderableMessage_stream_event history incoming w :
  sdk_type incoming = "stream_event" ->
  appendRenderableMessage history incoming w
  = (history,
     {| addedMessage := None; updatedMessages := []; toolResultUpdates := [] |},
     (extractMessageUuid incoming w).2).
Proof.
  intros Htype. unfold appendRenderableMessage, linkToolResults,
    createChatMessageFromSDKMessage.
  rewrite Htype. cbn. by destruct (extractMessageUuid incoming w).
Qed.

(** X18.  A stream event processed on a session whose history is a fixed
    point of the coalescer leaves the history, the todos, the tools, the
    usage, the busy flag and the summary as they were, sets the count to the
    length of the history, and emits one session_info notification. *)
Theorem stream_event_leaves_history (incoming : SDKMessage) (m : Machine) :
  sdk_type incoming = "stream_event" ->
  coalescedHistory (messages (session m)) ->
  let s := session m in
  let s' := session (after (processIncomingMessage incoming) m) in
  messages s' = messages s
  /\ messageCount s' = length (messages s)
  /\ (todos s', tools s', usageData s', busy s', summary s')
     = (todos s, tools s, usageData s, busy s, summary s)
  /\ emitted (processIncomingMessage incoming) m
     = [session_info (claudeSessionId s) (length (messages s))
          (isSome (queryPromise s))].
Proof.
  intros Htype Hstable. cbv zeta. unfold after, emitted.
  rewrite processIncomingMessage_run.
  unfold value, after, emitted.
  rewrite (processMessage_other incoming m) by (by rewrite Htype).
  cbn [fst snd session world].
  rewrite (appendRenderableMessage_stream_event _ _ _ Htype). cbn [fst snd].
  unfold coalesced. rewrite Hstable. cbn [fst snd].
  unfold lifecycleBusy, messageNotices. rewrite Htype, diffMessages_self. cbn.
  done.
Qed.

Lemma stream_event_leaves_history_witness :
  let m := newMachine exampleWorld in
  let incoming := streamEventFragment "e1" in
  sdk_type incoming = "stream_event"
  /\ coalescedHistory (messages (session m))
  /\ messages (session (after (processIncomingMessage incoming) m)) = []
  /\ emitted (processIncomingMessage incoming) m = [session_info None 0 false].
Proof.
  cbv zeta.
  assert (coalescedHistory (messages (session (newMachine exampleWorld)))) as Hstable
    by exact coalescedHistory_nil.
  destruct (stream_event_leaves_history (streamEventFragment "e1")
              (newMachine exampleWorld) eq_refl Hstable)
    as (Hmessages & _ & _ & Hemitted).
  split; [reflexivity|]. split; [exact Hstable|].
  split; [exact Hmessages|exact Hemitted].
Defined.

(** ** The notifications of a tool result *)

Lemma linkedTurns_same_ids blocks history linked :
  Forall2 (linkedTurn blocks) history linked ->
  map msg_id linked = map msg_id history /\ map msg_ref linked = map msg_ref history.
Proof.
  induction 1 as [|old new olds news (Href & _ & Hid & _) _ [IHid IHref]]; [done|].
  cbn [map]. by rewrite Href, Hid, IHid, IHref.
Qed.

Lemma firstWithId_lookup history index turn :
  NoDup (map msg_id history) ->
  history !! index = Some turn ->
  firstWithId history (msg_id turn) = Some turn.
Proof.
  revert index. induction history as [|x rest IH]; intros index Hnodup Hturn; [done|].
  cbn [map] in Hnodup. apply NoDup_cons in Hnodup as [Hx Hrest].
  cbn [firstWithId]. destruct index as [|index].
  - injection Hturn as ->. by rewrite bool_decide_eq_true_2.
  - cbn in Hturn. rewrite bool_decide_eq_false_2; [by eapply IH|].
    intros Heq. apply Hx. rewrite Heq. apply list_elem_of_fmap_2.
    by eapply list_elem_of_lookup_2.
Qed.

Lemma firstWithId_None history id :
  id ∉ map msg_id history -> firstWithId history id = None.
Proof.
  induction history as [|x rest IH]; [done|]. cbn [map firstWithId].
  rewrite not_elem_of_cons. intros [Hx Hrest].
  rewrite bool_decide_eq_false_2 by done. by apply IH.
Qed.

(** In a list without repeated ids, the turns selected by a test that
    holds of the turn at one position alone. *)
Lemma filter_single (test : ChatMessage -> bool) history index turn :
  history !! index = Some turn ->
  test turn = true ->
  (forall other position,
     history !! position = Some other -> position <> index -> test other = false) ->
  filter (fun message => test message = true) history = [turn].
Proof.
  intros Hturn Htest Hothers.
  rewrite <- (take_drop_middle history index turn Hturn).
  rewrite filter_app, filter_cons_True by done.
  rewrite (filter_none _ (take index history)), (filter_none _ (drop (S index) history));
    [done| |].
  - intros other [position Hother]%list_elem_of_lookup.
    rewrite lookup_drop in Hother.
    rewrite (Hothers other (S index + position) Hother); [done|lia].
  - intros other [position Hother]%list_elem_of_lookup.
    apply lookup_take_Some in Hother as [Hother Hlt].
    rewrite (Hothers other position Hother); [done|lia].
Qed.

Lemma setToolResultAt_linked history index position result :
  findMostRecentToolUse history (tool_use_id result) = Some (index, position) ->
  Forall2 (linkedTurn [ToolResultBlock result]) history
    (setToolResultAt history (index, position) result).
Proof.
  intros Hfind. apply linkedTurns_setToolResultAt; [apply linkedTurns_refl| |done].
  by left.
Qed.

Lemma appendRenderableMessage_single_result history incoming result index position w
    answered :
  sdk_type incoming = "user" ->
  sdk_content incoming = BlockContent [ToolResultBlock result] ->
  findMostRecentToolUse history (tool_use_id result) = Some (index, position) ->
  setToolResultAt history (index, position) result !! index = Some answered ->
  appendRenderableMessage history incoming w
  = (setToolResultAt history (index, position) result
     ++ [renderedUserTurn incoming [ToolResultBlock result] w],
     {| addedMessage := Some (renderedUserTurn incoming [ToolResultBlock result] w);
        updatedMessages := [answered];
        toolResultUpdates :=
          [{| update_message := answered; update_toolUseId := tool_use_id result;
              update_toolResult := result |}] |},
     set_allocated (S (allocated (extractMessageUuid incoming w).2))
       (extractMessageUuid incoming w).2).
Proof.
  intros Htype Hcontent Hfind Hanswered.
  unfold appendRenderableMessage, linkToolResults.
  rewrite (bool_decide_eq_true_2 _ Htype), Hcontent. cbn [foldl]. unfold linkBlock.
  cbn [link_messages]. rewrite Hfind.
  cbn [link_messages link_updated link_toolResultUpdates fst snd app].
  rewrite bool_decide_eq_false_2 by apply not_elem_of_nil. cbn [app].
  unfold resolveUpdated, resolveToolResultUpdates. cbn [omap list_omap fst snd].
  rewrite Hanswered. cbn.
  by rewrite (createChatMessage_user incoming [ToolResultBlock result] w Htype Hcontent).
Qed.

(** X19.  A user fragment holding one result block that answers an
    invocation of the history, on a session whose turns and the new one have
    distinct ids and whose linked history is a fixed point of the coalescer:
    the history becomes the linked history followed by the rendered user
    turn, and the notifications are, in this order, message_added for the
    user turn, message_updated for the answered turn, tool_result_updated
    for the answered turn and the result, and session_info with the new
    count. *)
Theorem tool_result_notifications
    (incoming : SDKMessage) (result : ToolResultContentBlock)
    (index position : nat) (m : Machine) :
  let s := session m in
  let history := messages s in
  let linked := setToolResultAt history (index, position) result in
  let rendered := renderedUserTurn incoming [ToolResultBlock result] (world m) in
  sdk_type incoming = "user" ->
  sdk_content incoming = BlockContent [ToolResultBlock result] ->
  findMostRecentToolUse history (tool_use_id result) = Some (index, position) ->
  coalescedHistory linked ->
  NoDup (map msg_id (history ++ [rendered])) ->
  exists answered,
    linked !! index = Some answered
    /\ messages (session (after (processIncomingMessage incoming) m))
       = linked ++ [rendered]
    /\ emitted (processIncomingMessage incoming) m
       = [message_added (claudeSessionId s) rendered;
          message_updated (claudeSessionId s) answered;
          tool_result_updated (claudeSessionId s) (msg_id answered)
            (tool_use_id result) result;
          session_info (claudeSessionId s) (S (length history))
            (isSome (queryPromise s))].
Proof.
  intros s history linked rendered Htype Hcontent Hfind Hstable Hnodup.
  pose proof (setToolResultAt_linked history index position result Hfind) as Hlinked.
  destruct (linkedTurns_same_ids _ _ _ Hlinked) as [Hids Hrefs].
  fold linked in Hlinked, Hids, Hrefs.
  destruct (findMostRecentToolUse_Some _ _ _ _ Hfind) as (turn & part & Hturn & _).
  destruct (Forall2_lookup_l _ _ _ _ _ Hlinked Hturn) as (answered & Hanswered & Hrel).
  exists answered. split; [done|].
  assert (readPredicate rendered = false) as Hrendered by (by apply readPredicate_user).
  set (next := linked ++ [rendered]).
  assert (map msg_id next = map msg_id (history ++ [rendered])) as Hnext
    by (unfold next; by rewrite !map_app, Hids).
  assert (NoDup (map msg_id next)) as Hnodup' by (by rewrite Hnext).
  assert (NoDup (map msg_id history)) as Hnodup0.
  { rewrite map_app in Hnodup. by apply NoDup_app in Hnodup as [? _]. }
  assert (msg_id rendered ∉ map msg_id history) as Hfresh.
  { rewrite map_app in Hnodup. apply NoDup_app in Hnodup as (_ & Hdisjoint & _).
    intros Hin. apply (Hdisjoint _ Hin). by left. }
  assert (next !! index = Some answered) as Hnext_answered.
  { unfold next. rewrite lookup_app_l; [done|]. by eapply lookup_lt_Some. }
  (* the differ *)
  set (appended :=
         {| addedMessage := Some rendered; updatedMessages := [answered];
            toolResultUpdates :=
              [{| update_message := answered; update_toolUseId := tool_use_id result;
                  update_toolResult := result |}] |}).
  assert (removed (diffMessages history next [answered]) = []) as Hremoved.
  { rewrite diffMessages_removed. apply filter_none. intros id Hid Hnot. apply Hnot.
    rewrite Hnext, map_app, elem_of_app. left.
    by eapply (firstPerId_ids [] history). }
  assert (added (diffMessages history next [answered]) = [rendered]) as Hadded.
  { rewrite diffMessages_added, (distinctTurns_NoDup next Hnodup'). unfold next.
    rewrite filter_app, (filter_none _ linked).
    - by rewrite filter_cons_True.
    - intros other Hother Hnot. apply Hnot. rewrite <- Hids.
      by apply list_elem_of_fmap_2. }
  assert (updated (diffMessages history next [answered]) = [answered]) as Hupdated.
  { rewrite diffMessages_updated, (distinctTurns_NoDup next Hnodup').
    apply (filter_single (isUpdated history [answered]) next index answered); [done| |].
    - unfold isUpdated. cbn [map]. rewrite bool_decide_eq_true_2; [done|]. by left.
    - intros other place Hother Hplace. unfold isUpdated. cbn [map].
      rewrite bool_decide_eq_false_2.
      2:{ rewrite list_elem_of_singleton. intros Hsame. apply Hplace.
          eapply (NoDup_lookup (map msg_id next)); [done| |].
          - by rewrite list_lookup_fmap, Hother.
          - by rewrite list_lookup_fmap, Hnext_answered, Hsame. }
      cbn [orb]. destruct (decide (place < length linked)) as [Hlt|Hge].
      + assert (linked !! place = Some other) as Hother'
          by (unfold next in Hother; by rewrite lookup_app_l in Hother).
        destruct (Forall2_lookup_r _ _ _ _ _ Hlinked Hother')
          as (old & Hold & (Href & _ & Hid & _)).
        rewrite Hid, (firstWithId_lookup history place old Hnodup0 Hold).
        unfold differentObject. by rewrite Href, Nat.eqb_refl.
      + unfold next in Hother. rewrite lookup_app_r in Hother by lia.
        apply list_lookup_singleton_Some in Hother as [_ <-].
        by rewrite firstWithId_None. }
  assert (JSMap.get (buildMessageMap next) (msg_id answered) = Some answered) as Hget.
  { rewrite buildMessageMap_entries, (distinctTurns_NoDup next Hnodup'), get_entries.
    by eapply firstWithId_lookup. }
  (* the run *)
  unfold after, emitted. rewrite processIncomingMessage_run.
  unfold after, emitted, value. rewrite (processMessage_user incoming m Htype).
  cbn [fst snd session world]. fold s history.
  rewrite (appendRenderableMessage_single_result history incoming result index position
             (world m) answered Htype Hcontent Hfind Hanswered).
  fold linked rendered. cbn [fst snd]. fold appended.
  rewrite (coalesced_snoc linked rendered _ Hstable Hrendered). cbn [fst snd].
  fold next. split.
  - unfold lifecycleBusy. rewrite Htype. done.
  - unfold messageNotices. cbn [updatedMessages toolResultUpdates appended].
    rewrite Hremoved, Hadded, Hupdated. unfold toolUpdateNotices. cbn [flat_map].
    cbn [update_message]. rewrite Hget. cbn.
    unfold next. rewrite length_app. cbn [length].
    rewrite <- (Forall2_length _ _ _ Hlinked), Nat.add_1_r. done.
Qed.

Lemma tool_result_notifications_witness :
  let m := after (assign (set_messages [pendingBashTurn])) (newMachine exampleWorld) in
  let result := okResult "t1" in
  let incoming := userFragment "u1" [ToolResultBlock result] in
  let linked := setToolResultAt [pendingBashTurn] (0, 0) result in
  let rendered := renderedUserTurn incoming [ToolResultBlock result] (world m) in
  sdk_type incoming = "user"
  /\ findMostRecentToolUse [pendingBashTurn] "t1" = Some (0, 0)
  /\ coalescedHistory linked
  /\ NoDup (map msg_id ([pendingBashTurn] ++ [rendered]))
  /\ exists answered,
       linked !! 0 = Some answered
       /\ messages (session (after (processIncomingMessage incoming) m))
          = linked ++ [rendered]
       /\ emitted (processIncomingMessage incoming) m
          = [message_added None rendered;
             message_updated None answered;
             tool_result_updated None (msg_id answered) "t1" result;
             session_info None 2 false].
Proof.
  cbv zeta.
  assert (coalescedHistory (setToolResultAt [pendingBashTurn] (0, 0) (okResult "t1")))
    as Hstable by (by intros w).
  assert (NoDup
            (map msg_id
               ([pendingBashTurn]
                ++ [renderedUserTurn
                      (userFragment "u1" [ToolResultBlock (okResult "t1")])
                      [ToolResultBlock (okResult "t1")]
                      (world (after (assign (set_messages [pendingBashTurn]))
                                (newMachine exampleWorld)))])))
    as Hdistinct.
  { change (NoDup ["turn-0"; "u1"]). apply NoDup_cons. split.
    - rewrite list_elem_of_singleton. discriminate.
    - apply NoDup_singleton. }
  split; [reflexivity|]. split; [reflexivity|]. split; [exact Hstable|].
  split; [exact Hdistinct|].
  exact (tool_result_notifications
           (userFragment "u1" [ToolResultBlock (okResult "t1")]) (okResult "t1") 0 0
           (after (assign (set_messages [pendingBashTurn])) (newMachine exampleWorld))
           eq_refl eq_refl eq_refl Hstable Hdistinct).
Defined.

(** ** The aggregates after a load *)

Lemma tools_updateToolsState names m :
  tools (session (after (updateToolsState names) m)) = names
  /\ todos (session (after (updateToolsState names) m)) = todos (session m).
Proof.
  destruct_machine m. unfold updateToolsState, emitToolsUpdate. run_op.
  by destruct (areStringArraysEqual names0 names), isLoad.
Qed.

Lemma preserves_tools_updateTodosState argument :
  preserves (fun m => tools (session m)) (updateTodosState argument).
Proof.
  unfold updateTodosState, updateTodosState_normalized, emitTodosUpdate.
  destruct argument; auto 20 with frame.
Qed.

Lemma preserves_tools_handleAssistantMessage incoming :
  preserves (fun m => tools (session m)) (handleAssistantMessage incoming).
Proof.
  unfold handleAssistantMessage. apply preserves_andThen.
  - destruct (sdk_content incoming) as [text|blocks]; [auto with frame|].
    apply preserves_forEachTry. intros block. unfold todoBlockOp.
    destruct (todoWriteArgument block); [|auto with frame].
    apply preserves_tools_updateTodosState.
  - intros _. unfold updateUsage, usageData_set. auto 20 with frame.
Qed.

Lemma aggregates_processMessage incoming m :
  aggregates (after (processMessage incoming) m)
  = (default (todos (session m))
       (last (omap storedTodos (takeWhile isArray (todoArguments incoming)))),
     default (tools (session m)) (fragmentTools incoming)).
Proof.
  unfold aggregates. rewrite todos_processMessage. f_equal.
  unfold fragmentTools, processMessage.
  destruct (decide (sdk_type incoming = "assistant")) as [Ha|Ha].
  - rewrite (bool_decide_eq_true_2 _ Ha).
    rewrite (bool_decide_eq_false_2 (sdk_type incoming = "system")) by (by rewrite Ha).
    cbn [andb default]. apply preserves_tools_handleAssistantMessage.
  - rewrite (bool_decide_eq_false_2 _ Ha), after_returns.
    destruct (bool_decide (sdk_type incoming = "system")
              && bool_decide (sdk_subtype incoming = Some "init")).
    + rewrite !after_bind.
      match goal with
      | |- tools (session (after ?op ?x)) = _ =>
          assert (preserves (fun m => tools (session m)) op) as Hlast
            by auto 20 with frame;
          rewrite (Hlast x)
      end.
      assert (tools (session (after (if truthy (sdk_model incoming)
                                     then assign (set_currentMainLoopModel
                                                    (sdk_model incoming))
                                     else mret ()) m)) = tools (session m))
        as Htools by (by destruct (truthy (sdk_model incoming))).
      destruct (sdk_tools incoming) as [names|]; cbn [default].
      * by destruct (tools_updateToolsState names
                       (after (if truthy (sdk_model incoming)
                               then assign (set_currentMainLoopModel (sdk_model incoming))
                               else mret ()) m)) as [-> _].
      * by rewrite after_ret.
    + cbn [default].
      destruct (bool_decide (sdk_type incoming = "result")); [|done].
      destruct (sdk_total_cost_usd incoming) as [cost|]; [|done].
      assert (preserves (fun m => tools (session m)) (handleResultMessage incoming cost))
        as Hkeep by (unfold handleResultMessage, usageData_set; auto 20 with frame).
      apply Hkeep.
Qed.

Lemma last_app_default {A : Type} (a b : list A) (d : A) :
  default d (last (a ++ b)) = default (default d (last a)) (last b).
Proof.
  destruct b as [|x b _] using rev_ind; [by rewrite app_nil_r|].
  by rewrite app_assoc, !last_snoc.
Qed.

Lemma last_omap_cons_default {A B : Type} (f : A -> option B) (x : A) (l : list A)
    (d : B) :
  default d (last (omap f (x :: l))) = default (default d (f x)) (last (omap f l)).
Proof.
  rewrite omap_cons. destruct (f x) as [y|]; [|done]. apply last_cons_default.
Qed.

(** A fragment whose processing throws is an assistant fragment: it
    announces no tools. *)
Lemma fragmentTools_throwing incoming :
  todoWritesAreArrays incoming = false -> fragmentTools incoming = None.
Proof.
  unfold todoWritesAreArrays, todoArguments, fragmentTools.
  destruct (decide (sdk_type incoming = "assistant")) as [Ha|Ha].
  - intros _. by rewrite (bool_decide_eq_false_2 (sdk_type incoming = "system"))
      by (by rewrite Ha).
  - by rewrite (bool_decide_eq_false_2 _ Ha).
Qed.

Lemma aggregates_replayFragments fragments rendered m :
  aggregates (after (replayFragments fragments rendered) m)
  = (default (todos (session m))
       (last (omap storedTodos (replayedTodoWrites fragments))),
     default (tools (session m))
       (last (omap fragmentTools (replayedFragments fragments)))).
Proof.
  unfold replayedTodoWrites, replayedFragments.
  revert rendered m. induction fragments as [|incoming rest IH]; intros rendered m;
    [done|].
  cbn [replayFragments flat_map takeWhile].
  rewrite after_andThen, value_processMessage, takeWhile_app.
  fold (todoWritesAreArrays incoming).
  destruct (todoWritesAreArrays incoming) eqn:Harrays.
  - rewrite after_bind, IH.
    assert (aggregates
              (after (withWorld (appendRenderableMessage rendered incoming))
                 (after (processMessage incoming) m))
            = aggregates (after (processMessage incoming) m)) as Hworld.
    { assert (preserves aggregates
                (withWorld (appendRenderableMessage rendered incoming))) as ->
        by auto with frame.
      done. }
    rewrite aggregates_processMessage in Hworld. injection Hworld as -> ->.
    rewrite (takeWhile_all isArray (todoArguments incoming)) by done.
    by rewrite omap_app, last_app_default, last_omap_cons_default.
  - rewrite aggregates_processMessage.
    by rewrite (fragmentTools_throwing incoming Harrays).
Qed.

Lemma aggregates_setMessages fragments m :
  aggregates (after (setMessages fragments) m)
  = (default (todos (session m))
       (last (omap storedTodos (replayedTodoWrites fragments))),
     default (tools (session m))
       (last (omap fragmentTools (replayedFragments fragments)))).
Proof.
  unfold setMessages. rewrite after_andThen.
  rewrite <- (aggregates_replayFragments fragments [] m).
  destruct (value (replayFragments fragments []) m) as [rendered|reason]; [|done].
  rewrite after_returns.
  assert (preserves aggregates
            (history ← withWorld (coalesced rendered);
             assign (set_messages history);;
             assign (set_messageCount (length history));;
             emitMessagesLoaded;;
             emitSessionInfo;;
             s ← this;
             (if negb (truthy (summary s)) then
                match extractSummaryFromMessages rendered with
                | Some summaryText =>
                    if truthy (Some summaryText)
                    then assign (set_summary (Some summaryText))
                    else mret tt
                | None => mret tt
                end
              else mret tt);;
             match extractLastMessageTimestamp fragments with
             | Some lastTimestamp => assign (set_lastModifiedTime lastTimestamp)
             | None =>
                 now ← withWorld (fun w => (Date_now w, w));
                 assign (set_lastModifiedTime now)
             end)) as Hkeep
    by (unfold emitSessionInfo, emitMessagesLoaded; auto 30 with frame).
  apply Hkeep.
Qed.

Lemma aggregates_loadTry fragments m :
  aggregates (after (loadTry (SessionMessages fragments)) m)
  = (default [] (last (omap storedTodos (replayedTodoWrites fragments))),
     default [] (last (omap fragmentTools (replayedFragments fragments)))).
Proof.
  cbn [loadTry].
  destruct (decide (length fragments = 0)) as [Hempty|Hempty];
    [rewrite (bool_decide_eq_true_2 _ Hempty)
    |rewrite (bool_decide_eq_false_2 _ Hempty)].
  - destruct fragments; [|done]. destruct_machine m.
    unfold andThen, returns, updateTodosState, updateTodosState_normalized,
      updateToolsState, usageData_set, emitMessagesLoaded, emitSessionInfo,
      emitTodosUpdate, emitToolsUpdate.
    run_op.
    destruct items as [|item items], names as [|name names], isLoad; reflexivity.
  - rewrite after_andThen, value_returns, after_returns, after_andThen.
    rewrite (value_updateTodosState (JArray [])) by done. cbn [isArray].
    rewrite after_andThen, value_returns, after_returns, after_andThen.
    match goal with
    | |- context [after (setMessages fragments) ?x] => set (start := x)
    end.
    assert (todos (session start) = [] /\ tools (session start) = [])
      as [Htodos Htools].
    { unfold start. rewrite !after_bind.
      assert (preserves (fun m => todos (session m)) (usageData_set emptyUsage)) as ->
        by (unfold usageData_set; auto 20 with frame).
      assert (preserves (fun m => tools (session m)) (usageData_set emptyUsage)) as ->
        by (unfold usageData_set; auto 20 with frame).
      match goal with
      | |- context [after (updateToolsState []) ?x] =>
          destruct (tools_updateToolsState [] x) as [-> ->]
      end.
      by rewrite todos_updateTodosState. }
    pose proof (aggregates_setMessages fragments start) as Hset.
    rewrite Htodos, Htools in Hset.
    destruct (value (setMessages fragments) _); [|done].
    rewrite after_returns, <- Hset.
    assert (preserves aggregates (assign (set_busy false);; assign (set_isExplicit false)))
      as Hkeep by auto 20 with frame.
    apply Hkeep.
Qed.

(** X20.  After a load that received fragments, the todo list of the session
    is the copy of the last array handed to [updateTodosState] during the
    replay, which stops at the first value that is not an array, and the
    empty list when there is none; the tool inventory is that of the last
    system init fragment replayed that names one, and the empty list when
    there is none.  What the session held before the load plays no part.
    When every todo-writing invocation of the fragments holds an array, the
    replay covers all of them. *)
Theorem load_recomputes_aggregates
    (promise : nat) (fragments : list SDKMessage) (m : Machine) :
  let loaded := after (loadFromServer_resume promise (SessionMessages fragments)) m in
  todos (session loaded)
  = default [] (last (omap storedTodos (replayedTodoWrites fragments)))
  /\ tools (session loaded)
     = default [] (last (omap fragmentTools (replayedFragments fragments)))
  /\ (Forall (fun incoming => todoWritesAreArrays incoming = true) fragments ->
      replayedTodoWrites fragments = flat_map todoArguments fragments
      /\ replayedFragments fragments = fragments).
Proof.
  cbv zeta.
  assert (aggregates
            (after (loadFromServer_resume promise (SessionMessages fragments)) m)
          = (default [] (last (omap storedTodos (replayedTodoWrites fragments))),
             default [] (last (omap fragmentTools (replayedFragments fragments)))))
    as Hall.
  { unfold loadFromServer_resume. rewrite after_bind.
    assert (preserves aggregates (loadFinally promise)) as ->.
    { unfold loadFinally, flushPendingStateUpdates, emitTodosUpdate, emitToolsUpdate.
      assert (preserves aggregates (settle promise Fulfilled)) by (by intros ?).
      auto 30 with frame. }
    rewrite <- (aggregates_loadTry fragments m). unfold loadResponse.
    rewrite after_bind.
    by destruct (value (loadTry (SessionMessages fragments)) m). }
  injection Hall as Htodos Htools. split_and!; [done|done|].
  intros Harrays. unfold replayedTodoWrites, replayedFragments. split.
  - apply takeWhile_all. rewrite forallb_forall. intros argument Hin.
    apply in_flat_map in Hin as (incoming & Hincoming & Hin).
    rewrite Forall_forall in Harrays.
    specialize (Harrays incoming (proj2 (list_elem_of_In _ _) Hincoming)).
    unfold todoWritesAreArrays in Harrays. rewrite forallb_forall in Harrays.
    by apply Harrays.
  - apply takeWhile_all. rewrite forallb_forall. intros incoming Hincoming.
    rewrite Forall_forall in Harrays.
    by apply Harrays, list_elem_of_In.
Qed.

(** ** Project directory names and session ids *)

Lemma replaceSeparatorRuns_clean inRun text :
  Forall (fun c => isProjectSeparator c = false)
    (String.list_ascii_of_string (replaceSeparatorRuns inRun text)).
Proof.
  revert inRun. induction text as [|c rest IH]; intros inRun; [by constructor|].
  cbn [replaceSeparatorRuns]. destruct (isProjectSeparator c) eqn:Hc.
  - destruct inRun; [apply IH|]. cbn [String.list_ascii_of_string]. by constructor.
  - cbn [String.list_ascii_of_string]. by constructor.
Qed.

Lemma replaceSlashes_clean text :
  Forall (fun c => isProjectSeparator c = false) (String.list_ascii_of_string text) ->
  replaceSlashes text = text.
Proof.
  induction text as [|c rest IH]; [done|].
  cbn [String.list_ascii_of_string replaceSlashes].
  intros [Hc Hrest]%Forall_cons. rewrite IH by done.
  unfold isProjectSeparator in Hc. cbv zeta in Hc.
  destruct (Ascii.nat_of_ascii c =? 47); [|done].
  by rewrite orb_true_r in Hc.
Qed.

Lemma replaceSeparatorRuns_id inRun text :
  Forall (fun c => isProjectSeparator c = false) (String.list_ascii_of_string text) ->
  replaceSeparatorRuns inRun text = text.
Proof.
  revert inRun. induction text as [|c rest IH]; intros inRun; [done|].
  cbn [String.list_ascii_of_string replaceSeparatorRuns].
  intros [Hc Hrest]%Forall_cons. by rewrite Hc, IH.
Qed.

(** X21.  The directory name [sanitizeProjectId] gives a project starts with
    a dash and holds no colon, slash or backslash; the function leaves such a
    name unchanged; and a path without separator that does not start with a
    dash only gains the dash. *)
Theorem sanitizeProjectId_normal_form (cwd : string) :
  let name := sanitizeProjectId cwd in
  startsWithDash name = true
  /\ Forall (fun c => isProjectSeparator c = false) (String.list_ascii_of_string name)
  /\ sanitizeProjectId name = name
  /\ (Forall (fun c => isProjectSeparator c = false) (String.list_ascii_of_string cwd) ->
      startsWithDash cwd = false ->
      name = String dash cwd).
Proof.
  cbv zeta.
  pose proof (replaceSeparatorRuns_clean false cwd) as Hclean.
  assert (sanitizeProjectId cwd
          = if startsWithDash (replaceSeparatorRuns false cwd)
            then replaceSeparatorRuns false cwd
            else String dash (replaceSeparatorRuns false cwd)) as Hname.
  { unfold sanitizeProjectId. by rewrite (replaceSlashes_clean _ Hclean). }
  assert (Forall (fun c => isProjectSeparator c = false)
            (String.list_ascii_of_string (sanitizeProjectId cwd))) as Hclean'.
  { rewrite Hname. destruct (startsWithDash _); [done|].
    cbn [String.list_ascii_of_string]. by constructor. }
  assert (startsWithDash (sanitizeProjectId cwd) = true) as Hdash.
  { rewrite Hname. by destruct (startsWithDash _) eqn:Hstarts. }
  split_and!; try done.
  - unfold sanitizeProjectId at 1.
    rewrite (replaceSeparatorRuns_id false _ Hclean'), (replaceSlashes_clean _ Hclean').
    by rewrite Hdash.
  - intros Hcwd Hstart. rewrite Hname, (replaceSeparatorRuns_id false cwd Hcwd).
    by rewrite Hstart.
Qed.

Lemma app_String c a b : String c a +:+ b = String c (a +:+ b).
Proof. done. Qed.

Lemma length_toLowerCase text : String.length (toLowerCase text) = String.length text.
Proof. induction text as [|c rest IH]; [done|]. cbn. by rewrite IH. Qed.

Lemma toLowerCase_app a b : toLowerCase (a +:+ b) = toLowerCase a +:+ toLowerCase b.
Proof.
  induction a as [|c rest IH]; [done|].
  rewrite app_String. cbn [toLowerCase]. by rewrite IH, app_String.
Qed.

Lemma toLowerCase_substring n m text :
  toLowerCase (String.substring n m text) = String.substring n m (toLowerCase text).
Proof.
  revert n m. induction text as [|c rest IH]; intros n m.
  - by destruct n, m.
  - destruct n as [|n]; cbn [String.substring toLowerCase]; [|apply IH].
    destruct m as [|m]; [done|]. cbn [toLowerCase]. by rewrite IH.
Qed.

Lemma length_app_string a b :
  String.length (a +:+ b) = String.length a + String.length b.
Proof.
  induction a as [|c rest IH]; [done|]. rewrite app_String. cbn. by rewrite IH.
Qed.

Lemma substring_all text : String.substring 0 (String.length text) text = text.
Proof. induction text as [|c rest IH]; [done|]. cbn. by rewrite IH. Qed.

Lemma substring_app_r a b :
  String.substring (String.length a) (String.length b) (a +:+ b) = b.
Proof. induction a as [|c rest IH]; [apply substring_all|]. exact IH. Qed.

Lemma substring_app_l a b :
  String.substring 0 (String.length a) (a +:+ b) = a.
Proof.
  induction a as [|c rest IH]; [by destruct b|].
  rewrite app_String. cbn. by rewrite IH.
Qed.

Lemma substring_split n text :
  n <= String.length text ->
  text
  = String.substring 0 n text +:+ String.substring n (String.length text - n) text.
Proof.
  revert n. induction text as [|c rest IH]; intros n Hn.
  - cbn in Hn. by destruct n.
  - destruct n as [|n]; cbn [String.substring String.length].
    + cbn. by rewrite substring_all.
    + rewrite app_String. f_equal. apply IH. cbn in Hn. lia.
Qed.

Lemma endsWith_app suffix text : endsWith suffix (text +:+ suffix) = true.
Proof.
  unfold endsWith. rewrite length_app_string.
  replace (String.length text + String.length suffix - String.length suffix)
    with (String.length text) by lia.
  rewrite substring_app_r. rewrite bool_decide_eq_true_2 by done.
  rewrite andb_true_r. apply Nat.leb_le. lia.
Qed.

(** X22.  [normalizeSessionId] removes a final [.jsonl], in any letter case,
    and nothing else: a value followed by such an extension gives the value
    back; every value is its result followed by nothing or by such an
    extension; and a value that does not end in it is unchanged. *)
Theorem normalizeSessionId_strips_extension (value : string) :
  (forall extension,
     toLowerCase extension = ".jsonl" -> normalizeSessionId (value +:+ extension) = value)
  /\ (exists extension,
        value = normalizeSessionId value +:+ extension
        /\ (extension = "" \/ toLowerCase extension = ".jsonl"))
  /\ (endsWith ".jsonl" (toLowerCase value) = false -> normalizeSessionId value = value).
Proof.
  split_and!.
  - intros extension Hextension. unfold normalizeSessionId, SESSION_FILE_EXTENSION.
    rewrite toLowerCase_app, Hextension, endsWith_app.
    assert (String.length extension = 6) as Hlength
      by (by rewrite <- length_toLowerCase, Hextension).
    rewrite length_app_string, Hlength.
    replace (String.length value + 6 - String.length ".jsonl")
      with (String.length value) by (cbn; lia).
    apply substring_app_l.
  - unfold normalizeSessionId, SESSION_FILE_EXTENSION.
    destruct (endsWith ".jsonl" (toLowerCase value)) eqn:Hends.
    + unfold endsWith in Hends. apply andb_true_iff in Hends as [Hlength Hsuffix].
      apply Nat.leb_le in Hlength. apply bool_decide_eq_true_1 in Hsuffix.
      rewrite length_toLowerCase in Hlength, Hsuffix.
      change (String.length ".jsonl") with 6 in *.
      exists (String.substring (String.length value - 6) 6 value). split.
      * rewrite (substring_split (String.length value - 6) value) at 1 by lia.
        do 2 f_equal. lia.
      * right. by rewrite toLowerCase_substring.
    + exists "". split; [|by left]. clear. induction value; [done|].
      rewrite app_String. by f_equal.
  - intros Hends. unfold normalizeSessionId, SESSION_FILE_EXTENSION. by rewrite Hends.
Qed.

(** ** The streams open after a stream has ended *)

Lemma resumeWaiters_streaming settled waiting m position :
  (isStreaming <$> value (resumeWaiters settled Fulfilled waiting) m !! position)
  = ((fun call => isStreaming call || awaits settled call) <$> waiting !! position).
Proof.
  revert m position. induction waiting as [|call rest IH]; intros m position; [done|].
  cbn [resumeWaiters]. rewrite !value_bind. destruct position as [|position].
  - cbn [lookup list_lookup fmap option_fmap option_map]. f_equal.
    unfold awaits, isStreaming.
    destruct (phase call) as [previous| | |] eqn:Hphase; cbn; rewrite ?Hphase; try done.
    destruct (bool_decide (previous = settled)); cbn; [|by rewrite Hphase].
    by rewrite value_bind.
  - cbn [lookup list_lookup]. apply IH.
Qed.

Lemma length_resumeWaiters settled outcome waiting m :
  length (value (resumeWaiters settled outcome waiting) m) = length waiting.
Proof.
  revert m. induction waiting as [|call rest IH]; intros m; [done|].
  cbn [resumeWaiters]. rewrite !value_bind. cbn. by rewrite IH.
Qed.

(** X23.  Once the stream of a call has ended, the calls that stream are
    those that streamed before, without that call, and those that waited
    for it.  With one streaming call and one call waiting for it, the
    waiting call is the one that streams next; with none waiting, no call
    streams. *)
Theorem streams_after_stream_ends (state : EventLoop) (index own : nat) :
  (phase <$> calls state !! index) = Some (Streaming own) ->
  let ended := (step state (StreamEnds index)).1 in
  streamingCalls ended
  = filter
      (fun position =>
         default false
           ((fun call =>
               (isStreaming call && negb (position =? index)) || awaits own call)
            <$> calls state !! position))
      (seq 0 (length (calls state)))
  /\ (forall waiter,
        streamingCalls state = [index] ->
        filter (fun position => default false (awaits own <$> calls state !! position))
          (seq 0 (length (calls state))) = [waiter] ->
        streamingCalls ended = [waiter])
  /\ (streamingCalls state = [index] ->
      Forall (fun call => awaits own call = false) (calls state) ->
      streamingCalls ended = []).
Proof.
  intros Hphase ended.
  assert (streamingCalls ended
          = filter
              (fun position =>
                 default false
                   ((fun call =>
                       (isStreaming call && negb (position =? index))
                       || awaits own call)
                    <$> calls state !! position))
              (seq 0 (length (calls state)))) as Hafter.
  { unfold ended, streamingCalls. rewrite step_run. cbn [fst calls react].
    rewrite Hphase. unfold finishCall. rewrite value_bind, length_resumeWaiters.
    rewrite length_alter. apply list_filter_iff. intros position.
    rewrite resumeWaiters_streaming.
    destruct (decide (position = index)) as [->|Hne].
    - rewrite list_lookup_alter_eq. rewrite Nat.eqb_refl.
      destruct (calls state !! index) as [call|]; [|done]. cbn in Hphase |- *.
      injection Hphase as Hphase. unfold awaits, isStreaming. cbn. by rewrite Hphase.
    - rewrite list_lookup_alter_ne by done.
      rewrite (proj2 (Nat.eqb_neq position index) Hne).
      destruct (calls state !! position) as [call|]; [|done]. cbn.
      by rewrite andb_true_r. }
  split; [done|]. split.
  - intros waiter Hstreaming Hwaiters. rewrite Hafter, <- Hwaiters.
    apply list_filter_iff. intros position.
    destruct (calls state !! position) as [call|] eqn:Hcall; [|done]. cbn.
    destruct (decide (position = index)) as [->|Hne];
      [by rewrite Nat.eqb_refl, andb_false_r; cbn [orb]|].
    destruct (isStreaming call) eqn:Hcall_streaming; [|done].
    assert (position ∈ streamingCalls state) as Hin.
    { unfold streamingCalls. apply list_elem_of_filter. split.
      - by rewrite Hcall; cbn; rewrite Hcall_streaming.
      - apply elem_of_seq. apply lookup_lt_Some in Hcall. lia. }
    rewrite Hstreaming in Hin. apply list_elem_of_singleton in Hin. done.
  - intros Hstreaming Hnone. rewrite Hafter. apply filter_none.
    intros position _.
    destruct (calls state !! position) as [call|] eqn:Hcall; [|by intros []].
    cbn. rewrite Forall_forall in Hnone.
    rewrite (Hnone call) by (by eapply list_elem_of_lookup_2). rewrite orb_false_r.
    destruct (decide (position = index)) as [->|Hne];
      [by rewrite Nat.eqb_refl, andb_false_r; intros []|].
    destruct (isStreaming call) eqn:Hcall_streaming; [|by intros []].
    assert (position ∈ streamingCalls state) as Hin.
    { unfold streamingCalls. apply list_elem_of_filter. split.
      - by rewrite Hcall; cbn; rewrite Hcall_streaming.
      - apply elem_of_seq. apply lookup_lt_Some in Hcall. lia. }
    rewrite Hstreaming in Hin. apply list_elem_of_singleton in Hin. done.
Qed.

Lemma streams_after_stream_ends_witness :
  let state :=
    run (newEventLoop exampleWorld) [CallSend "first" None; CallSend "second" None] in
  (phase <$> calls state !! 0) = Some (Streaming 0)
  /\ streamingCalls state = [0]
  /\ streamingCalls (step state (StreamEnds 0)).1 = [1].
Proof.
  cbv zeta.
  pose (state :=
          run (newEventLoop exampleWorld)
            [CallSend "first" None; CallSend "second" None]).
  assert ((phase <$> calls state !! 0) = Some (Streaming 0)) as Hphase by reflexivity.
  split; [exact Hphase|]. split; [reflexivity|].
  exact (proj1 (proj2 (streams_after_stream_ends state 0 0 Hphase)) 1
           eq_refl eq_refl).
Defined.
